(** * Member attendance tracking (src/code.js)

    A shallow embedding of the Apps Script behind the "Control Panel":
    [updateMemberPoints], [getResponsesFromEvent], [fixEmail],
    [replaceEmailInSheet], [fixName], [replaceNameInSheet], [deleteName],
    [deleteNameInSheet], [findUser], [getNameFromSheet] and [createNewForm],
    followed by the properties of the reconciliation engine that spec.md
    states about them and by further properties of the script.

    Conventions of the embedding.
    - Text cells are [string]s, the blank cell being [""]; [toLowerCase] and
      [toUpperCase] act on the letters A-Z / a-z.
    - Point cells hold integers ([Z]) or are blank ([None]).  Where the script
      would leave integer arithmetic (a blank F2 turns [+] into text
      concatenation) the embedding answers [OutOfModel] and follows the run no
      further.
    - A tab is the list of its rows from row 2 on; every row after the last
      one of the list is blank.  A row carries the columns the script reads or
      writes.
    - A JS object used as a map is an association list in insertion order,
      which is the order [for ... in] walks its keys in.
      The keys are emails: none is an array index or the name of a member
      of [Object.prototype].
    - An exception ends the run where it is raised.  Nothing is rolled back:
      the state reached so far is the state returned.
    - [createNewForm] runs on a state of its own, [studio]: the cells it
      reads, the Templates folder and the month subfolders of "Sheets" and
      "Forms".  What the Drive, Spreadsheet and Forms services make of a
      value the script hands them unchecked is out of the model.
    - The calls to [Logger.log] are left out. *)

From Stdlib Require Import String Ascii DecimalString.
From Stdlib Require Import ZArith List Bool Lia Permutation.
Import ListNotations.

Open Scope string_scope.
Open Scope list_scope.
Open Scope Z_scope.

(** ** The JavaScript runtime pieces the script relies on *)

Module Js.

Definition lower_char (c : ascii) : ascii :=
  let n := nat_of_ascii c in
  if ((65 <=? n) && (n <=? 90))%nat then ascii_of_nat (n + 32) else c.

Definition upper_char (c : ascii) : ascii :=
  let n := nat_of_ascii c in
  if ((97 <=? n) && (n <=? 122))%nat then ascii_of_nat (n - 32) else c.

Fixpoint toLowerCase (s : string) : string :=
  match s with
  | EmptyString => EmptyString
  | String c s' => String (lower_char c) (toLowerCase s')
  end.

Fixpoint toUpperCase (s : string) : string :=
  match s with
  | EmptyString => EmptyString
  | String c s' => String (upper_char c) (toUpperCase s')
  end.

(** [String(n)] for an integer [n]. *)
Definition String_of (n : Z) : string := NilZero.string_of_int (Z.to_int n).

(** [s.split(sep)[0]]: the text before the first occurrence of [sep]. *)
Fixpoint split0 (sep s : string) : string :=
  if prefix sep s then EmptyString
  else match s with
       | EmptyString => EmptyString
       | String c s' => String c (split0 sep s')
       end.

(** ["\n"] *)
Definition newline : string := String (ascii_of_nat 10) EmptyString.

(** Objects used as maps from text keys. *)
Definition object (V : Type) : Type := list (string * V).

Fixpoint get {V : Type} (o : object V) (k : string) : option V :=
  match o with
  | [] => None
  | (k', v) :: o' => if (k' =? k)%string then Some v else get o' k
  end.

(** [o[k] = v]: an existing key keeps its place, a new one goes last. *)
Fixpoint set {V : Type} (o : object V) (k : string) (v : V) : object V :=
  match o with
  | [] => [(k, v)]
  | (k', v') :: o' =>
      if (k' =? k)%string then (k, v) :: o' else (k', v') :: set o' k v
  end.

Definition keys {V : Type} (o : object V) : list string := map fst o.

Inductive error : Type := TypeError.

(** How a call ends. *)
Inductive result (A : Type) : Type :=
| Returned (a : A)
| Threw (e : error)
| OutOfModel.

Arguments Returned {A} a.
Arguments Threw {A} e.
Arguments OutOfModel {A}.

Definition bind {A B : Type} (r : result A) (k : A -> result B) : result B :=
  match r with
  | Returned a => k a
  | Threw e => Threw e
  | OutOfModel => OutOfModel
  end.

End Js.

Import Js.

Notation "x <- r ;; k" := (bind r (fun x => k))
  (at level 61, r at next level, right associativity).

(** ** Spreadsheets of the Drive folder *)

(** A row of the tab "Responses": name (A), email (B), additional points (D)
    and column F, whose row-2 cell holds the event's default points. *)
Record response_row : Type := {
  colA : string;
  colB : string;
  colD : option Z;
  colF : option Z
}.

(** A row of the tab "Form Responses 1": name (B) and email (C). *)
Record form_row : Type := {
  formB : string;
  formC : string
}.

Definition blank_response : response_row :=
  {| colA := ""; colB := ""; colD := None; colF := None |}.

Definition blank_form : form_row := {| formB := ""; formC := "" |}.

(** An event spreadsheet.  [getSheetByName] answers [null] for a tab the file
    does not have: [None] here. *)
Record spreadsheet : Type := {
  fileName : string;
  tabResponses : option (list response_row);
  tabFormResponses1 : option (list form_row)
}.

(** The semester's "Sheets" folder: its own files and those of its (month)
    subfolders. *)
Record sheets_folder : Type := {
  files : list spreadsheet;
  subfolders : list (list spreadsheet)
}.

(** A row of "Member Points" from row 3 on: name (A), total (B), email (C)
    and the background of A:B. *)
Record member_row : Type := {
  cellA : string;
  cellB : option Z;
  cellC : string;
  background : string
}.

Definition MEMBER_POINT_SHEET_OFFSET : nat := 3.

Definition DEFAULT_MEMBER_COLOR : string := "#cfe2f3".
Definition ACTIVE_MEMBER_COLOR : string := "#b6d7a8".
Definition INVOLVED_MEMBER_COLOR : string := "#8e7cc3".
Definition MOST_INVOLVED_MEMBER_COLOR : string := "#f1c232".
Definition WHITE : string := "#ffffff".

(** ** getResponsesFromEvent (lines 333-367) *)

Record response_set : Type := {
  names : object string;
  points : object Z
}.

(** [sheet.getRange("F2").getValue()] *)
Definition F2 (rows : list response_row) : option Z :=
  match rows with
  | [] => None
  | r :: _ => colF r
  end.

(** [additionalPoints != "" ? additionalPoints : 0]; a blank cell and the
    number 0 both compare equal to [""]. *)
Definition orZero (additionalPoints : option Z) : Z :=
  match additionalPoints with
  | Some a => if a =? 0 then 0 else a
  | None => 0
  end.

Fixpoint responsesLoop (defaultPoints : option Z) (rows : list response_row)
    (names0 : object string) (points0 : object Z) : result response_set :=
  match rows with
  | [] => Returned {| names := names0; points := points0 |}
  | r :: rest =>
      let name := colA r in
      let email := toLowerCase (colB r) in
      let additionalPoints := colD r in
      if (email =? "")%string
      then Returned {| names := names0; points := points0 |}
      else
        match defaultPoints with
        | Some d =>
            responsesLoop defaultPoints rest
              (set names0 email name)
              (set points0 email (d + orZero additionalPoints))
        | None => OutOfModel
        end
  end.

Definition getResponsesFromEvent (sheet : option (list response_row))
    : result response_set :=
  match sheet with
  | None => Threw TypeError
  | Some rows => responsesLoop (F2 rows) rows [] []
  end.

(** ** updateMemberPoints (lines 207-330) *)

(** Lines 217-232: the ids of the folder's files, then of each subfolder's. *)
Definition sheetIds (folder : sheets_folder) : list spreadsheet :=
  files folder ++ concat (subfolders folder).

(** Lines 248-259: the [for ... in] over [info.names]. *)
Fixpoint forIn (props : list string) (info responseSet : response_set)
    : result response_set :=
  match props with
  | [] => Returned responseSet
  | property :: rest =>
      match get (names responseSet) property with
      | None =>
          match get (names info) property, get (points info) property with
          | Some n, Some p =>
              forIn rest info
                {| names := set (names responseSet) property n;
                   points := set (points responseSet) property p |}
          | _, _ => OutOfModel
          end
      | Some _ =>
          match get (points responseSet) property, get (points info) property with
          | Some a, Some b =>
              forIn rest info
                {| names := names responseSet;
                   points := set (points responseSet) property (a + b) |}
          | _, _ => OutOfModel
          end
      end
  end.

(** Lines 235-260, over the ids in the order [ids.pop()] hands them out. *)
Fixpoint eventsLoop (popped : list spreadsheet) (responseSet : option response_set)
    : result (option response_set) :=
  match popped with
  | [] => Returned responseSet
  | sheet :: rest =>
      info <- getResponsesFromEvent (tabResponses sheet) ;;
      match responseSet with
      | None => eventsLoop rest (Some info)
      | Some rs =>
          rs' <- forIn (keys (names info)) info rs ;;
          eventsLoop rest (Some rs')
      end
  end.

(** [ids.pop()] takes the last id first. *)
Definition popOrder (ids : list spreadsheet) : list spreadsheet := rev ids.

Definition tierColor (total : Z) : string :=
  if total <? 3 then DEFAULT_MEMBER_COLOR
  else if total <? 15 then ACTIVE_MEMBER_COLOR
  else INVOLVED_MEMBER_COLOR.

(** Lines 273-308: row [i] of the ledger for [emails[i]], with the running
    maximum and the indexes of the rows that reach it. *)
Fixpoint rowsLoop (responseSet : response_set) (emails : list string) (i : nat)
    (max : Z) (indexes : list nat) : result (list member_row * Z * list nat) :=
  match emails with
  | [] => Returned ([], max, indexes)
  | email :: rest =>
      match get (points responseSet) email, get (names responseSet) email with
      | Some total, Some name =>
          let row := {| cellA := name; cellB := Some total; cellC := email;
                        background := tierColor total |} in
          let '(max', indexes') :=
            if total >? max then (total, [i])
            else if total =? max then (max, indexes ++ [i])
            else (max, indexes) in
          out <- rowsLoop responseSet rest (S i) max' indexes' ;;
          let '(rows, m, ix) := out in
          Returned (row :: rows, m, ix)
      | _, _ => OutOfModel
      end
  end.

Definition setBackground (color : string) (r : member_row) : member_row :=
  {| cellA := cellA r; cellB := cellB r; cellC := cellC r; background := color |}.

Fixpoint updateAt {A : Type} (i : nat) (f : A -> A) (l : list A) : list A :=
  match l, i with
  | [], _ => []
  | x :: l', O => f x :: l'
  | x :: l', S i' => x :: updateAt i' f l'
  end.

(** Lines 311-318. *)
Definition styleTop (max : Z) (indexes : list nat) (rows : list member_row)
    : list member_row :=
  if max >=? 15
  then fold_left
         (fun rows i => updateAt i (setBackground MOST_INVOLVED_MEMBER_COLOR) rows)
         indexes rows
  else rows.

(** Lines 217-318: the rows the run puts at rows 3, 4, ... of "Member
    Points", in the order it writes them. *)
Definition aggregate (folder : sheets_folder) : result (list member_row) :=
  responseSet <- eventsLoop (popOrder (sheetIds folder)) None ;;
  match responseSet with
  | None => Threw TypeError
  | Some rs =>
      let emails := keys (names rs) in
      out <- rowsLoop rs emails 0 0 [] ;;
      let '(rows, max, indexes) := out in
      Returned (styleTop max indexes rows)
  end.

(** ** The control panel, the ledger sheet and the state the script runs on *)

Record panel_cell : Type := {
  value : string;
  fontColor : string;
  fontSize : Z
}.

Definition blank_cell : panel_cell :=
  {| value := ""; fontColor := "#000000"; fontSize := 10 |}.

(** The active sheet of the control panel, by A1 notation. *)
Definition control_panel : Type := object panel_cell.

Definition getCell (sheet : control_panel) (a1 : string) : panel_cell :=
  match get sheet a1 with
  | Some c => c
  | None => blank_cell
  end.

Definition getValue (sheet : control_panel) (a1 : string) : string :=
  value (getCell sheet a1).

Definition setValue (a1 v : string) (sheet : control_panel) : control_panel :=
  let c := getCell sheet a1 in
  set sheet a1 {| value := v; fontColor := fontColor c; fontSize := fontSize c |}.

Definition setFontColor (a1 color : string) (sheet : control_panel) : control_panel :=
  let c := getCell sheet a1 in
  set sheet a1 {| value := value c; fontColor := color; fontSize := fontSize c |}.

Definition setFontSize (a1 : string) (size : Z) (sheet : control_panel) : control_panel :=
  let c := getCell sheet a1 in
  set sheet a1 {| value := value c; fontColor := fontColor c; fontSize := size |}.

Definition OLD_EMAIL_CELL : string := "K4".
Definition NEW_EMAIL_CELL : string := "K6".
Definition EMAIL_ERROR_CELL : string := "J3".
Definition OLD_NAME_CELL : string := "K13".
Definition NEW_NAME_CELL : string := "K15".
Definition NAME_ERROR_CELL : string := "J12".
Definition DEL_NAME_CELL : string := "K20".
Definition DEL_EMAIL_CELL : string := "K22".
Definition DEL_ERROR_CELL : string := "J19".
Definition FIND_USER_CELL : string := "Q4".
Definition USER_EVENTS_CELL : string := "M3".

Record world : Type := {
  SHEET : control_panel;
  SHEETS_FOLDER : sheets_folder;
  memberSheet : list member_row
}.

Definition with_SHEET (w : world) (p : control_panel) : world :=
  {| SHEET := p; SHEETS_FOLDER := SHEETS_FOLDER w; memberSheet := memberSheet w |}.

Definition with_SHEETS_FOLDER (w : world) (f : sheets_folder) : world :=
  {| SHEET := SHEET w; SHEETS_FOLDER := f; memberSheet := memberSheet w |}.

Definition with_memberSheet (w : world) (m : list member_row) : world :=
  {| SHEET := SHEET w; SHEETS_FOLDER := SHEETS_FOLDER w; memberSheet := m |}.

(** A step of the script: the state it leaves and how it ended. *)
Definition action (A : Type) : Type := world -> world * result A.

Definition andThen {A B : Type} (m : action A) (k : A -> action B) : action B :=
  fun w =>
    let (w1, r) := m w in
    match r with
    | Returned a => k a w1
    | Threw e => (w1, Threw e)
    | OutOfModel => (w1, OutOfModel)
    end.

Notation "m >>> k" := (andThen m (fun _ => k))
  (at level 62, right associativity).

(** Line 215: range A3:B1000 loses content and background; column C stays. *)
Definition clearAB (r : member_row) : member_row :=
  {| cellA := ""; cellB := None; cellC := cellC r; background := WHITE |}.

Definition clearLedger (sheet : list member_row) : list member_row :=
  map clearAB (firstn 998 sheet) ++ skipn 998 sheet.

(** The [setValue]s of lines 278-280 and the backgrounds of lines 293 and 316
    fill rows 3, 4, ... of the sheet. *)
Definition writeRows (rows sheet : list member_row) : list member_row :=
  rows ++ skipn (length rows) sheet.

(** ** Loops over the rows of a tab *)

Section RowLoops.

Context {R : Type}.
Variable blank : R.
Variables nameOf emailOf : R -> string.

(** The loops of [replaceEmailInSheet] and [replaceNameInSheet]: [read] and
    [write] are the column's [getValue] and [setValue]. *)
Fixpoint replaceLoop (read : R -> string) (write : string -> R -> R)
    (new old : string) (rows : list R) : list R :=
  match rows with
  | [] => []
  | r :: rest =>
      let v := toLowerCase (read r) in
      if (v =? "")%string then r :: rest
      else (if (v =? old)%string then write new r else r)
             :: replaceLoop read write new old rest
  end.

(** Row number [index] of the sheet; the list starts at row 2. *)
Definition rowAt (tab : list R) (index : nat) : R := nth (index - 2) tab blank.

(** [deleteRow(index)] takes the whole row out of the sheet; the rows below
    move up by one. *)
Definition deleteRow (index : nat) (tab : list R) : list R :=
  firstn (index - 2) tab ++ skipn (S (index - 2)) tab.

(** The loops of [deleteNameInSheet], by row number as the script runs
    them; [None] when [fuel] iterations were not enough. *)
Fixpoint deleteLoop (fuel index : nat) (delEmail delName : string)
    (tab : list R) : option (list R) :=
  match fuel with
  | O => None
  | S fuel' =>
      let name := toLowerCase (nameOf (rowAt tab index)) in
      let email := toLowerCase (emailOf (rowAt tab index)) in
      if (name =? "")%string then Some tab
      else
        let tab' :=
          if ((name =? delName)%string && (email =? delEmail)%string)%bool
          then deleteRow index tab else tab in
        deleteLoop fuel' (S index) delEmail delName tab'
  end.

End RowLoops.

Definition setFormB (v : string) (r : form_row) : form_row :=
  {| formB := v; formC := formC r |}.
Definition setFormC (v : string) (r : form_row) : form_row :=
  {| formB := formB r; formC := v |}.
Definition setColA (v : string) (r : response_row) : response_row :=
  {| colA := v; colB := colB r; colD := colD r; colF := colF r |}.
Definition setColB (v : string) (r : response_row) : response_row :=
  {| colA := colA r; colB := v; colD := colD r; colF := colF r |}.

Definition with_tabs (sheet : spreadsheet) (form : option (list form_row))
    (resp : option (list response_row)) : spreadsheet :=
  {| fileName := fileName sheet; tabResponses := resp; tabFormResponses1 := form |}.

(** ** replaceEmailInSheet (lines 424-472) *)

Definition replaceEmailInSheet (newEmail oldEmail : string) (sheet : spreadsheet)
    : spreadsheet * result unit :=
  match tabFormResponses1 sheet with
  | None => (sheet, Threw TypeError)
  | Some form =>
      let form' := replaceLoop formC setFormC newEmail oldEmail form in
      match tabResponses sheet with
      | None => (with_tabs sheet (Some form') None, Threw TypeError)
      | Some resp =>
          let resp' := replaceLoop colB setColB newEmail oldEmail resp in
          (with_tabs sheet (Some form') (Some resp'), Returned tt)
      end
  end.

(** ** replaceNameInSheet (lines 530-579) *)

Definition replaceNameInSheet (newName oldName : string) (sheet : spreadsheet)
    : spreadsheet * result unit :=
  let oldNameLower := toLowerCase oldName in
  match tabFormResponses1 sheet with
  | None => (sheet, Threw TypeError)
  | Some form =>
      let form' := replaceLoop formB setFormB newName oldNameLower form in
      match tabResponses sheet with
      | None => (with_tabs sheet (Some form') None, Threw TypeError)
      | Some resp =>
          let resp' := replaceLoop colA setColA newName oldNameLower resp in
          (with_tabs sheet (Some form') (Some resp'), Returned tt)
      end
  end.

(** ** deleteNameInSheet (lines 637-688) *)

(** Each loop ends at the first blank name, which it meets at the latest one
    row after the last row of the tab. *)
Definition deleteNameInSheet (delEmail delName : string) (sheet : spreadsheet)
    : spreadsheet * result unit :=
  match tabFormResponses1 sheet with
  | None => (sheet, Threw TypeError)
  | Some form =>
      match deleteLoop blank_form formB formC (S (length form)) 2 delEmail delName form with
      | None => (sheet, OutOfModel)
      | Some form' =>
          match tabResponses sheet with
          | None => (with_tabs sheet (Some form') None, Threw TypeError)
          | Some resp =>
              match deleteLoop blank_response colA colB (S (length resp)) 2
                      delEmail delName resp with
              | None => (with_tabs sheet (Some form') (Some resp), OutOfModel)
              | Some resp' => (with_tabs sheet (Some form') (Some resp'), Returned tt)
              end
          end
      end
  end.

(** ** The walk over the folder shared by fixEmail, fixName and deleteName *)

Fixpoint forEachSheet (f : spreadsheet -> spreadsheet * result unit)
    (sheets : list spreadsheet) : list spreadsheet * result unit :=
  match sheets with
  | [] => ([], Returned tt)
  | sheet :: rest =>
      let (sheet', r) := f sheet in
      match r with
      | Returned _ =>
          let (rest', r') := forEachSheet f rest in (sheet' :: rest', r')
      | Threw e => (sheet' :: rest, Threw e)
      | OutOfModel => (sheet' :: rest, OutOfModel)
      end
  end.

Fixpoint forEachSubfolder (f : spreadsheet -> spreadsheet * result unit)
    (subs : list (list spreadsheet)) : list (list spreadsheet) * result unit :=
  match subs with
  | [] => ([], Returned tt)
  | sheets :: rest =>
      let (sheets', r) := forEachSheet f sheets in
      match r with
      | Returned _ =>
          let (rest', r') := forEachSubfolder f rest in (sheets' :: rest', r')
      | Threw e => (sheets' :: rest, Threw e)
      | OutOfModel => (sheets' :: rest, OutOfModel)
      end
  end.

Definition inAllSheets (f : spreadsheet -> spreadsheet * result unit) : action unit :=
  fun w =>
    let folder := SHEETS_FOLDER w in
    let (files', r) := forEachSheet f (files folder) in
    match r with
    | Returned _ =>
        let (subs', r') := forEachSubfolder f (subfolders folder) in
        (with_SHEETS_FOLDER w {| files := files'; subfolders := subs' |}, r')
    | Threw e =>
        (with_SHEETS_FOLDER w {| files := files'; subfolders := subfolders folder |},
         Threw e)
    | OutOfModel =>
        (with_SHEETS_FOLDER w {| files := files'; subfolders := subfolders folder |},
         OutOfModel)
    end.

Definition onPanel (f : control_panel -> control_panel) : action unit :=
  fun w => (with_SHEET w (f (SHEET w)), Returned tt).

Definition EMPTY_FIELD : string := "One of the fields is empty".

Section Script.

(** [memberSheet.sort(1)] (line 321) reorders the rows of the ledger by
    column A; the order is the spreadsheet's own.  Lines 323-329 hide column
    C and stamp cell A1 with the time of the run; neither touches the rows
    from row 3 on. *)
Variable sheet_sort : list member_row -> list member_row.

Definition updateMemberPoints : action unit :=
  fun w =>
    let cleared := clearLedger (memberSheet w) in
    match aggregate (SHEETS_FOLDER w) with
    | Returned rows =>
        (with_memberSheet w (sheet_sort (writeRows rows cleared)), Returned tt)
    | Threw e => (with_memberSheet w cleared, Threw e)
    | OutOfModel => (with_memberSheet w cleared, OutOfModel)
    end.

(** fixEmail (lines 375-421) *)
Definition fixEmail : action unit :=
  fun w =>
    let oldEmail := toLowerCase (getValue (SHEET w) OLD_EMAIL_CELL) in
    let newEmail := toLowerCase (getValue (SHEET w) NEW_EMAIL_CELL) in
    if ((oldEmail =? "")%string || (newEmail =? "")%string)%bool
    then onPanel (fun p => setFontColor EMAIL_ERROR_CELL "red"
                             (setValue EMAIL_ERROR_CELL EMPTY_FIELD p)) w
    else (inAllSheets (replaceEmailInSheet newEmail oldEmail) >>>
          updateMemberPoints >>>
          onPanel (setValue OLD_EMAIL_CELL "") >>>
          onPanel (setValue NEW_EMAIL_CELL "")) w.

(** fixName (lines 480-527) *)
Definition fixName : action unit :=
  fun w =>
    let oldName := getValue (SHEET w) OLD_NAME_CELL in
    let newName := getValue (SHEET w) NEW_NAME_CELL in
    if ((oldName =? "")%string || (newName =? "")%string)%bool
    then onPanel (fun p => setFontColor NAME_ERROR_CELL "red"
                             (setValue NAME_ERROR_CELL EMPTY_FIELD p)) w
    else (inAllSheets (replaceNameInSheet newName oldName) >>>
          updateMemberPoints >>>
          onPanel (setValue OLD_NAME_CELL "") >>>
          onPanel (setValue NEW_NAME_CELL "")) w.

(** deleteName (lines 587-633) *)
Definition deleteName : action unit :=
  fun w =>
    let delName := toLowerCase (getValue (SHEET w) DEL_NAME_CELL) in
    let delEmail := toLowerCase (getValue (SHEET w) DEL_EMAIL_CELL) in
    if ((delName =? "")%string || (delEmail =? "")%string)%bool
    then onPanel (fun p => setFontColor DEL_ERROR_CELL "red"
                             (setValue DEL_ERROR_CELL EMPTY_FIELD p)) w
    else (inAllSheets (deleteNameInSheet delEmail delName) >>>
          updateMemberPoints >>>
          onPanel (setValue DEL_NAME_CELL "") >>>
          onPanel (setValue DEL_EMAIL_CELL "")) w.

End Script.

(** ** getNameFromSheet (lines 798-843) *)

(** [Number(cell)]: a blank cell counts 0. *)
Definition Number (cell : option Z) : Z :=
  match cell with
  | Some n => n
  | None => 0
  end.

Fixpoint nameLoop (user file : string) (defaultCell : option Z)
    (rows : list response_row) : option (string * Z) :=
  match rows with
  | [] => None
  | r :: rest =>
      let name := toLowerCase (colA r) in
      if (name =? "")%string then None
      else if (user =? name)%string then
        let point := Number (colD r) + Number defaultCell in
        let event :=
          if point =? 1
          then (split0 " Member Sheet" file ++ " - " ++ String_of point
                  ++ " Member Point")%string
          else (split0 " Member Sheet" file ++ " - " ++ String_of point
                  ++ " Member Points")%string in
        Some (event, point)
      else nameLoop user file defaultCell rest
  end.

(** [None] is the script's [undefined]: the loop ended without a [return]. *)
Definition getNameFromSheet (user : string) (sheet : spreadsheet)
    : result (option (string * Z)) :=
  match tabResponses sheet with
  | None => Threw TypeError
  | Some rows => Returned (nameLoop user (fileName sheet) (F2 rows) rows)
  end.

(** ** findUser (lines 696-795) *)

Record found : Type := {
  events : string;
  memberPoints : Z;
  numEvents : nat
}.

(** Lines 719-732: the files of the folder itself.  [events + nextEvent]
    appends the pair as text, that is label, comma, points. *)
Fixpoint findInFiles (user : string) (sheets : list spreadsheet) (acc : found)
    : result found :=
  match sheets with
  | [] => Returned acc
  | sheet :: rest =>
      nextEvent <- getNameFromSheet user sheet ;;
      match nextEvent with
      | Some (event, point) =>
          findInFiles user rest
            {| events := (events acc ++ (event ++ "," ++ String_of point)
                            ++ newline)%string;
               memberPoints := memberPoints acc + point;
               numEvents := S (numEvents acc) |}
      | None => findInFiles user rest acc
      end
  end.

(** Lines 743-755: the files of one subfolder. *)
Fixpoint findInSubfolder (user : string) (sheets : list spreadsheet) (acc : found)
    : result found :=
  match sheets with
  | [] => Returned acc
  | sheet :: rest =>
      nextEvent <- getNameFromSheet user sheet ;;
      match nextEvent with
      | Some (event, point) =>
          findInSubfolder user rest
            {| events := (events acc ++ event ++ newline)%string;
               memberPoints := memberPoints acc + point;
               numEvents := S (numEvents acc) |}
      | None => findInSubfolder user rest acc
      end
  end.

Fixpoint findInSubfolders (user : string) (subs : list (list spreadsheet))
    (acc : found) : result found :=
  match subs with
  | [] => Returned acc
  | sheets :: rest =>
      acc' <- findInSubfolder user sheets acc ;;
      findInSubfolders user rest acc'
  end.

(** Lines 715-756: what the two walks leave in [events], [memberPoints] and
    [numEvents]. *)
Definition findScan (user : string) (folder : sheets_folder) : result found :=
  acc <- findInFiles user (files folder)
           {| events := ""; memberPoints := 0; numEvents := 0 |} ;;
  findInSubfolders user (subfolders folder) acc.

Definition NO_NAME : string := "Please enter a member's full name".

Definition findUser : action unit :=
  fun w =>
    let user := toLowerCase (getValue (SHEET w) FIND_USER_CELL) in
    if (user =? "")%string
    then onPanel (setValue FIND_USER_CELL NO_NAME) w
    else
      let w1 := with_SHEET w (setValue USER_EVENTS_CELL "" (SHEET w)) in
      match findScan user (SHEETS_FOLDER w1) with
      | Threw e => (w1, Threw e)
      | OutOfModel => (w1, OutOfModel)
      | Returned f =>
          let text :=
            if (events f =? "")%string
            then ("No Attendance Record Found For " ++ toUpperCase user)%string
            else ("Attendance Records For " ++ toUpperCase user ++ " ("
                    ++ String_of (memberPoints f) ++ " Member Points)"
                    ++ newline ++ newline ++ events f)%string in
          let size :=
            if (numEvents f <=? 20)%nat then 12
            else if ((numEvents f <=? 30) && (20 <? numEvents f))%nat then 10
            else if ((numEvents f <=? 40) && (30 <? numEvents f))%nat then 8
            else 7 in
          (with_SHEET w1
             (setValue FIND_USER_CELL ""
                (setFontSize USER_EVENTS_CELL size
                   (setValue USER_EVENTS_CELL text (SHEET w1)))),
           Returned tt)
      end.

(** ** What the properties below are stated with *)

(** The attendance records of a tab as [getResponsesFromEvent] meets them:
    the rows before the first one with a blank email. *)
Fixpoint records (rows : list response_row) : list response_row :=
  match rows with
  | [] => []
  | r :: rest => if (colB r =? "")%string then [] else r :: records rest
  end.

Definition recordsOf (sheet : spreadsheet) : list response_row :=
  match tabResponses sheet with
  | Some rows => records rows
  | None => []
  end.

(** The event's default points; a tab without rows has none to give. *)
Definition defaultPointsOf (sheet : spreadsheet) : Z :=
  match tabResponses sheet with
  | Some rows => Number (F2 rows)
  | None => 0
  end.

(** [defaultPoints + bonusPoints], a missing bonus counting 0. *)
Definition recordPoints (sheet : spreadsheet) (r : response_row) : Z :=
  defaultPointsOf sheet + Number (colD r).

Definition email (r : response_row) : string := toLowerCase (colB r).

(** A source the aggregation can read: it has the tab "Responses" and, when
    the tab holds a record, a number in F2. *)
Definition readable (sheet : spreadsheet) : bool :=
  match tabResponses sheet with
  | Some rows =>
      match records rows, F2 rows with
      | _ :: _, None => false
      | _, _ => true
      end
  | None => false
  end.

Definition sumZ (l : list Z) : Z := fold_right Z.add 0 l.

(** The total in column B of a ledger row. *)
Definition totalPoints (r : member_row) : Z := Number (cellB r).

(** A text without capital letters. *)
Definition isCapital (c : ascii) : bool :=
  ((65 <=? nat_of_ascii c) && (nat_of_ascii c <=? 90))%nat.

Fixpoint noCapital (s : string) : bool :=
  match s with
  | EmptyString => true
  | String c s' => negb (isCapital c) && noCapital s'
  end.

(** The last record of a list that carries the email [e]. *)
Definition lastRecord (recs : list response_row) (e : string) : option response_row :=
  find (fun r => (email r =? e)%string) (rev recs).

(** What a source says about the email [e]: the name and the points of its
    last record for [e]. *)
Definition sourceName (sheet : spreadsheet) (e : string) : option string :=
  option_map colA (lastRecord (recordsOf sheet) e).

Definition sourcePoints (sheet : spreadsheet) (e : string) : option Z :=
  option_map (recordPoints sheet) (lastRecord (recordsOf sheet) e).

(** The records of a source that are the last of their email there. *)
Fixpoint counted (recs : list response_row) : list response_row :=
  match recs with
  | [] => []
  | r :: rest =>
      if existsb (fun r' => (email r' =? email r)%string) rest
      then counted rest
      else r :: counted rest
  end.

(** A response set whose two objects have the same keys, each once. *)
Record synced (rs : response_set) : Prop := {
  same_keys : keys (names rs) = keys (points rs);
  keys_once : NoDup (keys (names rs))
}.

(** A response set says of every email what the source says. *)
Record describes (info : response_set) (sheet : spreadsheet) : Prop := {
  says_name : forall e, get (names info) e = sourceName sheet e;
  says_points : forall e, get (points info) e = sourcePoints sheet e;
  is_synced : synced info
}.

(** The first answer there is. *)
Definition orElse {A : Type} (a b : option A) : option A :=
  match a with
  | Some x => Some x
  | None => b
  end.

(** The sum of the answers there are. *)
Definition addPoints (a b : option Z) : option Z :=
  match a, b with
  | Some x, Some y => Some (x + y)
  | Some x, None => Some x
  | None, y => y
  end.

(** Over sources in the order the run reads them: the name the first source
    that knows [e] gives, and the sum of the points the sources give. *)
Definition firstName (sheets : list spreadsheet) (e : string) : option string :=
  fold_left (fun acc s => orElse acc (sourceName s e)) sheets None.

Definition sumPoints (sheets : list spreadsheet) (e : string) : option Z :=
  fold_left (fun acc s => addPoints acc (sourcePoints s e)) sheets None.

(** What a source adds to the ledger. *)
Definition sourceTotal (sheet : spreadsheet) : Z :=
  sumZ (map (recordPoints sheet) (counted (recordsOf sheet))).

(** An answer that holds for the properties of [props] only. *)
Definition among {A : Type} (props : list string) (e : string) (a : option A)
    : option A :=
  if in_dec string_dec e props then a else None.

(** The display name and the total a response set holds for an email. *)
Definition nameIn (rs : response_set) (e : string) : string :=
  match get (names rs) e with
  | Some n => n
  | None => ""
  end.

Definition totalIn (rs : response_set) (e : string) : Z :=
  Number (get (points rs) e).

(** The maximum the rows loop ends with: it starts from 0. *)
Definition runMax (rs : response_set) : Z :=
  fold_left Z.max (map (totalIn rs) (keys (names rs))) 0.

(** The background a row is left with once the top rows are restyled. *)
Definition finalColor (max total : Z) : string :=
  if ((15 <=? max) && (total =? max))%bool
  then MOST_INVOLVED_MEMBER_COLOR
  else tierColor total.

Definition ledgerRow (rs : response_set) (max : Z) (e : string) : member_row :=
  {| cellA := nameIn rs e;
     cellB := Some (totalIn rs e);
     cellC := e;
     background := finalColor max (totalIn rs e) |}.

(** The row as the rows loop writes it, before the top rows are restyled. *)
Definition plainRow (rs : response_set) (e : string) : member_row :=
  {| cellA := nameIn rs e;
     cellB := Some (totalIn rs e);
     cellC := e;
     background := tierColor (totalIn rs e) |}.

(** A folder the aggregation can work on: at least one source, and every
    source readable. *)
Definition aggregable (folder : sheets_folder) : bool :=
  match sheetIds folder with
  | [] => false
  | _ :: _ => forallb readable (sheetIds folder)
  end.

(** The run ends normally and leaves [rows] in the ledger sheet: written
    over the cleared sheet from row 3 on, then sorted. *)
Definition writesLedger (sheet_sort : list member_row -> list member_row)
    (w : world) (rows : list member_row) : Prop :=
  aggregate (SHEETS_FOLDER w) = Returned rows /\
  updateMemberPoints sheet_sort w =
  (with_memberSheet w (sheet_sort (writeRows rows (clearLedger (memberSheet w)))),
   Returned tt).

(** Conservation as spec.md words it: the totals of the ledger add up to the
    points of every record of every source. *)
Definition allRecordPoints (folder : sheets_folder) : Z :=
  sumZ (map (fun s => sumZ (map (recordPoints s) (recordsOf s))) (sheetIds folder)).

Definition conserves (folder : sheets_folder) (rows : list member_row) : Prop :=
  sumZ (map totalPoints rows) = allRecordPoints folder.

(** The first-seen rule as spec.md words it, whether the repeat is in another
    source or in the same one: the row of an email carries the name of the
    first record met with that email and the points of all of them. *)
Definition recordsAsRead (folder : sheets_folder) : list (spreadsheet * response_row) :=
  flat_map (fun s => map (pair s) (recordsOf s)) (popOrder (sheetIds folder)).

Definition firstSeenName (folder : sheets_folder) (e : string) : option string :=
  option_map (fun sr => colA (snd sr))
    (find (fun sr => (email (snd sr) =? e)%string) (recordsAsRead folder)).

Definition allPoints (folder : sheets_folder) (e : string) : Z :=
  sumZ (map (fun sr => recordPoints (fst sr) (snd sr))
          (filter (fun sr => (email (snd sr) =? e)%string) (recordsAsRead folder))).

Definition firstSeenWins (folder : sheets_folder) (rows : list member_row) : Prop :=
  forall r, In r rows ->
    firstSeenName folder (cellC r) = Some (cellA r) /\
    cellB r = Some (allPoints folder (cellC r)).

(** The rows of a ledger that carry the email [e]. *)
Definition rowsOf (e : string) (rows : list member_row) : list member_row :=
  filter (fun r => (cellC r =? e)%string) rows.

(** Two ledgers with the same set of entries. *)
Definition sameLedger (rows1 rows2 : list member_row) : Prop :=
  Permutation rows1 rows2.

(** A ledger row without its name: email, total and tier. *)
Definition withoutName (r : member_row) : string * option Z * string :=
  (cellC r, cellB r, background r).

(** Records with the same normalized email carry the same name. *)
Definition oneNamePerEmail (ids : list spreadsheet) : Prop :=
  forall s s' rec rec',
    In s ids -> In s' ids ->
    In rec (recordsOf s) -> In rec' (recordsOf s') ->
    email rec = email rec' -> colA rec = colA rec'.

(** Atomicity as spec.md words it: the run that fails leaves the ledger as
    it was. *)
Definition leavesLedgerUntouched (sheet_sort : list member_row -> list member_row)
    (w : world) : Prop :=
  (exists e, snd (updateMemberPoints sheet_sort w) = Threw e) /\
  memberSheet (fst (updateMemberPoints sheet_sort w)) = memberSheet w.

(** A correction that was turned down: it returned, touched neither the
    sources nor the ledger, and left the message in red in its error cell,
    every other cell of the panel being as before. *)
Definition rejectedWith (out : world * result unit) (errorCell : string) (w : world)
    : Prop :=
  snd out = Returned tt /\
  SHEETS_FOLDER (fst out) = SHEETS_FOLDER w /\
  memberSheet (fst out) = memberSheet w /\
  getValue (SHEET (fst out)) errorCell = EMPTY_FIELD /\
  fontColor (getCell (SHEET (fst out)) errorCell) = "red" /\
  forall a1, a1 <> errorCell -> getCell (SHEET (fst out)) a1 = getCell (SHEET w) a1.

(** Validation as spec.md words it for an old email equal to the new one:
    an error is reported and nothing is written. *)
Definition turnedDown (out : world * result unit) (errorCell : string) (w : world)
    : Prop :=
  SHEETS_FOLDER (fst out) = SHEETS_FOLDER w /\
  memberSheet (fst out) = memberSheet w /\
  getValue (SHEET (fst out)) errorCell <> "".

(** The rows [getNameFromSheet] can meet: those before the first blank name. *)
Fixpoint namedRows (rows : list response_row) : list response_row :=
  match rows with
  | [] => []
  | r :: rest => if (colA r =? "")%string then [] else r :: namedRows rest
  end.

Definition namedRowsOf (sheet : spreadsheet) : list response_row :=
  match tabResponses sheet with
  | Some rows => namedRows rows
  | None => []
  end.

Definition isNamed (user : string) (r : response_row) : bool :=
  (user =? toLowerCase (colA r))%string.

(** Lookup completeness as spec.md words it: one entry, with its points, for
    each matching record of each source. *)
Definition matchingPoints (user : string) (ids : list spreadsheet) : list Z :=
  flat_map (fun s => map (recordPoints s) (filter (isNamed user) (namedRowsOf s))) ids.

Definition lookupComplete (user : string) (folder : sheets_folder) (f : found) : Prop :=
  numEvents f = length (matchingPoints user (sheetIds folder)) /\
  memberPoints f = sumZ (matchingPoints user (sheetIds folder)).

(** One entry for each source with a matching record: the points of the
    first such record. *)
Definition firstMatch (user : string) (sheet : spreadsheet) : option response_row :=
  find (isNamed user) (namedRowsOf sheet).

Definition attendedPoints (user : string) (ids : list spreadsheet) : list Z :=
  flat_map (fun s => match firstMatch user s with
                     | Some r => [recordPoints s r]
                     | None => []
                     end) ids.

(** What a walk over [sheets] adds to the counters it starts from. *)
Definition advanced (user : string) (sheets : list spreadsheet) (acc acc' : found)
    : Prop :=
  numEvents acc' = (numEvents acc + length (attendedPoints user sheets))%nat /\
  memberPoints acc' = memberPoints acc + sumZ (attendedPoints user sheets) /\
  (attendedPoints user sheets = [] -> events acc' = events acc).

(** A record after the email [old] was corrected into [new]. *)
Definition correctedRecord (new old : string) (r : response_row) : response_row :=
  if (email r =? old)%string then setColB new r else r.

(** A file with the two tabs the corrections go through. *)
Definition hasBothTabs (sheet : spreadsheet) : bool :=
  match tabFormResponses1 sheet, tabResponses sheet with
  | Some _, Some _ => true
  | _, _ => false
  end.

(** ** Sample data *)

(** An example of [sheet_sort], for runs on explicit data: insertion sort on
    column A in code-point order, blank names last. *)
Definition rowBefore (r1 r2 : member_row) : bool :=
  if (cellA r2 =? "")%string then true
  else if (cellA r1 =? "")%string then false
  else String.leb (cellA r1) (cellA r2).

Fixpoint insertRow (r : member_row) (sorted : list member_row) : list member_row :=
  match sorted with
  | [] => [r]
  | r' :: rest => if rowBefore r r' then r :: sorted else r' :: insertRow r rest
  end.

Definition sortByColumnA (rows : list member_row) : list member_row :=
  fold_right insertRow [] rows.

Definition signIn (name address : string) (bonus default : option Z) : response_row :=
  {| colA := name; colB := address; colD := bonus; colF := default |}.

Definition galaSheet : spreadsheet :=
  {| fileName := "Gala Member Sheet";
     tabResponses :=
       Some [signIn "Ann Lee" "Ann@x.com" (Some 13) (Some 2);
             signIn "Bob Smith" "bob@x.com" None None];
     tabFormResponses1 :=
       Some [{| formB := "Ann Lee"; formC := "Ann@x.com" |};
             {| formB := "Bob Smith"; formC := "bob@x.com" |}] |}.

Definition picnicSheet : spreadsheet :=
  {| fileName := "Picnic Member Sheet";
     tabResponses :=
       Some [signIn "Cid Roy" "cid@x.com" (Some 14) (Some 1);
             signIn "Dee Poe" "dee@x.com" (Some 2) None];
     tabFormResponses1 :=
       Some [{| formB := "Cid Roy"; formC := "cid@x.com" |};
             {| formB := "Dee Poe"; formC := "dee@x.com" |}] |}.

Definition demoFolder : sheets_folder :=
  {| files := [galaSheet]; subfolders := [[picnicSheet]] |}.

Definition demoWorld : world :=
  {| SHEET := []; SHEETS_FOLDER := demoFolder; memberSheet := [] |}.

(** One event where Eve signed in twice. *)
Definition twiceSheet : spreadsheet :=
  {| fileName := "Bake Sale Member Sheet";
     tabResponses :=
       Some [signIn "Eve Fox" "eve@x.com" None (Some 1);
             signIn "Eve F." "EVE@x.com" (Some 2) None];
     tabFormResponses1 :=
       Some [{| formB := "Eve Fox"; formC := "eve@x.com" |};
             {| formB := "Eve F."; formC := "EVE@x.com" |}] |}.

Definition twiceWorld : world :=
  {| SHEET := [];
     SHEETS_FOLDER := {| files := [twiceSheet]; subfolders := [] |};
     memberSheet := [] |}.

(** Two events Ann signed in to, under two spellings of her name. *)
Definition annGala : spreadsheet :=
  {| fileName := "Gala Member Sheet";
     tabResponses := Some [signIn "Ann Lee" "ann@x.com" None (Some 2)];
     tabFormResponses1 := Some [{| formB := "Ann Lee"; formC := "ann@x.com" |}] |}.

Definition annPicnic : spreadsheet :=
  {| fileName := "Picnic Member Sheet";
     tabResponses := Some [signIn "ANN B. LEE" "Ann@X.com" (Some 1) (Some 3)];
     tabFormResponses1 := Some [{| formB := "ANN B. LEE"; formC := "Ann@X.com" |}] |}.

Definition annWorld : world :=
  {| SHEET := [];
     SHEETS_FOLDER := {| files := [annGala; annPicnic]; subfolders := [] |};
     memberSheet := [] |}.

Definition annWorldSwapped : world :=
  {| SHEET := [];
     SHEETS_FOLDER := {| files := [annPicnic; annGala]; subfolders := [] |};
     memberSheet := [] |}.

Definition demoWorldSwapped : world :=
  {| SHEET := [];
     SHEETS_FOLDER := {| files := [picnicSheet]; subfolders := [[galaSheet]] |};
     memberSheet := [] |}.

(** A file without the tab "Responses", and a ledger sheet left by an
    earlier run. *)
Definition brokenSheet : spreadsheet :=
  {| fileName := "Raffle Member Sheet";
     tabResponses := None;
     tabFormResponses1 := Some [] |}.

Definition brokenWorld : world :=
  {| SHEET := [];
     SHEETS_FOLDER := {| files := [galaSheet]; subfolders := [[brokenSheet]] |};
     memberSheet :=
       [{| cellA := "Ann Lee"; cellB := Some 15; cellC := "ann@x.com";
           background := MOST_INVOLVED_MEMBER_COLOR |};
        {| cellA := "Bob Smith"; cellB := Some 2; cellC := "bob@x.com";
           background := DEFAULT_MEMBER_COLOR |}] |}.

(** The panel asks to correct "ann@x.com" into "ann@x.com". *)
Definition sameEmailWorld : world :=
  {| SHEET := setValue NEW_EMAIL_CELL "ann@x.com"
                (setValue OLD_EMAIL_CELL "ann@x.com" []);
     SHEETS_FOLDER := {| files := [annGala; annPicnic]; subfolders := [] |};
     memberSheet := [] |}.

(** Carol's events: twice on the list of the quiz, not at the hike, once at
    the fair and at the bingo. *)
Definition quizSheet : spreadsheet :=
  {| fileName := "Quiz Member Sheet";
     tabResponses :=
       Some [signIn "Carol Lee" "carol@x.com" None (Some 1);
             signIn "CAROL LEE" "carol.lee@y.org" None None];
     tabFormResponses1 := Some [] |}.

Definition hikeSheet : spreadsheet :=
  {| fileName := "Hike Member Sheet";
     tabResponses := Some [signIn "Bob Smith" "bob@x.com" None (Some 4)];
     tabFormResponses1 := Some [] |}.

Definition fairSheet : spreadsheet :=
  {| fileName := "Fair Member Sheet";
     tabResponses :=
       Some [signIn "Bob Smith" "bob@x.com" None (Some 1);
             signIn "carol lee" "carol@x.com" (Some 1) None];
     tabFormResponses1 := Some [] |}.

Definition quizFolder : sheets_folder :=
  {| files := [quizSheet]; subfolders := [] |}.

Definition bingoSheet : spreadsheet :=
  {| fileName := "Bingo Member Sheet";
     tabResponses := Some [signIn "Carol Lee" "carol@x.com" None (Some 1)];
     tabFormResponses1 := Some [] |}.

Definition carolFolder : sheets_folder :=
  {| files := [hikeSheet]; subfolders := [[fairSheet]; [bingoSheet]] |}.

(** Alice under two emails: 2 points at the tea, 1 + 3 at the run and the
    swim; the panel asks to correct the first email into the second. *)
Definition teaSheet : spreadsheet :=
  {| fileName := "Tea Member Sheet";
     tabResponses := Some [signIn "Alice Ray" "Alice@x.com" None (Some 2)];
     tabFormResponses1 := Some [{| formB := "Alice Ray"; formC := "Alice@x.com" |}] |}.

Definition runSheet : spreadsheet :=
  {| fileName := "Run Member Sheet";
     tabResponses := Some [signIn "Alice Ray" "alice2@x.com" None (Some 1)];
     tabFormResponses1 := Some [{| formB := "Alice Ray"; formC := "alice2@x.com" |}] |}.

Definition swimSheet : spreadsheet :=
  {| fileName := "Swim Member Sheet";
     tabResponses := Some [signIn "Alice Ray" "alice2@x.com" (Some 2) (Some 1)];
     tabFormResponses1 := Some [{| formB := "Alice Ray"; formC := "alice2@x.com" |}] |}.

Definition aliceWorld : world :=
  {| SHEET := setValue NEW_EMAIL_CELL "alice2@x.com"
                (setValue OLD_EMAIL_CELL "alice@x.com" []);
     SHEETS_FOLDER := {| files := [teaSheet; runSheet]; subfolders := [[swimSheet]] |};
     memberSheet := [] |}.

(** Bob twice in a row on the list of the raffle, after Ann; the panel asks
    to delete him. *)
Definition raffleSheet : spreadsheet :=
  {| fileName := "Raffle Member Sheet";
     tabResponses :=
       Some [signIn "Ann Lee" "ann@x.com" None (Some 1);
             signIn "Bob Smith" "bob@x.com" None None;
             signIn "Bob Smith" "bob@x.com" (Some 1) None];
     tabFormResponses1 :=
       Some [{| formB := "Ann Lee"; formC := "ann@x.com" |};
             {| formB := "Bob Smith"; formC := "bob@x.com" |};
             {| formB := "Bob Smith"; formC := "bob@x.com" |}] |}.

Definition bobWorld : world :=
  {| SHEET := setValue DEL_EMAIL_CELL "bob@x.com"
                (setValue DEL_NAME_CELL "Bob Smith" []);
     SHEETS_FOLDER := {| files := [raffleSheet]; subfolders := [] |};
     memberSheet := [] |}.

(** Bob first on the list of the tombola, where only F2 holds the default
    points; the panel asks to delete him. *)
Definition tombolaSheet : spreadsheet :=
  {| fileName := "Tombola Member Sheet";
     tabResponses :=
       Some [signIn "Bob Smith" "bob@x.com" None (Some 1);
             signIn "Bob Smith" "robert@y.org" None None];
     tabFormResponses1 :=
       Some [{| formB := "Bob Smith"; formC := "bob@x.com" |};
             {| formB := "Bob Smith"; formC := "robert@y.org" |}] |}.

Definition tombolaWorld : world :=
  {| SHEET := setValue DEL_EMAIL_CELL "bob@x.com"
                (setValue DEL_NAME_CELL "Bob Smith" []);
     SHEETS_FOLDER := {| files := [tombolaSheet]; subfolders := [] |};
     memberSheet := [] |}.

(** ** More sample data *)

(** A folder without any spreadsheet, and the ledger sheet of an earlier
    run. *)
Definition emptyWorld : world :=
  {| SHEET := [];
     SHEETS_FOLDER := {| files := []; subfolders := [[]] |};
     memberSheet :=
       [{| cellA := "Ann Lee"; cellB := Some 15; cellC := "ann@x.com";
           background := MOST_INVOLVED_MEMBER_COLOR |}] |}.

(** Ann's two events, run over a ledger sheet that listed three members. *)
Definition shrunkWorld : world :=
  {| SHEET := [];
     SHEETS_FOLDER := {| files := [annGala; annPicnic]; subfolders := [] |};
     memberSheet :=
       [{| cellA := "Ann Lee"; cellB := Some 6; cellC := "ann@x.com";
           background := ACTIVE_MEMBER_COLOR |};
        {| cellA := "Bob Smith"; cellB := Some 2; cellC := "bob@x.com";
           background := DEFAULT_MEMBER_COLOR |};
        {| cellA := "Cid Roy"; cellB := Some 15; cellC := "cid@x.com";
           background := MOST_INVOLVED_MEMBER_COLOR |}] |}.

(** ** What the further properties are stated with *)

(** The last record of a list that carries one of two emails. *)
Definition lastOfEither (recs : list response_row) (a b : string) : option response_row :=
  find (fun r => ((email r =? a) || (email r =? b))%string%bool) (rev recs).

Definition eitherPoints (sheet : spreadsheet) (a b : string) : option Z :=
  option_map (recordPoints sheet) (lastOfEither (recordsOf sheet) a b).

(** A ledger row moved from the email [a] to the email [b]. *)
Definition relabel (a b : string) (r : member_row) : member_row :=
  if (cellC r =? a)%string
  then {| cellA := cellA r; cellB := cellB r; cellC := b; background := background r |}
  else r.

(** Name and total of a ledger row. *)
Definition nameAndTotal (r : member_row) : string * option Z := (cellA r, cellB r).

(** One event where Alice signed in under both of her emails, another with
    Bob; the panel asks to correct Alice's first email into the second. *)
Definition bothSheet : spreadsheet :=
  {| fileName := "Tea Member Sheet";
     tabResponses :=
       Some [signIn "Alice Ray" "alice@x.com" None (Some 2);
             signIn "Alice Ray" "alice2@x.com" (Some 1) None];
     tabFormResponses1 :=
       Some [{| formB := "Alice Ray"; formC := "alice@x.com" |};
             {| formB := "Alice Ray"; formC := "alice2@x.com" |}] |}.

Definition bothWorld : world :=
  {| SHEET := setValue NEW_EMAIL_CELL "alice2@x.com"
                (setValue OLD_EMAIL_CELL "alice@x.com" []);
     SHEETS_FOLDER := {| files := [bothSheet]; subfolders := [[hikeSheet]] |};
     memberSheet := [] |}.

(** Ann's two events; the panel asks to correct her email into a new one. *)
Definition movedWorld : world :=
  {| SHEET := setValue NEW_EMAIL_CELL "Ann.Lee@y.org"
                (setValue OLD_EMAIL_CELL "ANN@x.com" []);
     SHEETS_FOLDER := {| files := [annGala; annPicnic]; subfolders := [[hikeSheet]] |};
     memberSheet := [] |}.


(** Two rows of a Responses tab that differ in the name at most. *)
Definition sameButName (r r' : response_row) : Prop :=
  colB r' = colB r /\ colD r' = colD r /\ colF r' = colF r.

(** What [replaceNameInSheet] makes of a name it meets, and of the ledger
    row that shows it; [old] is the old name in lower case. *)
Definition renamedName (new old n : string) : string :=
  if (toLowerCase n =? old)%string then new else n.

Definition renamedRecord (new old : string) (r : response_row) : response_row :=
  if (toLowerCase (colA r) =? old)%string then setColA new r else r.

Definition renamedRow (new old : string) (r : member_row) : member_row :=
  {| cellA := renamedName new old (cellA r); cellB := cellB r; cellC := cellC r;
     background := background r |}.

(** Every record of the source carries a name. *)
Definition allNamed (sheet : spreadsheet) : Prop :=
  forall r, In r (recordsOf sheet) -> colA r <> "".

(** Ann's two events and Bob's; the panel asks to rename Ann. *)
Definition nameWorld : world :=
  {| SHEET := setValue NEW_NAME_CELL "Ann B. Lee"
                (setValue OLD_NAME_CELL "ANN LEE"
                   (setValue NAME_ERROR_CELL EMPTY_FIELD []));
     SHEETS_FOLDER := {| files := [annPicnic; annGala]; subfolders := [[hikeSheet]] |};
     memberSheet := [] |}.

(** An event whose first record has no name; the panel asks to rename Ann. *)
Definition gapSheet : spreadsheet :=
  {| fileName := "Quiz Member Sheet";
     tabResponses :=
       Some [signIn "" "cid@x.com" None (Some 2);
             signIn "Ann Lee" "ann@x.com" (Some 1) None];
     tabFormResponses1 :=
       Some [{| formB := "Ann Lee"; formC := "ann@x.com" |}] |}.

Definition gapWorld : world :=
  {| SHEET := setValue NEW_NAME_CELL "Ann B. Lee" (setValue OLD_NAME_CELL "Ann Lee" []);
     SHEETS_FOLDER := {| files := [gapSheet]; subfolders := [[annGala]] |};
     memberSheet := [] |}.

(** ** What the deletion properties are stated with *)

Section Deletion.

Context {R : Type}.
Variables nameOf emailOf : R -> string.
Variables delEmail delName : string.

(** The test of lines 657 and 680. *)
Definition matchesBoth (r : R) : bool :=
  ((toLowerCase (nameOf r) =? delName)%string
   && (toLowerCase (emailOf r) =? delEmail)%string)%bool.

(** The rows a loop of [deleteNameInSheet] leaves, read off the list: it
    ends at the first blank name it examines; a matching row goes, and the
    row after it, which moves up into its place, is passed over. *)
Fixpoint skipDelete (tab : list R) : list R :=
  match tab with
  | [] => []
  | r :: rest =>
      if (nameOf r =? "")%string then r :: rest
      else if matchesBoth r
           then match rest with
                | [] => []
                | r' :: rest' => r' :: skipDelete rest'
                end
           else r :: skipDelete rest
  end.

End Deletion.

(** Two rows in a row of which [p] holds. *)
Fixpoint twoInARow {R : Type} (p : R -> bool) (l : list R) : bool :=
  match l with
  | [] => false
  | r :: rest =>
      (p r && match rest with
              | [] => false
              | r' :: _ => p r'
              end)
      || twoInARow p rest
  end.

(** Bob twice on the list of the fair, Ann between his two records; the panel
    asks to delete him. *)
Definition spacedSheet : spreadsheet :=
  {| fileName := "Fair Member Sheet";
     tabResponses :=
       Some [signIn "Ann Lee" "ann@x.com" None (Some 1);
             signIn "Bob Smith" "bob@x.com" None None;
             signIn "Ann Lee" "ann@x.com" (Some 2) None;
             signIn "BOB SMITH" "Bob@x.com" (Some 1) None];
     tabFormResponses1 :=
       Some [{| formB := "Ann Lee"; formC := "ann@x.com" |};
             {| formB := "Bob Smith"; formC := "bob@x.com" |};
             {| formB := "Ann Lee"; formC := "ann@x.com" |};
             {| formB := "BOB SMITH"; formC := "Bob@x.com" |}] |}.

(** ** What the lookup properties are stated with *)

(** The label of an event on which the member got [point] points. *)
Definition eventLabel (file : string) (point : Z) : string :=
  (split0 " Member Sheet" file ++ " - " ++ String_of point
     ++ (if (point =? 1)%Z then " Member Point" else " Member Points"))%string.

(** The line of the breakdown for a file of the folder itself, and for a
    file of a subfolder; no line when the member is not on the list. *)
Definition fileLine (user : string) (sheet : spreadsheet) : string :=
  match firstMatch user sheet with
  | Some r =>
      let point := recordPoints sheet r in
      ((eventLabel (fileName sheet) point ++ "," ++ String_of point) ++ newline)%string
  | None => ""
  end.

Definition subfolderLine (user : string) (sheet : spreadsheet) : string :=
  match firstMatch user sheet with
  | Some r => (eventLabel (fileName sheet) (recordPoints sheet r) ++ newline)%string
  | None => ""
  end.

Definition linesOf (line : spreadsheet -> string) (sheets : list spreadsheet) : string :=
  fold_right (fun s rest => (line s ++ rest)%string) ""%string sheets.

Definition breakdown (user : string) (folder : sheets_folder) : string :=
  (linesOf (fileLine user) (files folder)
   ++ linesOf (subfolderLine user) (concat (subfolders folder)))%string.

(** The report and its font size. *)
Definition reportText (user : string) (folder : sheets_folder) : string :=
  match attendedPoints user (sheetIds folder) with
  | [] => ("No Attendance Record Found For " ++ toUpperCase user)%string
  | points =>
      ("Attendance Records For " ++ toUpperCase user ++ " ("
         ++ String_of (sumZ points) ++ " Member Points)"
         ++ newline ++ newline ++ breakdown user folder)%string
  end.

Definition reportSize (n : nat) : Z :=
  if (n <=? 20)%nat then 12
  else if (n <=? 30)%nat then 10
  else if (n <=? 40)%nat then 8
  else 7.

(** Carol at one event of the folder itself and at two events of its
    subfolders; the panel asks for her record and still shows an older one. *)
Definition lookupWorld : world :=
  {| SHEET := setValue FIND_USER_CELL "Carol Lee"
                (setValue USER_EVENTS_CELL "No Attendance Record Found For BOB" []);
     SHEETS_FOLDER :=
       {| files := [hikeSheet; quizSheet]; subfolders := [[fairSheet]; [bingoSheet]] |};
     memberSheet := [] |}.

(** The same folder with a file that has no Responses tab. *)
Definition tornLookupWorld : world :=
  {| SHEET := setValue FIND_USER_CELL "Carol Lee"
                (setValue USER_EVENTS_CELL "No Attendance Record Found For BOB" []);
     SHEETS_FOLDER :=
       {| files := [quizSheet; brokenSheet; hikeSheet]; subfolders := [[fairSheet]] |};
     memberSheet := [] |}.

(** The lookup field left blank. *)
Definition blankLookupWorld : world :=
  {| SHEET := [];
     SHEETS_FOLDER := {| files := [hikeSheet]; subfolders := [[fairSheet]] |};
     memberSheet := [] |}.

(** The panel filled in to take the correction of [movedWorld] back. *)
Definition undoPanel : control_panel :=
  setValue NEW_EMAIL_CELL "Ann@x.com" (setValue OLD_EMAIL_CELL "ann.lee@y.org" []).

(** ** createNewForm (lines 66-204) *)

(** What [getValues] hands over for a cell: text (the blank cell being
    [Text ""]), a number, a checkbox or a date. *)
Inductive cell_value : Type :=
| Text (s : string)
| Num (n : Z)
| Flag (b : bool)
| DateValue.

(** [!v] is false. *)
Definition truthy (v : cell_value) : bool :=
  match v with
  | Text s => negb (s =? "")%string
  | Num n => negb (n =? 0)
  | Flag b => b
  | DateValue => true
  end.

(** [typeof v === "string"] *)
Definition isString (v : cell_value) : bool :=
  match v with
  | Text _ => true
  | _ => false
  end.

(** [v == ""]: a number is compared with 0, a checkbox with [false]. *)
Definition looseBlank (v : cell_value) : bool :=
  match v with
  | Text s => (s =? "")%string
  | Num n => n =? 0
  | Flag b => negb b
  | DateValue => false
  end.

(** [v == s] for a text [s] that is not the text of a number. *)
Definition looseText (v : cell_value) (s : string) : bool :=
  match v with
  | Text t => (t =? s)%string
  | _ => false
  end.

Definition FORM_TEMPLATE_NAME : string := "Template Sign-In".
Definition SHEET_TEMPLATE_NAME : string := "Template Responses".
Definition FUND_FORM_TEMPLATE_NAME : string := "Fund Template Sign-In".
Definition FUND_SHEET_TEMPLATE_NAME : string := "Fund Template Responses".
Definition PHOTO_EV_SHEET_TEMPLATE_NAME : string := "Photo Ev Template Responses".

(** A file of the Templates folder: a spreadsheet, with or without the tab
    "Responses", a form, or something else. *)
Inductive file_kind : Type :=
| SpreadsheetFile (withResponses : bool)
| FormFile
| OtherFile.

Record drive_file : Type := {
  driveName : string;
  driveKind : file_kind
}.

(** The copies the script makes: the sheet of an event, and its form with the
    sheet it sends the responses to and the question added to it. *)
Record event_sheet : Type := {
  sheetName : string;
  sheetTemplate : drive_file
}.

Record event_form : Type := {
  formName : string;
  formTitle : string;
  formTemplate : drive_file;
  destination : event_sheet;
  addedItem : option (string * bool)
}.

(** The subfolders of "Sheets" and of "Forms", by name, in the order
    [getFoldersByName] meets them. *)
Definition month_folders (A : Type) : Type := list (string * list A).

(** Lines 140-157 and 163-179: the file goes into the first subfolder of
    that name, which is created when there is none. *)
Fixpoint moveTo {A : Type} (month : string) (file : A) (folders : month_folders A)
    : month_folders A :=
  match folders with
  | [] => [(month, [file])]
  | (name, content) :: rest =>
      if (name =? month)%string then (name, content ++ [file]) :: rest
      else (name, content) :: moveTo month file rest
  end.

(** Cells C4 to C11 and B3 of the control panel, the Templates folder and
    the two folders the copies go to. *)
Record studio : Type := {
  C4 : cell_value;
  C5 : cell_value;
  C6 : cell_value;
  C7 : cell_value;
  C8 : cell_value;
  C9 : cell_value;
  C10 : cell_value;
  C11 : cell_value;
  B3 : string;
  templateFiles : list drive_file;
  sheetFolders : month_folders event_sheet;
  formFolders : month_folders event_form
}.

Definition with_B3 (st : studio) (v : string) : studio :=
  {| C4 := C4 st; C5 := C5 st; C6 := C6 st; C7 := C7 st; C8 := C8 st; C9 := C9 st;
     C10 := C10 st; C11 := C11 st; B3 := v; templateFiles := templateFiles st;
     sheetFolders := sheetFolders st; formFolders := formFolders st |}.

Definition with_sheetFolders (st : studio) (f : month_folders event_sheet) : studio :=
  {| C4 := C4 st; C5 := C5 st; C6 := C6 st; C7 := C7 st; C8 := C8 st; C9 := C9 st;
     C10 := C10 st; C11 := C11 st; B3 := B3 st; templateFiles := templateFiles st;
     sheetFolders := f; formFolders := formFolders st |}.

Definition with_formFolders (st : studio) (f : month_folders event_form) : studio :=
  {| C4 := C4 st; C5 := C5 st; C6 := C6 st; C7 := C7 st; C8 := C8 st; C9 := C9 st;
     C10 := C10 st; C11 := C11 st; B3 := B3 st; templateFiles := templateFiles st;
     sheetFolders := sheetFolders st; formFolders := f |}.

(** Lines 199-200: [getRange(4, 3, 6, 1)] is C4:C9. *)
Definition resetForm (st : studio) : studio :=
  {| C4 := Text ""; C5 := Text ""; C6 := Text "Standard"; C7 := Text "";
     C8 := Text ""; C9 := Text ""; C10 := C10 st; C11 := C11 st; B3 := "";
     templateFiles := templateFiles st;
     sheetFolders := sheetFolders st; formFolders := formFolders st |}.

(** Lines 112-117: a later file of the same name takes the place of an
    earlier one. *)
Definition fileMapOf (files : list drive_file) : object drive_file :=
  fold_left (fun fileMap file => set fileMap (driveName file) file) files [].

(** Lines 119-134: the two templates of the event type, [None] being
    [undefined]. *)
Definition templatesFor (eventType : cell_value) (fileMap : object drive_file)
    : option drive_file * option drive_file :=
  if looseText eventType "Standard"
  then (get fileMap SHEET_TEMPLATE_NAME, get fileMap FORM_TEMPLATE_NAME)
  else if looseText eventType "Fundraising"
  then (get fileMap FUND_SHEET_TEMPLATE_NAME, get fileMap FUND_FORM_TEMPLATE_NAME)
  else if looseText eventType "Photo Evidence"
  then (get fileMap PHOTO_EV_SHEET_TEMPLATE_NAME, get fileMap FORM_TEMPLATE_NAME)
  else (None, None).

(** Lines 186-192: the text item, when a question was asked for.  A question
    that is not a text, or a requirement that is not a checkbox, is handed to
    the Forms service as it is: out of the model. *)
Definition questionItem (customQuestion isRequired : cell_value)
    : result (option (string * bool)) :=
  if truthy customQuestion
  then match customQuestion with
       | Text q =>
           if looseBlank isRequired then Returned (Some (q, false))
           else match isRequired with
                | Flag b => Returned (Some (q, b))
                | _ => OutOfModel
                end
       | _ => OutOfModel
       end
  else Returned None.

(** The state is the one reached when the script ends; where the embedding
    stops at [OutOfModel] it is the state before the call. *)
Definition createNewForm (st : studio) : studio * result unit :=
  let eventName := C4 st in
  let eventType := C6 st in
  let customQuestion := C8 st in
  let isRequired := C9 st in
  let eventMonth := C11 st in
  if negb (truthy eventName)
  then (with_B3 st "Please fill in the event name", Returned tt)
  else
    match eventName with
    | Text name =>
        if (negb (truthy customQuestion) && negb (isString customQuestion))%bool
        then (with_B3 st "Please enter a valid question", Returned tt)
        else
          let (templateSheet, templateForm) :=
            templatesFor eventType (fileMapOf (templateFiles st)) in
          match templateSheet with
          | None => (st, Threw TypeError)
          | Some sheetFile =>
              match driveKind sheetFile, eventMonth with
              | SpreadsheetFile withResponses, Text month =>
                  if (month =? "")%string then (st, OutOfModel)
                  else
                    let newSheet :=
                      {| sheetName := (name ++ " Member Sheet")%string;
                         sheetTemplate := sheetFile |} in
                    let st1 :=
                      with_sheetFolders st (moveTo month newSheet (sheetFolders st)) in
                    match templateForm with
                    | None => (st1, Threw TypeError)
                    | Some formFile =>
                        match driveKind formFile,
                              questionItem customQuestion isRequired with
                        | FormFile, Returned item =>
                            let newForm :=
                              {| formName := (name ++ " Sign-In Form")%string;
                                 formTitle := (name ++ " Sign-In Form")%string;
                                 formTemplate := formFile;
                                 destination := newSheet;
                                 addedItem := item |} in
                            let st2 :=
                              with_formFolders st1
                                (moveTo month newForm (formFolders st1)) in
                            if withResponses
                            then (resetForm st2, Returned tt)
                            else (st, OutOfModel)
                        | _, _ => (st, OutOfModel)
                        end
                    end
              | _, _ => (st, OutOfModel)
              end
          end
    | _ => (with_B3 st "Please enter a valid event name", Returned tt)
    end.

(** ** What the properties of createNewForm are stated with *)

(** [sep] occurs in [s]. *)
Fixpoint occursIn (sep s : string) : bool :=
  prefix sep s
  || match s with
     | EmptyString => false
     | String _ s' => occursIn sep s'
     end.

(** The files a month holds. *)
Definition filesOf {A : Type} (month : string) (folders : month_folders A) : list A :=
  match find (fun f => (fst f =? month)%string) folders with
  | Some f => snd f
  | None => []
  end.

(** The panel filled in for a standard event in March, and the Templates
    folder with its five files. *)
Definition templateFolder : list drive_file :=
  [{| driveName := FORM_TEMPLATE_NAME; driveKind := FormFile |};
   {| driveName := SHEET_TEMPLATE_NAME; driveKind := SpreadsheetFile true |};
   {| driveName := FUND_FORM_TEMPLATE_NAME; driveKind := FormFile |};
   {| driveName := FUND_SHEET_TEMPLATE_NAME; driveKind := SpreadsheetFile true |};
   {| driveName := PHOTO_EV_SHEET_TEMPLATE_NAME; driveKind := SpreadsheetFile true |}].

Definition galaStudio : studio :=
  {| C4 := Text "Spring Gala"; C5 := Text ""; C6 := Text "Standard"; C7 := Text "";
     C8 := Text "T-shirt size?"; C9 := Flag true; C10 := Text ""; C11 := Text "March";
     B3 := "";
     templateFiles := templateFolder;
     sheetFolders := [("February", [])];
     formFolders := [] |}.

(** The same without the form template in the Templates folder. *)
Definition noFormStudio : studio :=
  {| C4 := Text "Spring Gala"; C5 := Text ""; C6 := Text "Standard"; C7 := Text "";
     C8 := Text ""; C9 := Text ""; C10 := Text ""; C11 := Text "March";
     B3 := "";
     templateFiles :=
       [{| driveName := SHEET_TEMPLATE_NAME; driveKind := SpreadsheetFile true |}];
     sheetFolders := [("February", [])];
     formFolders := [] |}.

(** A number typed in as the name of the event. *)
Definition numberStudio : studio :=
  {| C4 := Num 2025; C5 := Text ""; C6 := Text "Standard"; C7 := Text "";
     C8 := Text ""; C9 := Text ""; C10 := Text ""; C11 := Text "March";
     B3 := "";
     templateFiles := templateFolder;
     sheetFolders := [];
     formFolders := [] |}.

(** An event type that is none of the three. *)
Definition socialStudio : studio :=
  {| C4 := Text "Spring Gala"; C5 := Text ""; C6 := Text "Social"; C7 := Text "";
     C8 := Text ""; C9 := Text ""; C10 := Text ""; C11 := Text "March";
     B3 := "";
     templateFiles := templateFolder;
     sheetFolders := [];
     formFolders := [] |}.

(** An unticked checkbox where the custom question goes. *)
Definition checkboxStudio : studio :=
  {| C4 := Text "Spring Gala"; C5 := Text ""; C6 := Text "Standard"; C7 := Text "";
     C8 := Flag false; C9 := Text ""; C10 := Text ""; C11 := Text "March";
     B3 := "";
     templateFiles := templateFolder;
     sheetFolders := [];
     formFolders := [] |}.

(** A month that holds the sheet of an earlier event. *)
Definition marchStudio : studio :=
  {| C4 := Text "Spring Gala"; C5 := Text ""; C6 := Text "Fundraising"; C7 := Text "";
     C8 := Text ""; C9 := Text ""; C10 := Text ""; C11 := Text "March";
     B3 := "";
     templateFiles := templateFolder;
     sheetFolders :=
       [("March", [{| sheetName := "Bake Sale Member Sheet";
                      sheetTemplate := {| driveName := FUND_SHEET_TEMPLATE_NAME;
                                          driveKind := SpreadsheetFile true |} |}])];
     formFolders := [] |}.

(** * Properties *)

(** ** Text *)

Lemma lower_char_idem : forall c, lower_char (lower_char c) = lower_char c.
Proof. intros [[] [] [] [] [] [] [] []]; reflexivity. Qed.

Lemma toLowerCase_idem : forall s, toLowerCase (toLowerCase s) = toLowerCase s.
Proof.
  induction s as [|c s IH]; simpl; [reflexivity|].
  now rewrite lower_char_idem, IH.
Qed.

Lemma toLowerCase_blank : forall s, (toLowerCase s =? "")%string = (s =? "")%string.
Proof. destruct s; reflexivity. Qed.

Lemma lower_char_noCapital : forall c, isCapital (lower_char c) = false.
Proof. intros [[] [] [] [] [] [] [] []]; reflexivity. Qed.

Lemma toLowerCase_noCapital : forall s, noCapital (toLowerCase s) = true.
Proof.
  induction s as [|c s IH]; simpl; [reflexivity|].
  now rewrite lower_char_noCapital, IH.
Qed.

(** ** Objects *)

Module ObjectFacts.

Section Facts.

Context {V : Type}.
Implicit Types (o : object V) (k e : string) (v : V).

Lemma get_set_same o k v : get (set o k v) k = Some v.
Proof.
  induction o as [|[k' v'] o IH]; simpl.
  - now rewrite String.eqb_refl.
  - destruct (k' =? k)%string eqn:E; simpl.
    + now rewrite String.eqb_refl.
    + now rewrite E.
Qed.

Lemma get_set_other o k v e : k <> e -> get (set o k v) e = get o e.
Proof.
  intros Hne. induction o as [|[k' v'] o IH]; simpl.
  - apply String.eqb_neq in Hne. now rewrite Hne.
  - destruct (k' =? k)%string eqn:E; simpl.
    + apply String.eqb_eq in E. subst k'.
      apply String.eqb_neq in Hne. now rewrite Hne.
    + now rewrite IH.
Qed.

Lemma get_set o k v e :
  get (set o k v) e = if (k =? e)%string then Some v else get o e.
Proof.
  destruct (k =? e)%string eqn:E.
  - apply String.eqb_eq in E. subst. apply get_set_same.
  - apply String.eqb_neq in E. now apply get_set_other.
Qed.

Lemma get_None_keys o k : get o k = None <-> ~ In k (keys o).
Proof.
  induction o as [|[k' v'] o IH]; simpl.
  - tauto.
  - destruct (k' =? k)%string eqn:E.
    + apply String.eqb_eq in E. split; [discriminate | tauto].
    + apply String.eqb_neq in E. rewrite IH. tauto.
Qed.

Lemma get_Some_keys o k : (exists v, get o k = Some v) <-> In k (keys o).
Proof.
  destruct (get o k) as [v|] eqn:E.
  - split; [intros _ | eauto].
    destruct (in_dec string_dec k (keys o)) as [H|H]; [exact H|].
    apply get_None_keys in H. congruence.
  - split; [intros [v Hv]; discriminate|].
    intros H. apply get_None_keys in E. contradiction.
Qed.

Lemma keys_set_new o k v : get o k = None -> keys (set o k v) = keys o ++ [k].
Proof.
  induction o as [|[k' v'] o IH]; simpl; [reflexivity|].
  destruct (k' =? k)%string; [discriminate|].
  intros H. simpl. now rewrite IH.
Qed.

Lemma keys_set_old o k v v0 : get o k = Some v0 -> keys (set o k v) = keys o.
Proof.
  induction o as [|[k' v'] o IH]; simpl; [discriminate|].
  destruct (k' =? k)%string eqn:E.
  - apply String.eqb_eq in E. now subst.
  - intros H. simpl. now rewrite IH.
Qed.

Lemma keys_set o k v :
  keys (set o k v) =
  match get o k with Some _ => keys o | None => keys o ++ [k] end.
Proof.
  destruct (get o k) eqn:E.
  - eapply keys_set_old; eauto.
  - now apply keys_set_new.
Qed.

Lemma NoDup_keys_set o k v : NoDup (keys o) -> NoDup (keys (set o k v)).
Proof.
  intros H. rewrite keys_set. destruct (get o k) eqn:E; [exact H|].
  apply get_None_keys in E.
  apply NoDup_app; [exact H | constructor; [tauto | constructor] |].
  intros x Hx [<-|[]]. contradiction.
Qed.

(** With distinct keys, looking every key up gives the values back. *)
Lemma get_keys_values o :
  NoDup (keys o) -> map (get o) (keys o) = map (fun kv => Some (snd kv)) o.
Proof.
  induction o as [|[k v] o IH]; simpl; [reflexivity|].
  intros H. inversion H as [|? ? Hk Ho]; subst.
  rewrite String.eqb_refl. f_equal.
  rewrite <- IH by exact Ho.
  apply map_ext_in. intros e He.
  destruct (k =? e)%string eqn:E; [|reflexivity].
  apply String.eqb_eq in E. subst. contradiction.
Qed.

End Facts.

(** The values of an object add up as [set] says. *)
Lemma sum_set (o : object Z) k v :
  sumZ (map snd (set o k v)) = sumZ (map snd o) - Number (get o k) + v.
Proof.
  induction o as [|[k' v'] o IH]; simpl.
  - lia.
  - destruct (k' =? k)%string; simpl; [lia|]. rewrite IH. lia.
Qed.

End ObjectFacts.

Import ObjectFacts.

(** ** getResponsesFromEvent *)

Module SourceFacts.

Lemma orZero_Number a : orZero a = Number a.
Proof.
  destruct a as [a|]; simpl; [|reflexivity].
  destruct (a =? 0) eqn:E; [|reflexivity].
  apply Z.eqb_eq in E. now subst.
Qed.

Lemma responsesLoop_Some d rows n p :
  responsesLoop (Some d) rows n p =
  Returned
    {| names := fold_left (fun o r => set o (email r) (colA r)) (records rows) n;
       points := fold_left (fun o r => set o (email r) (d + Number (colD r)))
                   (records rows) p |}.
Proof.
  revert n p. induction rows as [|r rows IH]; intros n p; simpl; [reflexivity|].
  rewrite toLowerCase_blank.
  destruct (colB r =? "")%string; simpl; [reflexivity|].
  rewrite IH, orZero_Number. reflexivity.
Qed.

Lemma responsesLoop_no_record dp rows n p :
  records rows = [] ->
  responsesLoop dp rows n p = Returned {| names := n; points := p |}.
Proof.
  destruct rows as [|r rows]; simpl; [reflexivity|].
  rewrite toLowerCase_blank.
  destruct (colB r =? "")%string; [reflexivity | discriminate].
Qed.

Section Fold.

Context {V : Type} (f : response_row -> V).

Local Notation "'step'" := (fun (o : object V) (r : response_row) => set o (email r) (f r)).

Lemma get_fold recs o e :
  get (fold_left step recs o) e =
  match lastRecord recs e with
  | Some r => Some (f r)
  | None => get o e
  end.
Proof.
  unfold lastRecord. revert o.
  induction recs as [|r recs IH] using rev_ind; intros o; simpl; [reflexivity|].
  rewrite fold_left_app, rev_app_distr. simpl.
  rewrite get_set.
  destruct (email r =? e)%string; [reflexivity | apply IH].
Qed.

Lemma NoDup_keys_fold recs o :
  NoDup (keys o) -> NoDup (keys (fold_left step recs o)).
Proof.
  revert o. induction recs as [|r recs IH]; intros o H; simpl; [exact H|].
  apply IH. now apply NoDup_keys_set.
Qed.

End Fold.

Lemma keys_set_sync {V W : Type} (n : object V) (p : object W) k v w :
  keys n = keys p -> keys (set n k v) = keys (set p k w).
Proof.
  intros H. rewrite !keys_set.
  destruct (get n k) eqn:En, (get p k) eqn:Ep; rewrite ?H; try reflexivity.
  - apply get_None_keys in Ep. rewrite <- H in Ep.
    destruct Ep. apply get_Some_keys. eauto.
  - apply get_None_keys in En. rewrite H in En.
    destruct En. apply get_Some_keys. eauto.
Qed.

Lemma keys_fold_sync {V W : Type} (f : response_row -> V) (g : response_row -> W)
    recs (n : object V) (p : object W) :
  keys n = keys p ->
  keys (fold_left (fun o r => set o (email r) (f r)) recs n) =
  keys (fold_left (fun o r => set o (email r) (g r)) recs p).
Proof.
  revert n p. induction recs as [|r recs IH]; intros n p H; simpl; [exact H|].
  apply IH. now apply keys_set_sync.
Qed.

Lemma lastRecord_In recs e r :
  lastRecord recs e = Some r -> In r recs /\ email r = e.
Proof.
  unfold lastRecord. intros H. apply find_some in H. destruct H as [H1 H2].
  apply in_rev in H1. apply String.eqb_eq in H2. now split.
Qed.

Lemma lastRecord_None recs e :
  lastRecord recs e = None <-> ~ In e (map email recs).
Proof.
  unfold lastRecord. split.
  - intros H Hin. apply in_map_iff in Hin. destruct Hin as [r [He Hr]].
    apply in_rev in Hr. apply (find_none _ _ H r) in Hr.
    apply String.eqb_neq in Hr. contradiction.
  - intros H. destruct (find _ _) as [r|] eqn:E; [|reflexivity].
    apply find_some in E. destruct E as [E1 E2].
    apply in_rev in E1. apply String.eqb_eq in E2.
    destruct H. apply in_map_iff. eauto.
Qed.

(** A readable source is read, and the result says what the source says. *)
Lemma getResponsesFromEvent_readable sheet :
  readable sheet = true ->
  exists info,
    getResponsesFromEvent (tabResponses sheet) = Returned info /\
    describes info sheet.
Proof.
  unfold readable, getResponsesFromEvent.
  destruct (tabResponses sheet) as [rows|] eqn:ET; [|discriminate].
  destruct (F2 rows) as [d|] eqn:EF.
  - intros _. rewrite responsesLoop_Some. eexists. split; [reflexivity|].
    split; simpl.
    + intros e. unfold sourceName, recordsOf. rewrite get_fold, ET.
      now destruct (lastRecord _ _).
    + intros e.
      unfold sourcePoints, recordPoints, defaultPointsOf, recordsOf.
      rewrite get_fold, ET, EF. now destruct (lastRecord _ _).
    + split; simpl.
      * now apply keys_fold_sync.
      * apply NoDup_keys_fold. constructor.
  - destruct (records rows) eqn:ER; [|discriminate].
    intros _. rewrite responsesLoop_no_record by exact ER.
    eexists. split; [reflexivity|].
    split; simpl.
    + intros e. unfold sourceName, recordsOf. now rewrite ET, ER.
    + intros e. unfold sourcePoints, recordsOf. now rewrite ET, ER.
    + split; simpl; [reflexivity | constructor].
Qed.

Lemma describes_keys info sheet e :
  describes info sheet ->
  In e (keys (names info)) <-> In e (map email (recordsOf sheet)).
Proof.
  intros D. rewrite <- get_Some_keys, (says_name _ _ D).
  unfold sourceName.
  destruct (lastRecord (recordsOf sheet) e) as [r|] eqn:E; simpl.
  - split; [intros _ | eauto].
    apply lastRecord_In in E. destruct E as [E1 E2].
    apply in_map_iff. eauto.
  - split; [intros [v Hv]; discriminate|].
    intros H. apply lastRecord_None in E. contradiction.
Qed.

End SourceFacts.

Import SourceFacts.

(** ** The merge of the events (lines 235-260) *)

Module MergeFacts.

Lemma synced_get rs e :
  synced rs -> (get (names rs) e = None <-> get (points rs) e = None).
Proof.
  intros [Hk _]. rewrite !get_None_keys, Hk. tauto.
Qed.

Lemma synced_points rs e n :
  synced rs -> get (names rs) e = Some n -> exists p, get (points rs) e = Some p.
Proof.
  intros S H. destruct (get (points rs) e) eqn:E; [eauto|].
  apply (synced_get _ _ S) in E. congruence.
Qed.

Lemma synced_names rs e p :
  synced rs -> get (points rs) e = Some p -> exists n, get (names rs) e = Some n.
Proof.
  intros S H. destruct (get (names rs) e) eqn:E; [eauto|].
  apply (synced_get _ _ S) in E. congruence.
Qed.

Lemma synced_set rs e n p :
  synced rs ->
  synced {| names := set (names rs) e n; points := set (points rs) e p |}.
Proof.
  intros [Hk Hn]. split; simpl.
  - now apply keys_set_sync.
  - now apply NoDup_keys_set.
Qed.

Lemma synced_add rs e a p :
  synced rs -> get (points rs) e = Some a ->
  synced {| names := names rs; points := set (points rs) e p |}.
Proof.
  intros [Hk Hn] H. split; simpl; [|exact Hn].
  rewrite Hk. symmetry. eapply keys_set_old; eauto.
Qed.

Lemma forIn_spec props info rs :
  synced info -> synced rs -> NoDup props -> incl props (keys (names info)) ->
  exists rs',
    forIn props info rs = Returned rs' /\ synced rs' /\
    (forall e, get (names rs') e =
               orElse (get (names rs) e) (among props e (get (names info) e))) /\
    (forall e, get (points rs') e =
               addPoints (get (points rs) e) (among props e (get (points info) e))) /\
    sumZ (map snd (points rs')) =
    sumZ (map snd (points rs)) + sumZ (map (fun e => Number (get (points info) e)) props).
Proof.
  intros Si. revert rs.
  induction props as [|p props IH]; intros rs Sr Hnd Hin; simpl.
  - exists rs. split; [reflexivity|]. split; [exact Sr|]. split; [|split].
    + intros e. unfold among. now destruct (get (names rs) e).
    + intros e. unfold among. now destruct (get (points rs) e).
    + lia.
  - inversion Hnd as [|? ? Hp Hnd']; subst.
    assert (Hpi : In p (keys (names info))) by (apply Hin; now left).
    assert (Hin' : incl props (keys (names info)))
      by (intros x Hx; apply Hin; now right).
    apply get_Some_keys in Hpi. destruct Hpi as [n Hn].
    destruct (synced_points _ _ _ Si Hn) as [q Hq].
    rewrite Hn, Hq.
    destruct (get (names rs) p) as [n0|] eqn:En.
    + destruct (synced_points _ _ _ Sr En) as [a Ha]. rewrite Ha.
      destruct (IH _ (synced_add rs p a (a + q) Sr Ha) Hnd' Hin')
        as [rs' [Hr [Sr' [Hnames [Hpoints Hsum]]]]].
      exists rs'. split; [exact Hr|]. split; [exact Sr'|]. simpl in *.
      split; [|split].
      * intros e. rewrite Hnames. unfold among.
        destruct (string_dec p e) as [->|Hne].
        -- rewrite En. reflexivity.
        -- destruct (in_dec string_dec e props), (in_dec string_dec e (p :: props));
             simpl in *; try reflexivity; tauto.
      * intros e. rewrite Hpoints, get_set. unfold among.
        destruct (string_dec p e) as [->|Hne].
        -- rewrite String.eqb_refl, Ha, Hq.
           destruct (in_dec string_dec e props); [contradiction|].
           destruct (in_dec string_dec e (e :: props)); simpl in *; [reflexivity|tauto].
        -- apply String.eqb_neq in Hne as Hb. rewrite Hb.
           destruct (in_dec string_dec e props), (in_dec string_dec e (p :: props));
             simpl in *; try reflexivity; tauto.
      * rewrite Hsum, sum_set, Ha. simpl. lia.
    + apply (synced_get _ _ Sr) in En as Ep.
      destruct (IH _ (synced_set rs p n q Sr) Hnd' Hin')
        as [rs' [Hr [Sr' [Hnames [Hpoints Hsum]]]]].
      exists rs'. split; [exact Hr|]. split; [exact Sr'|]. simpl in *.
      split; [|split].
      * intros e. rewrite Hnames, get_set. unfold among.
        destruct (string_dec p e) as [->|Hne].
        -- rewrite String.eqb_refl, En, Hn.
           destruct (in_dec string_dec e (e :: props)); simpl in *; [reflexivity|tauto].
        -- apply String.eqb_neq in Hne as Hb. rewrite Hb.
           destruct (in_dec string_dec e props), (in_dec string_dec e (p :: props));
             simpl in *; try reflexivity; tauto.
      * intros e. rewrite Hpoints, get_set. unfold among.
        destruct (string_dec p e) as [->|Hne].
        -- rewrite String.eqb_refl, Ep, Hq.
           destruct (in_dec string_dec e props); [contradiction|].
           destruct (in_dec string_dec e (e :: props)); simpl in *; [reflexivity|tauto].
        -- apply String.eqb_neq in Hne as Hb. rewrite Hb.
           destruct (in_dec string_dec e props), (in_dec string_dec e (p :: props));
             simpl in *; try reflexivity; tauto.
      * rewrite Hsum, sum_set, Ep. simpl. lia.
Qed.

Lemma among_keys {A : Type} (o : object A) e :
  among (keys o) e (get o e) = get o e.
Proof.
  unfold among. destruct (in_dec string_dec e (keys o)) as [H|H]; [reflexivity|].
  apply get_None_keys in H. now rewrite H.
Qed.

Lemma sum_values (o : object Z) :
  NoDup (keys o) ->
  sumZ (map (fun e => Number (get o e)) (keys o)) = sumZ (map snd o).
Proof.
  intros H.
  rewrite <- (map_map (get o) Number), (get_keys_values o H), !map_map.
  reflexivity.
Qed.

(** One event merged into the response set. *)
Lemma forIn_event info rs :
  synced info -> synced rs ->
  exists rs',
    forIn (keys (names info)) info rs = Returned rs' /\ synced rs' /\
    (forall e, get (names rs') e = orElse (get (names rs) e) (get (names info) e)) /\
    (forall e, get (points rs') e = addPoints (get (points rs) e) (get (points info) e)) /\
    sumZ (map snd (points rs')) = sumZ (map snd (points rs)) + sumZ (map snd (points info)).
Proof.
  intros Si Sr.
  destruct (forIn_spec (keys (names info)) info rs Si Sr (keys_once _ Si) (incl_refl _))
    as [rs' [Hr [Sr' [Hn [Hp Hs]]]]].
  exists rs'. split; [exact Hr|]. split; [exact Sr'|].
  split; [|split].
  - intros e. now rewrite Hn, among_keys.
  - intros e. rewrite Hp, (same_keys _ Si), among_keys. reflexivity.
  - rewrite Hs, (same_keys _ Si), sum_values; [reflexivity|].
    rewrite <- (same_keys _ Si). apply (keys_once _ Si).
Qed.

End MergeFacts.

Import MergeFacts.

(** ** What a source adds up to *)

Module CountFacts.

Lemma find_last {A : Type} (p : A -> bool) l a :
  find p (l ++ [a]) =
  match find p l with
  | Some x => Some x
  | None => if p a then Some a else None
  end.
Proof.
  induction l as [|x l IH]; simpl; [reflexivity|].
  destruct (p x); [reflexivity | exact IH].
Qed.

Lemma lastRecord_cons a rest e :
  lastRecord (a :: rest) e =
  match lastRecord rest e with
  | Some x => Some x
  | None => if (email a =? e)%string then Some a else None
  end.
Proof. unfold lastRecord. simpl. now rewrite find_last. Qed.

Lemma later_email rest e :
  existsb (fun r' => (email r' =? e)%string) rest = true <-> In e (map email rest).
Proof.
  rewrite existsb_exists, in_map_iff.
  split; intros [r [H1 H2]]; exists r.
  - apply String.eqb_eq in H2. now split.
  - split; [exact H2 | now apply String.eqb_eq].
Qed.

Lemma counted_last recs r :
  In r (counted recs) -> lastRecord recs (email r) = Some r.
Proof.
  induction recs as [|a rest IH]; simpl; [tauto|].
  rewrite lastRecord_cons.
  destruct (existsb _ rest) eqn:E.
  - intros H. now rewrite (IH H).
  - intros [->|H]; [|now rewrite (IH H)].
    assert (Hn : lastRecord rest (email r) = None).
    { apply lastRecord_None. intros Hin. apply later_email in Hin. congruence. }
    now rewrite Hn, String.eqb_refl.
Qed.

Lemma counted_emails recs e :
  In e (map email (counted recs)) <-> In e (map email recs).
Proof.
  induction recs as [|a rest IH]; simpl; [tauto|].
  destruct (existsb _ rest) eqn:E; simpl; rewrite IH; [|tauto].
  apply later_email in E. split; [tauto|]. intros [<-|H]; tauto.
Qed.

Lemma counted_once recs : NoDup (map email (counted recs)).
Proof.
  induction recs as [|a rest IH]; simpl; [constructor|].
  destruct (existsb _ rest) eqn:E; [exact IH|].
  simpl. constructor; [|exact IH].
  rewrite counted_emails. intros H. apply later_email in H. congruence.
Qed.

Lemma counted_all recs : NoDup (map email recs) -> counted recs = recs.
Proof.
  induction recs as [|a rest IH]; simpl; [reflexivity|].
  intros H. inversion H as [|? ? Ha Hr]; subst.
  destruct (existsb _ rest) eqn:E.
  - apply later_email in E. contradiction.
  - now rewrite IH.
Qed.

Lemma sumZ_app l l' : sumZ (l ++ l') = sumZ l + sumZ l'.
Proof. induction l as [|x l IH]; simpl; [reflexivity|]. rewrite IH. lia. Qed.

Lemma sumZ_Permutation l l' : Permutation l l' -> sumZ l = sumZ l'.
Proof. induction 1; simpl; lia. Qed.

Lemma describes_total info sheet :
  describes info sheet -> sumZ (map snd (points info)) = sourceTotal sheet.
Proof.
  intros D. destruct (is_synced _ _ D) as [Hk Hn].
  assert (Hnp : NoDup (keys (points info))) by now rewrite <- Hk.
  rewrite <- (sum_values _ Hnp). unfold sourceTotal.
  assert (HP : Permutation (keys (points info))
                 (map email (counted (recordsOf sheet)))).
  { apply NoDup_Permutation; [exact Hnp | apply counted_once |].
    intros e. rewrite <- Hk, counted_emails. now apply describes_keys. }
  rewrite (sumZ_Permutation _ _ (Permutation_map _ HP)), map_map.
  f_equal. apply map_ext_in. intros r Hr.
  rewrite (says_points _ _ D). unfold sourcePoints.
  now rewrite (counted_last _ _ Hr).
Qed.

End CountFacts.

Import CountFacts.

(** ** The events loop *)

Module EventsFacts.

Lemma eventsLoop_merge popped :
  forall rs0,
    forallb readable popped = true -> synced rs0 ->
    exists rs,
      eventsLoop popped (Some rs0) = Returned (Some rs) /\ synced rs /\
      (forall e, get (names rs) e =
                 fold_left (fun acc s => orElse acc (sourceName s e)) popped
                   (get (names rs0) e)) /\
      (forall e, get (points rs) e =
                 fold_left (fun acc s => addPoints acc (sourcePoints s e)) popped
                   (get (points rs0) e)) /\
      sumZ (map snd (points rs)) =
      sumZ (map snd (points rs0)) + sumZ (map sourceTotal popped).
Proof.
  induction popped as [|sheet rest IH]; intros rs0 Hr S0; simpl.
  - exists rs0. split; [reflexivity|]. split; [exact S0|].
    split; [reflexivity|]. split; [reflexivity | lia].
  - simpl in Hr. apply andb_true_iff in Hr. destruct Hr as [Hs Hr].
    destruct (getResponsesFromEvent_readable _ Hs) as [info [Hi D]].
    rewrite Hi. simpl.
    destruct (forIn_event info rs0 (is_synced _ _ D) S0)
      as [rs1 [H1 [S1 [Hn1 [Hp1 Hs1]]]]].
    rewrite H1. simpl.
    destruct (IH rs1 Hr S1) as [rs [H [S [Hn [Hp Hsum]]]]].
    exists rs. split; [exact H|]. split; [exact S|].
    split; [|split].
    + intros e. now rewrite Hn, Hn1, (says_name _ _ D).
    + intros e. now rewrite Hp, Hp1, (says_points _ _ D).
    + rewrite Hsum, Hs1, (describes_total _ _ D). lia.
Qed.

(** Every source readable and at least one source: the loop ends with a
    response set that holds, for every email, the first name and the sum of
    the points. *)
Lemma eventsLoop_spec popped :
  popped <> [] -> forallb readable popped = true ->
  exists rs,
    eventsLoop popped None = Returned (Some rs) /\ synced rs /\
    (forall e, get (names rs) e = firstName popped e) /\
    (forall e, get (points rs) e = sumPoints popped e) /\
    sumZ (map snd (points rs)) = sumZ (map sourceTotal popped).
Proof.
  destruct popped as [|sheet rest]; [congruence|]. intros _ Hr. simpl.
  simpl in Hr. apply andb_true_iff in Hr. destruct Hr as [Hs Hr].
  destruct (getResponsesFromEvent_readable _ Hs) as [info [Hi D]].
  rewrite Hi. simpl.
  destruct (eventsLoop_merge rest info Hr (is_synced _ _ D))
    as [rs [H [S [Hn [Hp Hsum]]]]].
  exists rs. split; [exact H|]. split; [exact S|].
  split; [|split].
  - intros e. rewrite Hn, (says_name _ _ D). reflexivity.
  - intros e. rewrite Hp, (says_points _ _ D). unfold sumPoints. simpl.
    now destruct (sourcePoints sheet e).
  - rewrite Hsum, (describes_total _ _ D). reflexivity.
Qed.

End EventsFacts.

Import EventsFacts.

(** ** The rows of the ledger (lines 262-318) *)

Module RowsFacts.

Lemma fold_max_ge l : forall m, m <= fold_left Z.max l m.
Proof.
  induction l as [|x l IH]; intros m; simpl; [lia|].
  specialize (IH (Z.max m x)). lia.
Qed.

Lemma fold_max_bound l : forall m x, In x l -> x <= fold_left Z.max l m.
Proof.
  induction l as [|y l IH]; intros m x; simpl; [tauto|].
  intros [->|H]; [|now apply IH].
  pose proof (fold_max_ge l (Z.max m x)). lia.
Qed.

Lemma fold_max_reached l : forall m,
  fold_left Z.max l m = m \/ In (fold_left Z.max l m) l.
Proof.
  induction l as [|y l IH]; intros m; simpl; [now left|].
  destruct (IH (Z.max m y)) as [H|H]; [|now right; right].
  rewrite H. destruct (Z.max_spec m y) as [[_ ->]|[_ ->]]; [right|]; now left.
Qed.

Lemma rowsLoop_spec rs emails :
  synced rs -> incl emails (keys (names rs)) ->
  forall i max indexes,
    let M := fold_left Z.max (map (totalIn rs) emails) max in
    exists ix,
      rowsLoop rs emails i max indexes = Returned (map (plainRow rs) emails, M, ix) /\
      forall j, In j ix <->
                (In j indexes /\ M = max) \/
                (exists k, j = (i + k)%nat /\
                           nth_error (map (totalIn rs) emails) k = Some M).
Proof.
  intros Sy. induction emails as [|e rest IH]; intros Hin i max indexes; simpl.
  - exists indexes. split; [reflexivity|]. intros j. split.
    + intros H. left. now split.
    + intros [[H _]|[k [_ H]]]; [exact H|]. destruct k; discriminate.
  - assert (He : In e (keys (names rs))) by (apply Hin; now left).
    assert (Hin' : incl rest (keys (names rs)))
      by (intros x Hx; apply Hin; now right).
    apply get_Some_keys in He. destruct He as [n Hn].
    destruct (synced_points _ _ _ Sy Hn) as [t Ht].
    rewrite Ht, Hn.
    assert (Et : totalIn rs e = t) by (unfold totalIn; now rewrite Ht).
    assert (En : nameIn rs e = n) by (unfold nameIn; now rewrite Hn).
    rewrite Et.
    pose proof (fold_max_ge (map (totalIn rs) rest) (Z.max max t)) as Hge.
    set (M := fold_left Z.max (map (totalIn rs) rest) (Z.max max t)) in *.
    assert (Hrow : plainRow rs e =
                   {| cellA := n; cellB := Some t; cellC := e;
                      background := tierColor t |}).
    { unfold plainRow. now rewrite Et, En. }
    destruct (t >? max) eqn:Hgt; [|destruct (t =? max) eqn:Heq].
    + apply Z.gtb_lt in Hgt.
      destruct (IH Hin' (S i) t [i]) as [ix [Hr Hix]].
      subst M. replace (Z.max max t) with t in * by lia.
      set (M := fold_left Z.max (map (totalIn rs) rest) t) in *.
      rewrite Hr. simpl. exists ix. split; [now rewrite Hrow|].
      intros j. rewrite Hix. split.
      * intros [[[<-|[]] HM]|[k [-> Hk]]].
        -- right. exists 0%nat. split; [lia|]. simpl. now rewrite HM.
        -- right. exists (S k). split; [lia | exact Hk].
      * intros [[_ HM]|[[|k] [-> Hk]]].
        -- lia.
        -- simpl in Hk. left. split; [left; lia | congruence].
        -- right. exists k. split; [lia | exact Hk].
    + apply Z.eqb_eq in Heq.
      destruct (IH Hin' (S i) max (indexes ++ [i])) as [ix [Hr Hix]].
      subst M. replace (Z.max max t) with max in * by lia.
      set (M := fold_left Z.max (map (totalIn rs) rest) max) in *.
      rewrite Hr. simpl. exists ix. split; [now rewrite Hrow|].
      intros j. rewrite Hix, in_app_iff. split.
      * intros [[[H|[<-|[]]] HM]|[k [-> Hk]]].
        -- left. now split.
        -- right. exists 0%nat. split; [lia|]. simpl. f_equal. lia.
        -- right. exists (S k). split; [lia | exact Hk].
      * intros [[H HM]|[[|k] [-> Hk]]].
        -- left. split; [now left | exact HM].
        -- simpl in Hk. injection Hk as Hk.
           left. split; [right; left; lia | lia].
        -- right. exists k. split; [lia | exact Hk].
    + rewrite Z.gtb_ltb in Hgt. apply Z.ltb_ge in Hgt. apply Z.eqb_neq in Heq.
      destruct (IH Hin' (S i) max indexes) as [ix [Hr Hix]].
      subst M. replace (Z.max max t) with max in * by lia.
      set (M := fold_left Z.max (map (totalIn rs) rest) max) in *.
      rewrite Hr. simpl. exists ix. split; [now rewrite Hrow|].
      intros j. rewrite Hix. split.
      * intros [H|[k [-> Hk]]]; [now left|].
        right. exists (S k). split; [lia | exact Hk].
      * intros [H|[[|k] [-> Hk]]]; [now left | |].
        -- simpl in Hk. injection Hk as Hk. lia.
        -- right. exists k. split; [lia | exact Hk].
Qed.

Lemma updateAt_nth_error {A : Type} (f : A -> A) l : forall i j,
  nth_error (updateAt i f l) j =
  if (i =? j)%nat then option_map f (nth_error l j) else nth_error l j.
Proof.
  induction l as [|x l IH]; intros i j; simpl.
  - destruct i, j; simpl; try reflexivity. now destruct (i =? j)%nat.
  - destruct i, j; simpl; try reflexivity. apply IH.
Qed.

Lemma restyle_nth_error {A : Type} (f : A -> A) :
  (forall x, f (f x) = f x) ->
  forall ix l j,
    nth_error (fold_left (fun rows i => updateAt i f rows) ix l) j =
    if existsb (Nat.eqb j) ix then option_map f (nth_error l j) else nth_error l j.
Proof.
  intros Hf. induction ix as [|i ix IH]; intros l j; simpl; [reflexivity|].
  rewrite IH, updateAt_nth_error, (Nat.eqb_sym j i).
  destruct (i =? j)%nat; simpl; [|reflexivity].
  destruct (existsb _ ix); [|reflexivity].
  destruct (nth_error l j); simpl; [now rewrite Hf | reflexivity].
Qed.

Lemma styleTop_spec rs emails max ix :
  let M := fold_left Z.max (map (totalIn rs) emails) max in
  (forall j, In j ix <-> nth_error (map (totalIn rs) emails) j = Some M) ->
  styleTop M ix (map (plainRow rs) emails) = map (ledgerRow rs M) emails.
Proof.
  intros M Hix. unfold styleTop. apply nth_error_ext. intros j.
  rewrite (nth_error_map (ledgerRow rs M)).
  destruct (M >=? 15) eqn:HM.
  - rewrite restyle_nth_error by reflexivity.
    rewrite (nth_error_map (plainRow rs)).
    destruct (nth_error emails j) as [e|] eqn:Ee; simpl;
      [|now destruct (existsb _ ix)].
    assert (Ht : nth_error (map (totalIn rs) emails) j = Some (totalIn rs e))
      by now apply map_nth_error.
    unfold ledgerRow, plainRow, setBackground, finalColor. simpl.
    apply Z.geb_le in HM. apply Z.leb_le in HM. rewrite HM. simpl.
    destruct (existsb (Nat.eqb j) ix) eqn:Ex.
    + apply existsb_exists in Ex. destruct Ex as [j' [Hj' Ej]].
      apply Nat.eqb_eq in Ej. subst j'. apply Hix in Hj'.
      rewrite Ht in Hj'. injection Hj' as ->. now rewrite Z.eqb_refl.
    + destruct (totalIn rs e =? M) eqn:Eq; [|reflexivity].
      apply Z.eqb_eq in Eq. rewrite Eq in Ht. apply Hix in Ht.
      assert (existsb (Nat.eqb j) ix = true).
      { apply existsb_exists. exists j. split; [exact Ht | apply Nat.eqb_refl]. }
      congruence.
  - rewrite (nth_error_map (plainRow rs)).
    destruct (nth_error emails j) as [e|]; simpl; [|reflexivity].
    unfold ledgerRow, plainRow, finalColor.
    assert (H15 : (15 <=? M) = false).
    { apply Z.leb_gt. rewrite Z.geb_leb in HM. now apply Z.leb_gt in HM. }
    now rewrite H15.
Qed.

(** A nonempty folder of readable sources: the run ends, and its rows are
    those of a response set that holds first names and summed points. *)
Lemma aggregate_spec folder :
  sheetIds folder <> [] ->
  forallb readable (sheetIds folder) = true ->
  exists rs,
    synced rs /\
    (forall e, get (names rs) e = firstName (popOrder (sheetIds folder)) e) /\
    (forall e, get (points rs) e = sumPoints (popOrder (sheetIds folder)) e) /\
    sumZ (map snd (points rs)) = sumZ (map sourceTotal (popOrder (sheetIds folder))) /\
    aggregate folder = Returned (map (ledgerRow rs (runMax rs)) (keys (names rs))).
Proof.
  intros Hne Hr. unfold aggregate.
  assert (Hne' : popOrder (sheetIds folder) <> []).
  { unfold popOrder. intros H. apply Hne.
    rewrite <- (rev_involutive (sheetIds folder)), H. reflexivity. }
  assert (Hr' : forallb readable (popOrder (sheetIds folder)) = true).
  { unfold popOrder. apply forallb_forall. intros s Hs.
    apply in_rev in Hs. revert s Hs. now apply forallb_forall. }
  destruct (eventsLoop_spec _ Hne' Hr') as [rs [H [S [Hn [Hp Hs]]]]].
  exists rs. split; [exact S|]. split; [exact Hn|]. split; [exact Hp|].
  split; [exact Hs|].
  rewrite H. simpl.
  destruct (rowsLoop_spec rs (keys (names rs)) S (incl_refl _) 0%nat 0 [])
    as [ix [Hrows Hix]].
  rewrite Hrows. simpl. f_equal. apply styleTop_spec.
  intros j. rewrite Hix. split.
  - intros [[[] _]|[k [-> Hk]]]. exact Hk.
  - intros Hk. right. exists j. now split.
Qed.

End RowsFacts.

Import RowsFacts.

(** ** The run as a whole *)

Lemma aggregable_spec folder :
  aggregable folder = true ->
  sheetIds folder <> [] /\ forallb readable (sheetIds folder) = true.
Proof.
  unfold aggregable. destruct (sheetIds folder); [discriminate|].
  intros H. split; [discriminate | exact H].
Qed.

Lemma aggregate_writes sheet_sort w rows :
  aggregate (SHEETS_FOLDER w) = Returned rows -> writesLedger sheet_sort w rows.
Proof.
  intros H. split; [exact H|]. unfold updateMemberPoints. now rewrite H.
Qed.

(** The rows of an aggregable folder, with what the response set behind them
    holds. *)
Lemma ledger_of_aggregable sheet_sort w :
  aggregable (SHEETS_FOLDER w) = true ->
  exists rs,
    synced rs /\
    (forall e, get (names rs) e = firstName (popOrder (sheetIds (SHEETS_FOLDER w))) e) /\
    (forall e, get (points rs) e = sumPoints (popOrder (sheetIds (SHEETS_FOLDER w))) e) /\
    sumZ (map snd (points rs)) =
    sumZ (map sourceTotal (popOrder (sheetIds (SHEETS_FOLDER w)))) /\
    writesLedger sheet_sort w (map (ledgerRow rs (runMax rs)) (keys (names rs))).
Proof.
  intros H. apply aggregable_spec in H. destruct H as [Hne Hr].
  destruct (aggregate_spec _ Hne Hr) as [rs [S [Hn [Hp [Hs Ha]]]]].
  exists rs. repeat (split; [assumption|]). now apply aggregate_writes.
Qed.

(** ** Tiers *)

Lemma runMax_bounds rs :
  0 <= runMax rs /\
  (forall e, In e (keys (names rs)) -> totalIn rs e <= runMax rs) /\
  (runMax rs = 0 \/ exists e, In e (keys (names rs)) /\ totalIn rs e = runMax rs).
Proof.
  unfold runMax. split; [apply fold_max_ge|]. split.
  - intros e He. apply fold_max_bound. now apply in_map.
  - destruct (fold_max_reached (map (totalIn rs) (keys (names rs))) 0) as [H|H];
      [now left|].
    right. apply in_map_iff in H. destruct H as [e [H1 H2]]. eauto.
Qed.

Lemma tierColor_cases t :
  (t < 3 -> tierColor t = DEFAULT_MEMBER_COLOR) /\
  (3 <= t < 15 -> tierColor t = ACTIVE_MEMBER_COLOR) /\
  (15 <= t -> tierColor t = INVOLVED_MEMBER_COLOR).
Proof.
  unfold tierColor.
  destruct (t <? 3) eqn:E3; [apply Z.ltb_lt in E3 | apply Z.ltb_ge in E3];
    (destruct (t <? 15) eqn:E15; [apply Z.ltb_lt in E15 | apply Z.ltb_ge in E15]);
    repeat split; intros; try reflexivity; lia.
Qed.

(** C4. Tier classification.  In the ledger a run writes, a row whose total
    is at least 15 and is the greatest total of the ledger has the
    most-involved background, every row tied for it included; any other row
    has the default background below 3 points, the active one from 3 to 14,
    the involved one from 15 on.  A row below 15 is thus never promoted. *)
Theorem tier_classification :
  forall sheet_sort w,
    aggregable (SHEETS_FOLDER w) = true ->
    exists rows,
      writesLedger sheet_sort w rows /\
      forall r, In r rows ->
        let t := totalPoints r in
        let top := 15 <= t /\ forall r', In r' rows -> totalPoints r' <= t in
        cellB r = Some t /\
        (top -> background r = MOST_INVOLVED_MEMBER_COLOR) /\
        (~ top ->
         (t < 3 -> background r = DEFAULT_MEMBER_COLOR) /\
         (3 <= t < 15 -> background r = ACTIVE_MEMBER_COLOR) /\
         (15 <= t -> background r = INVOLVED_MEMBER_COLOR)).
Proof.
  intros sheet_sort w H.
  destruct (ledger_of_aggregable sheet_sort w H) as [rs [_ [_ [_ [_ Hw]]]]].
  eexists. split; [exact Hw|].
  intros r Hr. apply in_map_iff in Hr. destruct Hr as [e [<- He]].
  destruct (runMax_bounds rs) as [H0 [Hle Hreach]].
  cbn zeta. unfold totalPoints at 1 2 3 4 5 6. simpl.
  split; [reflexivity|]. unfold finalColor. split.
  - intros [H15 Hmax].
    assert (HM : runMax rs = totalIn rs e).
    { specialize (Hle e He). destruct Hreach as [Hz|[e' [He' Ht]]]; [lia|].
      specialize (Hmax (ledgerRow rs (runMax rs) e') (in_map _ _ _ He')).
      unfold totalPoints in Hmax. simpl in Hmax. lia. }
    rewrite HM, Z.eqb_refl.
    apply Z.leb_le in H15. now rewrite H15.
  - intros Hntop.
    destruct ((15 <=? runMax rs) && (totalIn rs e =? runMax rs))%bool eqn:E;
      [|apply tierColor_cases].
    apply andb_true_iff in E. destruct E as [E1 E2].
    apply Z.leb_le in E1. apply Z.eqb_eq in E2.
    destruct Hntop. split; [lia|].
    intros r' Hr'. apply in_map_iff in Hr'. destruct Hr' as [e' [<- He']].
    unfold totalPoints. simpl. rewrite E2. now apply Hle.
Qed.

Lemma tier_classification_witness :
  aggregable (SHEETS_FOLDER demoWorld) = true /\
  exists rows,
    writesLedger sortByColumnA demoWorld rows /\
    forall r, In r rows ->
      let t := totalPoints r in
      let top := 15 <= t /\ forall r', In r' rows -> totalPoints r' <= t in
      cellB r = Some t /\
      (top -> background r = MOST_INVOLVED_MEMBER_COLOR) /\
      (~ top ->
       (t < 3 -> background r = DEFAULT_MEMBER_COLOR) /\
       (3 <= t < 15 -> background r = ACTIVE_MEMBER_COLOR) /\
       (15 <= t -> background r = INVOLVED_MEMBER_COLOR)).
Proof.
  split; [reflexivity|].
  apply (tier_classification sortByColumnA demoWorld). reflexivity.
Defined.

(** ** First names and summed points *)

Module LedgerFacts.

Lemma orElse_Some {A B : Type} (f : B -> option A) l x :
  fold_left (fun acc s => orElse acc (f s)) l (Some x) = Some x.
Proof. induction l as [|s l IH]; simpl; [reflexivity | exact IH]. Qed.

Lemma orElse_split {A B : Type} (f : B -> option A) l n :
  fold_left (fun acc s => orElse acc (f s)) l None = Some n ->
  exists before s after,
    l = before ++ s :: after /\
    (forall s', In s' before -> f s' = None) /\ f s = Some n.
Proof.
  induction l as [|s l IH]; simpl; [discriminate|].
  destruct (f s) as [x|] eqn:E; simpl.
  - rewrite orElse_Some. intros [= ->].
    exists [], s, l. split; [reflexivity|]. split; [intros ? []|exact E].
  - intros H. destruct (IH H) as [before [s0 [after [-> [Hb Hs]]]]].
    exists (s :: before), s0, after. split; [reflexivity|]. split; [|exact Hs].
    intros s' [<-|Hin]; [exact E | now apply Hb].
Qed.

Lemma orElse_first {A B : Type} (f : B -> option A) before s after n :
  (forall s', In s' before -> f s' = None) -> f s = Some n ->
  fold_left (fun acc s => orElse acc (f s)) (before ++ s :: after) None = Some n.
Proof.
  induction before as [|b before IH]; simpl; intros Hb Hs.
  - rewrite Hs. simpl. apply orElse_Some.
  - rewrite (Hb b) by now left. simpl. apply IH; [|exact Hs].
    intros s' H. apply Hb. now right.
Qed.

Lemma addPoints_Some {B : Type} (g : B -> option Z) l x :
  fold_left (fun acc s => addPoints acc (g s)) l (Some x) =
  Some (x + sumZ (map (fun s => Number (g s)) l)).
Proof.
  revert x. induction l as [|s l IH]; intros x; simpl.
  - f_equal. lia.
  - destruct (g s) as [y|]; simpl; rewrite IH; f_equal; lia.
Qed.

Lemma addPoints_None {B : Type} (g : B -> option Z) l :
  (forall s, In s l -> g s = None) ->
  fold_left (fun acc s => addPoints acc (g s)) l None = None.
Proof.
  induction l as [|s l IH]; simpl; intros H; [reflexivity|].
  rewrite (H s) by now left. simpl. apply IH. intros s' Hs. apply H. now right.
Qed.

Lemma addPoints_first {B : Type} (g : B -> option Z) before s after p :
  (forall s', In s' before -> g s' = None) -> g s = Some p ->
  fold_left (fun acc s => addPoints acc (g s)) (before ++ s :: after) None =
  Some (p + sumZ (map (fun s => Number (g s)) after)).
Proof.
  intros Hb Hs. rewrite fold_left_app, (addPoints_None g before Hb). simpl.
  rewrite Hs. simpl. apply addPoints_Some.
Qed.

Lemma sourceName_Some sheet e n :
  sourceName sheet e = Some n ->
  exists rec, lastRecord (recordsOf sheet) e = Some rec /\ colA rec = n.
Proof.
  unfold sourceName. destruct (lastRecord _ _) as [rec|]; simpl; [|discriminate].
  intros [= <-]. eauto.
Qed.

Lemma sourceName_None sheet e :
  sourceName sheet e = None <-> ~ In e (map email (recordsOf sheet)).
Proof.
  rewrite <- lastRecord_None. unfold sourceName.
  destruct (lastRecord _ _); simpl; split; congruence.
Qed.

Lemma sourcePoints_None sheet e :
  sourcePoints sheet e = None <-> ~ In e (map email (recordsOf sheet)).
Proof.
  rewrite <- lastRecord_None. unfold sourcePoints.
  destruct (lastRecord _ _); simpl; split; congruence.
Qed.

End LedgerFacts.

Import LedgerFacts.

(** C10. Case of the ledger.  Every row a run writes has its email without a
    capital letter, whatever the records spell, and has as its name the name
    cell of a record with that email, letter for letter. *)
Theorem ledger_case :
  forall sheet_sort w,
    aggregable (SHEETS_FOLDER w) = true ->
    exists rows,
      writesLedger sheet_sort w rows /\
      forall r, In r rows ->
        noCapital (cellC r) = true /\
        exists sheet rec,
          In sheet (sheetIds (SHEETS_FOLDER w)) /\
          In rec (recordsOf sheet) /\
          toLowerCase (colB rec) = cellC r /\
          colA rec = cellA r.
Proof.
  intros sheet_sort w H.
  destruct (ledger_of_aggregable sheet_sort w H) as [rs [_ [Hn [_ [_ Hw]]]]].
  eexists. split; [exact Hw|].
  intros r Hr. apply in_map_iff in Hr. destruct Hr as [e [<- He]]. simpl.
  apply get_Some_keys in He. destruct He as [n Hget].
  assert (Hcell : nameIn rs e = n) by (unfold nameIn; now rewrite Hget).
  rewrite Hn in Hget. apply orElse_split in Hget.
  destruct Hget as [before [sheet [after [HP [_ Hs]]]]].
  apply sourceName_Some in Hs. destruct Hs as [rec [Hlast Hname]].
  apply lastRecord_In in Hlast. destruct Hlast as [Hin He].
  split.
  - rewrite <- He. apply toLowerCase_noCapital.
  - exists sheet, rec. split; [|split; [exact Hin|split; [exact He|congruence]]].
    apply in_rev. unfold popOrder in HP. rewrite HP.
    apply in_or_app. right. now left.
Qed.

Lemma ledger_case_witness :
  aggregable (SHEETS_FOLDER demoWorld) = true /\
  exists rows,
    writesLedger sortByColumnA demoWorld rows /\
    forall r, In r rows ->
      noCapital (cellC r) = true /\
      exists sheet rec,
        In sheet (sheetIds (SHEETS_FOLDER demoWorld)) /\
        In rec (recordsOf sheet) /\
        toLowerCase (colB rec) = cellC r /\
        colA rec = cellA r.
Proof.
  split; [reflexivity|].
  apply (ledger_case sortByColumnA demoWorld). reflexivity.
Defined.

(** ** Conservation *)

Lemma ledger_total rs max :
  synced rs ->
  sumZ (map totalPoints (map (ledgerRow rs max) (keys (names rs)))) =
  sumZ (map snd (points rs)).
Proof.
  intros [Hk Hn]. rewrite map_map.
  rewrite <- sum_values by now rewrite <- Hk.
  rewrite <- Hk. reflexivity.
Qed.

(** Two records of one source with the same normalized email: the ledger
    holds the points of the second one only. *)
Lemma conservation_fails_on_repeat :
  exists rows,
    writesLedger sortByColumnA twiceWorld rows /\
    sumZ (map totalPoints rows) = 3 /\
    allRecordPoints (SHEETS_FOLDER twiceWorld) = 4 /\
    ~ conserves (SHEETS_FOLDER twiceWorld) rows.
Proof.
  eexists. split; [apply aggregate_writes; reflexivity|].
  split; [reflexivity|]. split; [reflexivity|].
  unfold conserves. vm_compute. discriminate.
Qed.

(** C1 (amended). Point conservation.  The totals of the ledger a run writes
    add up to the points ([defaultPoints + bonusPoints], a missing bonus
    counting 0) of the records that are the last of their normalized email in
    their source; so they add up to the points of every record of every
    source when no source holds two records with the same normalized
    email. *)
Theorem conservation :
  forall sheet_sort w,
    aggregable (SHEETS_FOLDER w) = true ->
    exists rows,
      writesLedger sheet_sort w rows /\
      sumZ (map totalPoints rows) =
      sumZ (map sourceTotal (sheetIds (SHEETS_FOLDER w))) /\
      ((forall s, In s (sheetIds (SHEETS_FOLDER w)) ->
                  NoDup (map email (recordsOf s))) ->
       conserves (SHEETS_FOLDER w) rows).
Proof.
  intros sheet_sort w H.
  destruct (ledger_of_aggregable sheet_sort w H) as [rs [S [_ [_ [Hs Hw]]]]].
  eexists. split; [exact Hw|].
  assert (Hsum : sumZ (map totalPoints (map (ledgerRow rs (runMax rs)) (keys (names rs)))) =
                 sumZ (map sourceTotal (sheetIds (SHEETS_FOLDER w)))).
  { rewrite (ledger_total _ _ S), Hs. apply sumZ_Permutation, Permutation_map.
    unfold popOrder. apply Permutation_sym, Permutation_rev. }
  split; [exact Hsum|].
  intros Hnd. unfold conserves, allRecordPoints. rewrite Hsum.
  f_equal. apply map_ext_in. intros s Hin.
  unfold sourceTotal. now rewrite counted_all by auto.
Qed.

Lemma conservation_witness :
  aggregable (SHEETS_FOLDER demoWorld) = true /\
  (forall s, In s (sheetIds (SHEETS_FOLDER demoWorld)) ->
             NoDup (map email (recordsOf s))) /\
  exists rows,
    writesLedger sortByColumnA demoWorld rows /\
    sumZ (map totalPoints rows) =
    sumZ (map sourceTotal (sheetIds (SHEETS_FOLDER demoWorld))) /\
    conserves (SHEETS_FOLDER demoWorld) rows.
Proof.
  assert (Hnd : forall s, In s (sheetIds (SHEETS_FOLDER demoWorld)) ->
                          NoDup (map email (recordsOf s))).
  { intros s [<-|[<-|[]]]; vm_compute;
      repeat constructor; simpl; intuition discriminate. }
  split; [reflexivity|]. split; [exact Hnd|].
  destruct (conservation sortByColumnA demoWorld eq_refl) as [rows [Hw [Hs Hc]]].
  exists rows. split; [exact Hw|]. split; [exact Hs | exact (Hc Hnd)].
Defined.

(** ** First seen *)

Lemma filter_once (l : list string) e :
  NoDup l -> In e l -> filter (fun x => (x =? e)%string) l = [e].
Proof.
  induction l as [|x l IH]; simpl; [tauto|].
  intros Hnd Hin. inversion Hnd as [|? ? Hx Hl]; subst.
  destruct (x =? e)%string eqn:E.
  - apply String.eqb_eq in E. subst x. f_equal.
    clear IH Hnd Hin Hl. induction l as [|y l IH]; simpl; [reflexivity|].
    destruct (y =? e)%string eqn:Ey.
    + apply String.eqb_eq in Ey. subst. destruct Hx. now left.
    + apply IH. intros H. apply Hx. now right.
  - apply String.eqb_neq in E. destruct Hin as [->|Hin]; [congruence|].
    now apply IH.
Qed.

Lemma filter_none (l : list string) e :
  ~ In e l -> filter (fun x => (x =? e)%string) l = [].
Proof.
  induction l as [|x l IH]; simpl; [reflexivity|].
  intros H. destruct (x =? e)%string eqn:E.
  - apply String.eqb_eq in E. subst. destruct H. now left.
  - apply IH. intros Hin. apply H. now right.
Qed.

Lemma rowsOf_ledger rs max e :
  rowsOf e (map (ledgerRow rs max) (keys (names rs))) =
  map (ledgerRow rs max) (filter (fun x => (x =? e)%string) (keys (names rs))).
Proof.
  unfold rowsOf. induction (keys (names rs)) as [|x l IH]; simpl; [reflexivity|].
  destruct (x =? e)%string; simpl; now rewrite IH.
Qed.

(** In a source twice, Eve's row takes the name and the points of her second
    record: the first-seen name is replaced and the first points are lost. *)
Lemma first_seen_fails_within_source :
  exists rows,
    writesLedger sortByColumnA twiceWorld rows /\
    rows = [{| cellA := "Eve F."; cellB := Some 3; cellC := "eve@x.com";
               background := ACTIVE_MEMBER_COLOR |}] /\
    firstSeenName (SHEETS_FOLDER twiceWorld) "eve@x.com" = Some "Eve Fox" /\
    allPoints (SHEETS_FOLDER twiceWorld) "eve@x.com" = 4 /\
    ~ firstSeenWins (SHEETS_FOLDER twiceWorld) rows.
Proof.
  eexists. split; [apply aggregate_writes; reflexivity|].
  split; [reflexivity|]. split; [reflexivity|]. split; [reflexivity|].
  intros H. destruct (H _ (or_introl eq_refl)) as [Hname _].
  vm_compute in Hname. discriminate.
Qed.

(** C8 (amended). First-seen merge rule.  Take the sources in the order the
    run reads them.  For an email [e], let [sheet] be the first source with a
    record for [e] and [rec] the last such record of [sheet].  The ledger has
    exactly one row for [e]; its name is the name of [rec], its email is [e],
    and its total is the points of [rec] plus what the sources read later add
    for [e], each of them the points of its own last record for [e].  So a
    source read later only adds points and never replaces the name or the
    email, while inside one source a later record for [e] replaces the earlier
    one, name and points. *)
Theorem first_seen_merge :
  forall sheet_sort w,
    aggregable (SHEETS_FOLDER w) = true ->
    exists rows,
      writesLedger sheet_sort w rows /\
      forall before sheet after e rec,
        popOrder (sheetIds (SHEETS_FOLDER w)) = before ++ sheet :: after ->
        (forall s, In s before -> ~ In e (map email (recordsOf s))) ->
        lastRecord (recordsOf sheet) e = Some rec ->
        exists r,
          rowsOf e rows = [r] /\
          cellA r = colA rec /\
          cellC r = e /\
          cellB r = Some (recordPoints sheet rec
                          + sumZ (map (fun s => Number (sourcePoints s e)) after)).
Proof.
  intros sheet_sort w H.
  destruct (ledger_of_aggregable sheet_sort w H) as [rs [S [Hn [Hp [_ Hw]]]]].
  eexists. split; [exact Hw|].
  intros before sheet after e rec HP Hb Hlast.
  assert (Hname : get (names rs) e = Some (colA rec)).
  { rewrite Hn. unfold firstName. rewrite HP. apply orElse_first.
    - intros s Hs. apply sourceName_None. now apply Hb.
    - unfold sourceName. now rewrite Hlast. }
  assert (Hpts : get (points rs) e =
                 Some (recordPoints sheet rec
                       + sumZ (map (fun s => Number (sourcePoints s e)) after))).
  { rewrite Hp. unfold sumPoints. rewrite HP. apply addPoints_first.
    - intros s Hs. apply sourcePoints_None. now apply Hb.
    - unfold sourcePoints. now rewrite Hlast. }
  exists (ledgerRow rs (runMax rs) e). split; [|split; [|split]].
  - rewrite rowsOf_ledger, filter_once; [reflexivity | apply (keys_once _ S) |].
    apply get_Some_keys. eauto.
  - simpl. unfold nameIn. now rewrite Hname.
  - reflexivity.
  - simpl. unfold totalIn. now rewrite Hpts.
Qed.

Lemma first_seen_merge_witness :
  aggregable (SHEETS_FOLDER annWorld) = true /\
  popOrder (sheetIds (SHEETS_FOLDER annWorld)) = [] ++ annPicnic :: [annGala] /\
  (forall s, In s [] -> ~ In "ann@x.com" (map email (recordsOf s))) /\
  lastRecord (recordsOf annPicnic) "ann@x.com" =
  Some (signIn "ANN B. LEE" "Ann@X.com" (Some 1) (Some 3)) /\
  exists rows,
    writesLedger sortByColumnA annWorld rows /\
    exists r,
      rowsOf "ann@x.com" rows = [r] /\
      cellA r = "ANN B. LEE" /\
      cellC r = "ann@x.com" /\
      cellB r = Some (4 + 2).
Proof.
  split; [reflexivity|]. split; [reflexivity|].
  split; [intros s []|]. split; [reflexivity|].
  destruct (first_seen_merge sortByColumnA annWorld eq_refl) as [rows [Hw Hrows]].
  exists rows. split; [exact Hw|].
  exact (Hrows [] annPicnic [annGala] "ann@x.com"
           (signIn "ANN B. LEE" "Ann@X.com" (Some 1) (Some 3))
           eq_refl (fun s (H : In s []) => match H with end) eq_refl).
Defined.

(** ** Order of the sources *)

Module OrderFacts.

Lemma addPoints_swap a x y :
  addPoints (addPoints a x) y = addPoints (addPoints a y) x.
Proof. destruct a, x, y; simpl; f_equal; lia. Qed.

Lemma fold_addPoints_Permutation {B : Type} (g : B -> option Z) l l' :
  Permutation l l' ->
  forall acc,
    fold_left (fun acc s => addPoints acc (g s)) l acc =
    fold_left (fun acc s => addPoints acc (g s)) l' acc.
Proof.
  induction 1 as [|x l l' _ IH|x y l|l l' l'' _ IH1 _ IH2]; intros acc; simpl.
  - reflexivity.
  - apply IH.
  - now rewrite addPoints_swap.
  - now rewrite IH1, IH2.
Qed.

Lemma sumPoints_Permutation ids ids' e :
  Permutation ids ids' ->
  sumPoints (popOrder ids) e = sumPoints (popOrder ids') e.
Proof.
  intros H. unfold sumPoints, popOrder.
  apply fold_addPoints_Permutation.
  rewrite <- !Permutation_rev. exact H.
Qed.

Lemma aggregable_Permutation f1 f2 :
  Permutation (sheetIds f1) (sheetIds f2) ->
  aggregable f1 = true -> aggregable f2 = true.
Proof.
  unfold aggregable. intros HP.
  destruct (sheetIds f1) as [|s1 l1] eqn:E1; [discriminate|].
  destruct (sheetIds f2) as [|s2 l2] eqn:E2.
  - apply Permutation_sym, Permutation_nil in HP. discriminate.
  - intros H. apply forallb_forall. intros s Hs.
    apply (Permutation_in _ (Permutation_sym HP)) in Hs.
    revert s Hs. now apply forallb_forall.
Qed.

Section TwoRuns.

Variables rs1 rs2 : response_set.
Hypothesis S1 : synced rs1.
Hypothesis S2 : synced rs2.
Hypothesis same_points : forall e, get (points rs1) e = get (points rs2) e.

Lemma same_total e : totalIn rs1 e = totalIn rs2 e.
Proof. unfold totalIn. now rewrite same_points. Qed.

Lemma same_keys_in e : In e (keys (names rs1)) <-> In e (keys (names rs2)).
Proof.
  rewrite (same_keys _ S1), (same_keys _ S2), <- !get_Some_keys, same_points.
  tauto.
Qed.

Lemma keys_Permutation : Permutation (keys (names rs1)) (keys (names rs2)).
Proof.
  apply NoDup_Permutation;
    [apply (keys_once _ S1) | apply (keys_once _ S2) | apply same_keys_in].
Qed.

End TwoRuns.

Lemma runMax_le rs1 rs2 :
  (forall e, get (points rs1) e = get (points rs2) e) ->
  (forall e, In e (keys (names rs1)) -> In e (keys (names rs2))) ->
  runMax rs1 <= runMax rs2.
Proof.
  intros Hp Hk.
  destruct (runMax_bounds rs1) as [_ [_ [Hz|[e [He Ht]]]]];
    destruct (runMax_bounds rs2) as [H0 [Hle _]]; [lia|].
  rewrite <- Ht, (same_total _ _ Hp). apply Hle. now apply Hk.
Qed.

Lemma runMax_same rs1 rs2 :
  synced rs1 -> synced rs2 ->
  (forall e, get (points rs1) e = get (points rs2) e) ->
  runMax rs1 = runMax rs2.
Proof.
  intros S1 S2 Hp.
  pose proof (runMax_le rs1 rs2 Hp
                (fun e => proj1 (same_keys_in rs1 rs2 S1 S2 Hp e))).
  pose proof (runMax_le rs2 rs1 (fun e => eq_sym (Hp e))
                (fun e => proj2 (same_keys_in rs1 rs2 S1 S2 Hp e))).
  lia.
Qed.

Lemma firstName_record ids e n :
  firstName (popOrder ids) e = Some n ->
  exists s rec, In s ids /\ In rec (recordsOf s) /\ email rec = e /\ colA rec = n.
Proof.
  intros H. apply orElse_split in H.
  destruct H as [before [s [after [HP [_ Hs]]]]].
  apply sourceName_Some in Hs. destruct Hs as [rec [Hlast Hname]].
  apply lastRecord_In in Hlast. destruct Hlast as [Hin He].
  exists s, rec. repeat split; try assumption.
  apply in_rev. unfold popOrder in HP. rewrite HP.
  apply in_or_app. right. now left.
Qed.

End OrderFacts.

Import OrderFacts.

(** Read in one order Ann's row is named "ANN B. LEE", in the other
    "Ann Lee". *)
Lemma order_changes_the_name :
  Permutation (sheetIds (SHEETS_FOLDER annWorld))
    (sheetIds (SHEETS_FOLDER annWorldSwapped)) /\
  exists rows1 rows2,
    writesLedger sortByColumnA annWorld rows1 /\
    writesLedger sortByColumnA annWorldSwapped rows2 /\
    map cellA rows1 = ["ANN B. LEE"] /\
    map cellA rows2 = ["Ann Lee"] /\
    ~ sameLedger rows1 rows2.
Proof.
  split; [apply perm_swap|].
  eexists. eexists.
  split; [apply aggregate_writes; reflexivity|].
  split; [apply aggregate_writes; reflexivity|].
  split; [reflexivity|]. split; [reflexivity|].
  intros H. apply Permutation_length_1 in H. discriminate.
Qed.

(** C5 (amended). Order of the sources.  Two folders that hold the same
    sources in different orders give ledgers with the same emails, each with
    the same total and the same tier.  The whole rows, names included, are
    the same when records with the same normalized email carry the same name;
    otherwise the name of a row is the one of the source read first, which is
    the one enumerated last. *)
Theorem order_independence :
  forall sheet_sort w1 w2,
    Permutation (sheetIds (SHEETS_FOLDER w1)) (sheetIds (SHEETS_FOLDER w2)) ->
    aggregable (SHEETS_FOLDER w1) = true ->
    exists rows1 rows2,
      writesLedger sheet_sort w1 rows1 /\
      writesLedger sheet_sort w2 rows2 /\
      Permutation (map withoutName rows1) (map withoutName rows2) /\
      (oneNamePerEmail (sheetIds (SHEETS_FOLDER w1)) -> sameLedger rows1 rows2).
Proof.
  intros sheet_sort w1 w2 HP H1.
  pose proof (aggregable_Permutation _ _ HP H1) as H2.
  destruct (ledger_of_aggregable sheet_sort w1 H1) as [rs1 [S1 [Hn1 [Hp1 [_ Hw1]]]]].
  destruct (ledger_of_aggregable sheet_sort w2 H2) as [rs2 [S2 [Hn2 [Hp2 [_ Hw2]]]]].
  assert (Hp : forall e, get (points rs1) e = get (points rs2) e).
  { intros e. rewrite Hp1, Hp2. now apply sumPoints_Permutation. }
  pose proof (runMax_same _ _ S1 S2 Hp) as HM.
  pose proof (keys_Permutation _ _ S1 S2 Hp) as HK.
  exists (map (ledgerRow rs1 (runMax rs1)) (keys (names rs1))),
         (map (ledgerRow rs2 (runMax rs2)) (keys (names rs2))).
  split; [exact Hw1|]. split; [exact Hw2|]. split.
  - rewrite !map_map.
    rewrite (map_ext (fun e => withoutName (ledgerRow rs1 (runMax rs1) e))
                     (fun e => withoutName (ledgerRow rs2 (runMax rs2) e))).
    + now apply Permutation_map.
    + intros e. unfold withoutName. simpl.
      now rewrite HM, (same_total _ _ Hp).
  - intros Hone. unfold sameLedger.
    rewrite (map_ext_in (ledgerRow rs1 (runMax rs1)) (ledgerRow rs2 (runMax rs2))).
    + now apply Permutation_map.
    + intros e He. unfold ledgerRow. rewrite HM, (same_total _ _ Hp).
      f_equal. unfold nameIn.
      apply get_Some_keys in He as Hget1. destruct Hget1 as [n1 Hg1].
      apply (same_keys_in _ _ S1 S2 Hp) in He.
      apply get_Some_keys in He. destruct He as [n2 Hg2].
      rewrite Hg1, Hg2. rewrite Hn1 in Hg1. rewrite Hn2 in Hg2.
      apply firstName_record in Hg1. destruct Hg1 as [s [rec [Hs [Hr [He1 <-]]]]].
      apply firstName_record in Hg2. destruct Hg2 as [s' [rec' [Hs' [Hr' [He2 <-]]]]].
      apply (Permutation_in _ (Permutation_sym HP)) in Hs'.
      apply (Hone s s' rec rec'); congruence.
Qed.

Lemma order_independence_witness :
  Permutation (sheetIds (SHEETS_FOLDER demoWorld))
    (sheetIds (SHEETS_FOLDER demoWorldSwapped)) /\
  aggregable (SHEETS_FOLDER demoWorld) = true /\
  oneNamePerEmail (sheetIds (SHEETS_FOLDER demoWorld)) /\
  exists rows1 rows2,
    writesLedger sortByColumnA demoWorld rows1 /\
    writesLedger sortByColumnA demoWorldSwapped rows2 /\
    Permutation (map withoutName rows1) (map withoutName rows2) /\
    sameLedger rows1 rows2.
Proof.
  assert (HP : Permutation (sheetIds (SHEETS_FOLDER demoWorld))
                 (sheetIds (SHEETS_FOLDER demoWorldSwapped)))
    by apply perm_swap.
  assert (Hone : oneNamePerEmail (sheetIds (SHEETS_FOLDER demoWorld))).
  { intros s s' rec rec' Hs Hs' Hr Hr' He.
    destruct Hs as [<-|[<-|[]]]; destruct Hs' as [<-|[<-|[]]];
      destruct Hr as [<-|[<-|[]]]; destruct Hr' as [<-|[<-|[]]];
      vm_compute in He; try discriminate; reflexivity. }
  split; [exact HP|]. split; [reflexivity|]. split; [exact Hone|].
  destruct (order_independence sortByColumnA demoWorld demoWorldSwapped HP eq_refl)
    as [rows1 [rows2 [Hw1 [Hw2 [Hcore Hsame]]]]].
  exists rows1, rows2.
  split; [exact Hw1|]. split; [exact Hw2|]. split; [exact Hcore | exact (Hsame Hone)].
Defined.

(** ** A source that cannot be read *)

Lemma eventsLoop_unreadable popped :
  (exists s, In s popped /\ tabResponses s = None) ->
  (forall s, In s popped -> tabResponses s = None \/ readable s = true) ->
  forall acc,
    match acc with Some rs => synced rs | None => True end ->
    eventsLoop popped acc = Threw TypeError.
Proof.
  induction popped as [|sheet rest IH]; intros [s [Hin Hs]] Hall acc Hacc.
  - destruct Hin.
  - simpl. destruct (Hall sheet (or_introl eq_refl)) as [Hnone|Hread].
    + now rewrite Hnone.
    + destruct Hin as [->|Hin]; [unfold readable in Hread; now rewrite Hs in Hread|].
      assert (Hex : exists s, In s rest /\ tabResponses s = None) by eauto.
      assert (Hall' : forall s, In s rest -> tabResponses s = None \/ readable s = true)
        by (intros s' Hs'; apply Hall; now right).
      destruct (getResponsesFromEvent_readable _ Hread) as [info [Hi D]].
      rewrite Hi. simpl. destruct acc as [rs|].
      * destruct (forIn_event info rs (is_synced _ _ D) Hacc) as [rs' [Hr [Sr' _]]].
        rewrite Hr. simpl. now apply IH.
      * apply IH; [exact Hex | exact Hall' | apply (is_synced _ _ D)].
Qed.

(** The run on a folder with an unreadable file throws, and the names and
    totals of the earlier ledger are gone by then. *)
Lemma failed_run_clears_the_ledger :
  snd (updateMemberPoints sortByColumnA brokenWorld) = Threw TypeError /\
  memberSheet (fst (updateMemberPoints sortByColumnA brokenWorld)) =
  [{| cellA := ""; cellB := None; cellC := "ann@x.com"; background := WHITE |};
   {| cellA := ""; cellB := None; cellC := "bob@x.com"; background := WHITE |}] /\
  ~ leavesLedgerUntouched sortByColumnA brokenWorld.
Proof.
  split; [reflexivity|]. split; [reflexivity|].
  intros [_ H]. vm_compute in H. discriminate.
Qed.

(** C3 (amended). A source that cannot be read.  When a file of the folder
    has no "Responses" tab to read (the other files being readable), the run
    throws and writes no row of a new ledger, partial or whole; the sources
    and the control panel are as before.  The ledger sheet is not: the run
    has cleared it first (line 215), so the names, totals and backgrounds of
    rows 3 to 1000 are gone and only the emails of column C remain. *)
Theorem abort_on_unreadable_source :
  forall sheet_sort w,
    (exists s, In s (sheetIds (SHEETS_FOLDER w)) /\ tabResponses s = None) ->
    (forall s, In s (sheetIds (SHEETS_FOLDER w)) ->
               tabResponses s = None \/ readable s = true) ->
    updateMemberPoints sheet_sort w =
    ({| SHEET := SHEET w;
        SHEETS_FOLDER := SHEETS_FOLDER w;
        memberSheet := map clearAB (firstn 998 (memberSheet w))
                         ++ skipn 998 (memberSheet w) |},
     Threw TypeError).
Proof.
  intros sheet_sort w [s [Hin Hs]] Hall.
  unfold updateMemberPoints, aggregate.
  rewrite (eventsLoop_unreadable (popOrder (sheetIds (SHEETS_FOLDER w)))).
  - reflexivity.
  - exists s. split; [|exact Hs]. unfold popOrder. now apply in_rev in Hin.
  - intros s' Hs'. apply Hall. unfold popOrder in Hs'. now apply in_rev.
  - exact I.
Qed.

Lemma abort_on_unreadable_source_witness :
  (exists s, In s (sheetIds (SHEETS_FOLDER brokenWorld)) /\ tabResponses s = None) /\
  (forall s, In s (sheetIds (SHEETS_FOLDER brokenWorld)) ->
             tabResponses s = None \/ readable s = true) /\
  updateMemberPoints sortByColumnA brokenWorld =
  ({| SHEET := SHEET brokenWorld;
      SHEETS_FOLDER := SHEETS_FOLDER brokenWorld;
      memberSheet := map clearAB (firstn 998 (memberSheet brokenWorld))
                       ++ skipn 998 (memberSheet brokenWorld) |},
   Threw TypeError).
Proof.
  assert (H1 : exists s, In s (sheetIds (SHEETS_FOLDER brokenWorld)) /\
                         tabResponses s = None).
  { exists brokenSheet. split; [right; left|]; reflexivity. }
  assert (H2 : forall s, In s (sheetIds (SHEETS_FOLDER brokenWorld)) ->
                         tabResponses s = None \/ readable s = true).
  { intros s [<-|[<-|[]]]; [right | left]; reflexivity. }
  split; [exact H1|]. split; [exact H2|].
  exact (abort_on_unreadable_source sortByColumnA brokenWorld H1 H2).
Defined.

(** ** Validation of the corrections *)

Lemma getCell_set (p : control_panel) a1 c a2 :
  getCell (set p a1 c) a2 = if (a1 =? a2)%string then c else getCell p a2.
Proof. unfold getCell. rewrite get_set. now destruct (a1 =? a2)%string. Qed.

Lemma report_rejected w errorCell :
  rejectedWith
    (onPanel (fun p => setFontColor errorCell "red" (setValue errorCell EMPTY_FIELD p)) w)
    errorCell w.
Proof.
  unfold rejectedWith, onPanel, getValue, setFontColor, setValue. simpl.
  split; [reflexivity|]. split; [reflexivity|]. split; [reflexivity|].
  rewrite !getCell_set, !String.eqb_refl. simpl.
  split; [reflexivity|]. split; [reflexivity|].
  intros a1 Hne. rewrite !getCell_set.
  destruct (errorCell =? a1)%string eqn:E; [|reflexivity].
  apply String.eqb_eq in E. congruence.
Qed.

(** Asked to correct an email into itself, [fixEmail] reports nothing and
    rewrites the source whose cells spell the email with capitals. *)
Lemma same_email_is_not_rejected :
  toLowerCase (getValue (SHEET sameEmailWorld) OLD_EMAIL_CELL) =
  toLowerCase (getValue (SHEET sameEmailWorld) NEW_EMAIL_CELL) /\
  snd (fixEmail sortByColumnA sameEmailWorld) = Returned tt /\
  getValue (SHEET (fst (fixEmail sortByColumnA sameEmailWorld))) EMAIL_ERROR_CELL = "" /\
  SHEETS_FOLDER (fst (fixEmail sortByColumnA sameEmailWorld)) <>
  SHEETS_FOLDER sameEmailWorld /\
  ~ turnedDown (fixEmail sortByColumnA sameEmailWorld) EMAIL_ERROR_CELL sameEmailWorld.
Proof.
  split; [reflexivity|]. split; [reflexivity|]. split; [reflexivity|].
  split; [vm_compute; discriminate|].
  intros [H _]. vm_compute in H. discriminate.
Qed.

(** C7 (amended). Validation of the corrections.  When one of its two fields
    is blank, each of [fixEmail], [fixName] and [deleteName] returns at once:
    it writes "One of the fields is empty" in red in its own error cell and
    touches no source, no ledger row and no other cell.  The message does not
    say which field is blank.  An old email equal to the new one is not a
    case the script turns down. *)
Theorem blank_field_rejected :
  forall sheet_sort w,
    (getValue (SHEET w) OLD_EMAIL_CELL = "" \/ getValue (SHEET w) NEW_EMAIL_CELL = "" ->
     rejectedWith (fixEmail sheet_sort w) EMAIL_ERROR_CELL w) /\
    (getValue (SHEET w) OLD_NAME_CELL = "" \/ getValue (SHEET w) NEW_NAME_CELL = "" ->
     rejectedWith (fixName sheet_sort w) NAME_ERROR_CELL w) /\
    (getValue (SHEET w) DEL_NAME_CELL = "" \/ getValue (SHEET w) DEL_EMAIL_CELL = "" ->
     rejectedWith (deleteName sheet_sort w) DEL_ERROR_CELL w).
Proof.
  intros sheet_sort w. split; [|split].
  - intros H. unfold fixEmail. rewrite !toLowerCase_blank.
    replace ((getValue (SHEET w) OLD_EMAIL_CELL =? "")%string
             || (getValue (SHEET w) NEW_EMAIL_CELL =? "")%string)%bool with true.
    + apply report_rejected.
    + symmetry. apply orb_true_iff.
      destruct H as [H|H]; [left | right]; now apply String.eqb_eq.
  - intros H. unfold fixName.
    replace ((getValue (SHEET w) OLD_NAME_CELL =? "")%string
             || (getValue (SHEET w) NEW_NAME_CELL =? "")%string)%bool with true.
    + apply report_rejected.
    + symmetry. apply orb_true_iff.
      destruct H as [H|H]; [left | right]; now apply String.eqb_eq.
  - intros H. unfold deleteName. rewrite !toLowerCase_blank.
    replace ((getValue (SHEET w) DEL_NAME_CELL =? "")%string
             || (getValue (SHEET w) DEL_EMAIL_CELL =? "")%string)%bool with true.
    + apply report_rejected.
    + symmetry. apply orb_true_iff.
      destruct H as [H|H]; [left | right]; now apply String.eqb_eq.
Qed.

Lemma blank_field_rejected_witness :
  (getValue (SHEET demoWorld) OLD_EMAIL_CELL = "" \/
   getValue (SHEET demoWorld) NEW_EMAIL_CELL = "") /\
  (getValue (SHEET demoWorld) OLD_NAME_CELL = "" \/
   getValue (SHEET demoWorld) NEW_NAME_CELL = "") /\
  (getValue (SHEET demoWorld) DEL_NAME_CELL = "" \/
   getValue (SHEET demoWorld) DEL_EMAIL_CELL = "") /\
  rejectedWith (fixEmail sortByColumnA demoWorld) EMAIL_ERROR_CELL demoWorld /\
  rejectedWith (fixName sortByColumnA demoWorld) NAME_ERROR_CELL demoWorld /\
  rejectedWith (deleteName sortByColumnA demoWorld) DEL_ERROR_CELL demoWorld.
Proof.
  destruct (blank_field_rejected sortByColumnA demoWorld) as [H1 [H2 H3]].
  split; [left; reflexivity|]. split; [left; reflexivity|].
  split; [left; reflexivity|].
  split; [apply H1 | split; [apply H2 | apply H3]]; left; reflexivity.
Defined.

(** ** Lookup *)

Module LookupFacts.

Lemma nameLoop_first user file cell rows :
  option_map snd (nameLoop user file cell rows) =
  option_map (fun r => Number (colD r) + Number cell)
    (find (isNamed user) (namedRows rows)).
Proof.
  induction rows as [|r rows IH]; simpl; [reflexivity|].
  rewrite toLowerCase_blank.
  destruct (colA r =? "")%string; simpl; [reflexivity|].
  unfold isNamed at 1.
  destruct (user =? toLowerCase (colA r))%string; [reflexivity | exact IH].
Qed.

Lemma getNameFromSheet_first user sheet :
  tabResponses sheet <> None ->
  exists nextEvent,
    getNameFromSheet user sheet = Returned nextEvent /\
    option_map snd nextEvent = option_map (recordPoints sheet) (firstMatch user sheet).
Proof.
  unfold getNameFromSheet, firstMatch, namedRowsOf, recordPoints, defaultPointsOf.
  destruct (tabResponses sheet) as [rows|]; [|congruence].
  intros _. eexists. split; [reflexivity|].
  rewrite nameLoop_first.
  destruct (find _ _); simpl; [f_equal; lia | reflexivity].
Qed.

Lemma advanced_refl user acc : advanced user [] acc acc.
Proof. unfold advanced. simpl. split; [lia|]. split; [lia | reflexivity]. Qed.

Lemma advanced_trans user l1 l2 acc acc1 acc' :
  advanced user l1 acc acc1 -> advanced user l2 acc1 acc' ->
  advanced user (l1 ++ l2) acc acc'.
Proof.
  intros [H1 [H2 H3]] [H1' [H2' H3']]. unfold advanced, attendedPoints in *.
  rewrite flat_map_app, length_app, sumZ_app.
  split; [lia|]. split; [lia|].
  intros H. apply app_eq_nil in H. destruct H as [Ha Hb].
  now rewrite (H3' Hb), (H3 Ha).
Qed.

Lemma findInFiles_advanced user sheets :
  (forall s, In s sheets -> tabResponses s <> None) ->
  forall acc,
    exists acc', findInFiles user sheets acc = Returned acc' /\
                 advanced user sheets acc acc'.
Proof.
  induction sheets as [|sheet rest IH]; intros Hall acc; simpl.
  - exists acc. split; [reflexivity | apply advanced_refl].
  - destruct (getNameFromSheet_first user sheet (Hall sheet (or_introl eq_refl)))
      as [nextEvent [Hn Hs]].
    rewrite Hn. simpl.
    assert (Hall' : forall s, In s rest -> tabResponses s <> None)
      by (intros s' Hs'; apply Hall; now right).
    unfold advanced, attendedPoints in *. simpl.
    destruct nextEvent as [[event point]|]; simpl in Hs;
      destruct (firstMatch user sheet) as [r|]; simpl in Hs; try discriminate.
    + injection Hs as Hs.
      match goal with
      | |- exists acc', _ _ _ ?acc1 = _ /\ _ =>
          destruct (IH Hall' acc1) as [acc' [Hr [H1 [H2 H3]]]]
      end.
      exists acc'. split; [exact Hr|]. simpl in *.
      split; [lia|]. split; [lia | discriminate].
    + destruct (IH Hall' acc) as [acc' [Hr [H1 [H2 H3]]]].
      exists acc'. split; [exact Hr|]. simpl.
      split; [lia|]. split; [lia | exact H3].
Qed.

Lemma findInSubfolder_advanced user sheets :
  (forall s, In s sheets -> tabResponses s <> None) ->
  forall acc,
    exists acc', findInSubfolder user sheets acc = Returned acc' /\
                 advanced user sheets acc acc'.
Proof.
  induction sheets as [|sheet rest IH]; intros Hall acc; simpl.
  - exists acc. split; [reflexivity | apply advanced_refl].
  - destruct (getNameFromSheet_first user sheet (Hall sheet (or_introl eq_refl)))
      as [nextEvent [Hn Hs]].
    rewrite Hn. simpl.
    assert (Hall' : forall s, In s rest -> tabResponses s <> None)
      by (intros s' Hs'; apply Hall; now right).
    unfold advanced, attendedPoints in *. simpl.
    destruct nextEvent as [[event point]|]; simpl in Hs;
      destruct (firstMatch user sheet) as [r|]; simpl in Hs; try discriminate.
    + injection Hs as Hs.
      match goal with
      | |- exists acc', _ _ _ ?acc1 = _ /\ _ =>
          destruct (IH Hall' acc1) as [acc' [Hr [H1 [H2 H3]]]]
      end.
      exists acc'. split; [exact Hr|]. simpl in *.
      split; [lia|]. split; [lia | discriminate].
    + destruct (IH Hall' acc) as [acc' [Hr [H1 [H2 H3]]]].
      exists acc'. split; [exact Hr|]. simpl.
      split; [lia|]. split; [lia | exact H3].
Qed.

Lemma findInSubfolders_advanced user subs :
  (forall s, In s (concat subs) -> tabResponses s <> None) ->
  forall acc,
    exists acc', findInSubfolders user subs acc = Returned acc' /\
                 advanced user (concat subs) acc acc'.
Proof.
  induction subs as [|sheets rest IH]; intros Hall acc; simpl.
  - exists acc. split; [reflexivity | apply advanced_refl].
  - destruct (findInSubfolder_advanced user sheets
                (fun s Hs => Hall s (in_or_app _ _ _ (or_introl Hs))) acc)
      as [acc1 [Hr1 Ha1]].
    rewrite Hr1. simpl.
    destruct (IH (fun s Hs => Hall s (in_or_app _ _ _ (or_intror Hs))) acc1)
      as [acc' [Hr Ha]].
    exists acc'. split; [exact Hr|]. eapply advanced_trans; eauto.
Qed.

End LookupFacts.

Import LookupFacts.

(** Two records of the quiz are Carol's; the lookup lists the quiz once,
    with the points of the first. *)
Lemma lookup_lists_a_source_once :
  matchingPoints "carol lee" (sheetIds quizFolder) = [1; 1] /\
  exists f,
    findScan "carol lee" quizFolder = Returned f /\
    numEvents f = 1%nat /\
    memberPoints f = 1 /\
    ~ lookupComplete "carol lee" quizFolder f.
Proof.
  split; [reflexivity|].
  eexists. split; [reflexivity|]. split; [reflexivity|]. split; [reflexivity|].
  intros [H _]. vm_compute in H. discriminate.
Qed.

(** ** Correcting an email *)

Module CorrectionFacts.

Lemma forEachSheet_all f sheets :
  (forall s, In s sheets -> snd (f s) = Returned tt) ->
  forEachSheet f sheets = (map (fun s => fst (f s)) sheets, Returned tt).
Proof.
  induction sheets as [|s rest IH]; intros H; simpl; [reflexivity|].
  pose proof (H s (or_introl eq_refl)) as Hs.
  destruct (f s) as [s' r]. simpl in Hs. subst r.
  rewrite IH by (intros s0 H0; apply H; now right). reflexivity.
Qed.

Lemma forEachSubfolder_all f subs :
  (forall s, In s (concat subs) -> snd (f s) = Returned tt) ->
  forEachSubfolder f subs = (map (map (fun s => fst (f s))) subs, Returned tt).
Proof.
  induction subs as [|sheets rest IH]; intros H; simpl; [reflexivity|].
  rewrite forEachSheet_all
    by (intros s Hs; apply H; simpl; apply in_or_app; now left).
  rewrite IH by (intros s Hs; apply H; simpl; apply in_or_app; now right).
  reflexivity.
Qed.

Lemma inAllSheets_all f w :
  (forall s, In s (sheetIds (SHEETS_FOLDER w)) -> snd (f s) = Returned tt) ->
  exists folder',
    inAllSheets f w = (with_SHEETS_FOLDER w folder', Returned tt) /\
    sheetIds folder' = map (fun s => fst (f s)) (sheetIds (SHEETS_FOLDER w)).
Proof.
  intros H. unfold inAllSheets, sheetIds in *.
  rewrite forEachSheet_all by (intros s Hs; apply H; apply in_or_app; now left).
  rewrite forEachSubfolder_all by (intros s Hs; apply H; apply in_or_app; now right).
  eexists. split; [reflexivity|]. simpl.
  now rewrite map_app, concat_map.
Qed.

Section Rename.

Variables new old : string.
Hypothesis new_nonblank : new <> "".
Hypothesis new_lower : toLowerCase new = new.
Hypothesis new_old : new <> old.

Local Notation "'rename'" := (correctedRecord new old).

Lemma records_replaceLoop rows :
  records (replaceLoop colB setColB new old rows) = map rename (records rows).
Proof.
  induction rows as [|r rows IH]; simpl; [reflexivity|].
  rewrite toLowerCase_blank.
  destruct (colB r =? "")%string eqn:E; simpl; [now rewrite E|].
  unfold correctedRecord at 1, email.
  destruct (toLowerCase (colB r) =? old)%string; simpl.
  - apply String.eqb_neq in new_nonblank. rewrite new_nonblank. now rewrite IH.
  - rewrite E. now rewrite IH.
Qed.

Lemma F2_replaceLoop rows :
  F2 (replaceLoop colB setColB new old rows) = F2 rows.
Proof.
  destruct rows as [|r rows]; simpl; [reflexivity|].
  destruct (toLowerCase (colB r) =? "")%string; simpl; [reflexivity|].
  now destruct (toLowerCase (colB r) =? old)%string.
Qed.

Lemma email_rename r :
  email (rename r) = if (email r =? old)%string then new else email r.
Proof.
  unfold correctedRecord.
  destruct (email r =? old)%string; [|reflexivity].
  unfold email. simpl. exact new_lower.
Qed.

Lemma colD_rename r : colD (rename r) = colD r.
Proof.
  unfold correctedRecord. now destruct (email r =? old)%string.
Qed.

Lemma find_map {A B : Type} (p : B -> bool) (f : A -> B) l :
  find p (map f l) = option_map f (find (fun x => p (f x)) l).
Proof.
  induction l as [|x l IH]; simpl; [reflexivity|].
  destruct (p (f x)); [reflexivity | exact IH].
Qed.

Lemma find_ext_in {A : Type} (p q : A -> bool) l :
  (forall x, In x l -> p x = q x) -> find p l = find q l.
Proof.
  induction l as [|x l IH]; intros H; simpl; [reflexivity|].
  rewrite (H x) by now left.
  destruct (q x); [reflexivity|]. apply IH. intros y Hy. apply H. now right.
Qed.

Lemma lastRecord_rename_old recs : lastRecord (map rename recs) old = None.
Proof.
  apply lastRecord_None. rewrite map_map. intros H.
  apply in_map_iff in H. destruct H as [r [He _]].
  rewrite email_rename in He.
  destruct (email r =? old)%string eqn:E; [congruence|].
  apply String.eqb_neq in E. contradiction.
Qed.

Lemma lastRecord_rename_new recs :
  ~ In new (map email recs) ->
  lastRecord (map rename recs) new = option_map rename (lastRecord recs old).
Proof.
  intros Hn. unfold lastRecord. rewrite <- map_rev, find_map. f_equal.
  apply find_ext_in. intros r Hr. apply in_rev in Hr.
  rewrite email_rename.
  destruct (email r =? old)%string; [apply String.eqb_refl|].
  apply String.eqb_neq. intros He. apply Hn. apply in_map_iff. eauto.
Qed.

Lemma rename_absent recs :
  ~ In old (map email recs) -> map rename recs = recs.
Proof.
  intros Hn. rewrite <- (map_id recs) at 2. apply map_ext_in.
  intros r Hr. unfold correctedRecord.
  destruct (email r =? old)%string eqn:E; [|reflexivity].
  apply String.eqb_eq in E. destruct Hn. apply in_map_iff. eauto.
Qed.

(** The file once [replaceEmailInSheet] is through with it. *)
Local Notation "'corrected' s" := (fst (replaceEmailInSheet new old s)) (at level 10, s at level 9).

Lemma replaceEmailInSheet_returns sheet :
  hasBothTabs sheet = true ->
  snd (replaceEmailInSheet new old sheet) = Returned tt.
Proof.
  unfold hasBothTabs, replaceEmailInSheet.
  destruct (tabFormResponses1 sheet); [|discriminate].
  now destruct (tabResponses sheet).
Qed.

Lemma recordsOf_corrected sheet :
  hasBothTabs sheet = true ->
  recordsOf (corrected sheet) = map rename (recordsOf sheet).
Proof.
  unfold hasBothTabs, replaceEmailInSheet, recordsOf.
  destruct (tabFormResponses1 sheet); [|discriminate].
  destruct (tabResponses sheet); [|discriminate].
  intros _. simpl. apply records_replaceLoop.
Qed.

Lemma defaultPointsOf_corrected sheet :
  hasBothTabs sheet = true ->
  defaultPointsOf (corrected sheet) = defaultPointsOf sheet.
Proof.
  unfold hasBothTabs, replaceEmailInSheet, defaultPointsOf.
  destruct (tabFormResponses1 sheet); [|discriminate].
  destruct (tabResponses sheet); [|discriminate].
  intros _. simpl. now rewrite F2_replaceLoop.
Qed.

Lemma readable_corrected sheet :
  hasBothTabs sheet = true ->
  readable (corrected sheet) = readable sheet.
Proof.
  unfold hasBothTabs, replaceEmailInSheet, readable.
  destruct (tabFormResponses1 sheet); [|discriminate].
  destruct (tabResponses sheet) as [rows|]; [|discriminate].
  intros _. simpl. rewrite F2_replaceLoop, records_replaceLoop.
  now destruct (records rows).
Qed.

Lemma recordPoints_corrected sheet r :
  hasBothTabs sheet = true ->
  recordPoints (corrected sheet) (rename r) = recordPoints sheet r.
Proof.
  intros H. unfold recordPoints.
  now rewrite defaultPointsOf_corrected, colD_rename.
Qed.

Lemma sourcePoints_corrected_old sheet :
  hasBothTabs sheet = true -> sourcePoints (corrected sheet) old = None.
Proof.
  intros H. unfold sourcePoints.
  now rewrite recordsOf_corrected, lastRecord_rename_old.
Qed.

(** A source that does not hold both emails gives, for the new one, what it
    gave for either. *)
Lemma sourcePoints_corrected_new sheet :
  hasBothTabs sheet = true ->
  ~ (In old (map email (recordsOf sheet)) /\ In new (map email (recordsOf sheet))) ->
  sourcePoints (corrected sheet) new =
  addPoints (sourcePoints sheet old) (sourcePoints sheet new).
Proof.
  intros H Hnot.
  destruct (in_dec string_dec old (map email (recordsOf sheet))) as [Hold|Hold].
  - assert (Hnew : ~ In new (map email (recordsOf sheet))) by tauto.
    apply sourcePoints_None in Hnew as Hn. rewrite Hn.
    unfold sourcePoints.
    rewrite recordsOf_corrected, lastRecord_rename_new by assumption.
    destruct (lastRecord (recordsOf sheet) old) as [r|]; simpl; [|reflexivity].
    now rewrite recordPoints_corrected.
  - apply sourcePoints_None in Hold as Ho. rewrite Ho. simpl.
    unfold sourcePoints.
    rewrite recordsOf_corrected, rename_absent by assumption.
    destruct (lastRecord (recordsOf sheet) new) as [r|]; simpl; [|reflexivity].
    f_equal. unfold recordPoints. now rewrite defaultPointsOf_corrected.
Qed.

End Rename.

Lemma addPoints_middle a b x y :
  addPoints (addPoints a b) (addPoints x y) =
  addPoints (addPoints a x) (addPoints b y).
Proof. destruct a, b, x, y; simpl; f_equal; lia. Qed.

Lemma fold_addPoints_both {B : Type} (ga gb : B -> option Z) l :
  forall acc1 acc2,
    fold_left (fun acc s => addPoints acc (addPoints (ga s) (gb s))) l
      (addPoints acc1 acc2) =
    addPoints (fold_left (fun acc s => addPoints acc (ga s)) l acc1)
              (fold_left (fun acc s => addPoints acc (gb s)) l acc2).
Proof.
  induction l as [|s l IH]; intros acc1 acc2; simpl; [reflexivity|].
  rewrite addPoints_middle. apply IH.
Qed.

Lemma fold_left_map {A B C : Type} (f : C -> B -> C) (g : A -> B) l :
  forall acc, fold_left f (map g l) acc = fold_left (fun c a => f c (g a)) l acc.
Proof. induction l as [|x l IH]; intros acc; simpl; [reflexivity | apply IH]. Qed.

Lemma fold_left_ext_in {A C : Type} (f g : C -> A -> C) l :
  (forall c a, In a l -> f c a = g c a) ->
  forall acc, fold_left f l acc = fold_left g l acc.
Proof.
  induction l as [|x l IH]; intros H acc; simpl; [reflexivity|].
  rewrite (H acc x) by now left. apply IH. intros c a Ha. apply H. now right.
Qed.

Lemma records_nonblank rows r : In r (records rows) -> email r <> "".
Proof.
  induction rows as [|x rows IH]; simpl; [tauto|].
  destruct (colB x =? "")%string eqn:E; [intros []|].
  intros [<-|H]; [|now apply IH].
  unfold email. intros H. apply String.eqb_neq in E. apply E.
  destruct (colB x); [reflexivity | discriminate].
Qed.

End CorrectionFacts.

Import CorrectionFacts.

Lemma getResponsesFromEvent_Returned sheet info :
  getResponsesFromEvent (tabResponses sheet) = Returned info -> readable sheet = true.
Proof.
  unfold getResponsesFromEvent, readable.
  destruct (tabResponses sheet) as [rows|]; [|discriminate].
  destruct (F2 rows) as [d|]; [now destruct (records rows)|].
  destruct rows as [|r rows]; simpl; [reflexivity|].
  rewrite toLowerCase_blank.
  destruct (colB r =? "")%string; [reflexivity | discriminate].
Qed.

Lemma eventsLoop_Returned popped :
  forall acc out,
    eventsLoop popped acc = Returned out -> forallb readable popped = true.
Proof.
  induction popped as [|sheet rest IH]; intros acc out; simpl; [reflexivity|].
  destruct (getResponsesFromEvent (tabResponses sheet)) as [info| |] eqn:E;
    simpl; try discriminate.
  rewrite (getResponsesFromEvent_Returned _ _ E). simpl.
  destruct acc as [rs|]; [|apply IH].
  destruct (forIn _ info rs); simpl; try discriminate. apply IH.
Qed.

Lemma aggregate_Returned folder rows :
  aggregate folder = Returned rows -> aggregable folder = true.
Proof.
  unfold aggregate, aggregable.
  destruct (eventsLoop (popOrder (sheetIds folder)) None) as [[rs|]| |] eqn:E;
    simpl; try discriminate.
  intros _. apply eventsLoop_Returned in E as Hr.
  destruct (sheetIds folder) as [|s l] eqn:Ei; [discriminate|].
  apply forallb_forall. intros s' Hs'. unfold popOrder in Hr.
  rewrite forallb_forall in Hr. apply Hr. now apply in_rev in Hs'.
Qed.

Lemma sumPoints_corrected new old ids :
  new <> "" -> toLowerCase new = new -> new <> old ->
  forallb hasBothTabs ids = true ->
  (forall s, In s ids ->
             ~ (In old (map email (recordsOf s)) /\ In new (map email (recordsOf s)))) ->
  let ids' := map (fun s => fst (replaceEmailInSheet new old s)) ids in
  sumPoints (popOrder ids') old = None /\
  sumPoints (popOrder ids') new =
  addPoints (sumPoints (popOrder ids) old) (sumPoints (popOrder ids) new).
Proof.
  intros Hnb Hlow Hne Htabs Hdis ids'. subst ids'.
  rewrite forallb_forall in Htabs.
  unfold sumPoints, popOrder. rewrite <- !map_rev. split.
  - apply addPoints_None. intros s Hs.
    apply in_map_iff in Hs. destruct Hs as [s0 [<- Hs0]]. apply in_rev in Hs0.
    apply sourcePoints_corrected_old; auto.
  - rewrite fold_left_map.
    rewrite (fold_left_ext_in _
               (fun acc s => addPoints acc (addPoints (sourcePoints s old)
                                                      (sourcePoints s new)))).
    + apply (fold_addPoints_both _ _ _ None None).
    + intros c s Hs. apply in_rev in Hs. f_equal.
      apply sourcePoints_corrected_new; auto.
Qed.

(** C6. Merge on rename.  Let an aggregation of the sources as they stand
    credit the email [a] with [x] points and the email [b] with [y] points
    (2 and 4 in spec.md), no source holding records of both, and let every
    file have its two tabs.  The correction of [a] into [b] returns; the
    ledger it leaves is the one aggregated from the corrected sources, with
    exactly one row for [b], of total [x + y], and no row for [a]. *)
Theorem merge_on_rename :
  forall sheet_sort w a b x y rows0 ra rb,
    toLowerCase (getValue (SHEET w) OLD_EMAIL_CELL) = a ->
    toLowerCase (getValue (SHEET w) NEW_EMAIL_CELL) = b ->
    forallb hasBothTabs (sheetIds (SHEETS_FOLDER w)) = true ->
    aggregate (SHEETS_FOLDER w) = Returned rows0 ->
    In ra rows0 -> cellC ra = a -> cellB ra = Some x ->
    In rb rows0 -> cellC rb = b -> cellB rb = Some y ->
    (forall s, In s (sheetIds (SHEETS_FOLDER w)) ->
               ~ (In a (map email (recordsOf s)) /\ In b (map email (recordsOf s)))) ->
    exists rows r,
      snd (fixEmail sheet_sort w) = Returned tt /\
      aggregate (SHEETS_FOLDER (fst (fixEmail sheet_sort w))) = Returned rows /\
      memberSheet (fst (fixEmail sheet_sort w)) =
      sheet_sort (writeRows rows (clearLedger (memberSheet w))) /\
      rowsOf b rows = [r] /\
      cellB r = Some (x + y) /\
      rowsOf a rows = [].
Proof.
  intros sheet_sort w a b x y rows0 ra rb Ha Hb Htabs Hagg Hra Hca Hxa Hrb Hcb Hyb Hdis.
  (* the ledger before the correction *)
  pose proof (aggregate_Returned _ _ Hagg) as Hable.
  destruct (ledger_of_aggregable sheet_sort w Hable) as [rs [S [_ [Hp [_ [Hagg' _]]]]]].
  rewrite Hagg in Hagg'. injection Hagg' as ->.
  assert (Hcredit : forall r e t, In r (map (ledgerRow rs (runMax rs)) (keys (names rs))) ->
                                  cellC r = e -> cellB r = Some t ->
                                  sumPoints (popOrder (sheetIds (SHEETS_FOLDER w))) e = Some t /\
                                  exists s, In s (sheetIds (SHEETS_FOLDER w)) /\
                                            In e (map email (recordsOf s))).
  { intros r e t Hr He Ht. apply in_map_iff in Hr. destruct Hr as [e' [<- Hin]].
    simpl in He, Ht. subst e'. injection Ht as Ht.
    rewrite (same_keys _ S) in Hin. apply get_Some_keys in Hin.
    destruct Hin as [v Hv]. unfold totalIn in Ht. rewrite Hv in Ht. simpl in Ht.
    subst v. rewrite Hp in Hv. split; [exact Hv|].
    destruct (in_dec string_dec e
                (flat_map (fun s => map email (recordsOf s))
                   (popOrder (sheetIds (SHEETS_FOLDER w))))) as [Hin|Hnin].
    - apply in_flat_map in Hin. destruct Hin as [s [Hs He]].
      exists s. split; [|exact He]. now apply in_rev.
    - unfold sumPoints in Hv. rewrite addPoints_None in Hv; [discriminate|].
      intros s Hs. apply sourcePoints_None. intros He. apply Hnin.
      apply in_flat_map. eauto. }
  destruct (Hcredit ra a x Hra Hca Hxa) as [Hsa [sa [Hsa_in Hsa_rec]]].
  destruct (Hcredit rb b y Hrb Hcb Hyb) as [Hsb [sb [Hsb_in Hsb_rec]]].
  assert (Hnba : a <> "").
  { apply in_map_iff in Hsa_rec. destruct Hsa_rec as [rec [<- Hrec]].
    unfold recordsOf in Hrec. destruct (tabResponses sa); [|destruct Hrec].
    eapply records_nonblank; eauto. }
  assert (Hnbb : b <> "").
  { apply in_map_iff in Hsb_rec. destruct Hsb_rec as [rec [<- Hrec]].
    unfold recordsOf in Hrec. destruct (tabResponses sb); [|destruct Hrec].
    eapply records_nonblank; eauto. }
  assert (Hne : b <> a).
  { intros ->. apply (Hdis sa Hsa_in). now split. }
  assert (Hlow : toLowerCase b = b) by (rewrite <- Hb; apply toLowerCase_idem).
  (* the walk over the sources *)
  apply String.eqb_neq in Hnba as Ea. apply String.eqb_neq in Hnbb as Eb.
  rewrite forallb_forall in Htabs.
  destruct (inAllSheets_all (replaceEmailInSheet b a) w) as [folder' [Hwalk Hids]].
  { intros s Hs. apply replaceEmailInSheet_returns. now apply Htabs. }
  (* the ledger after the correction *)
  set (w1 := with_SHEETS_FOLDER w folder').
  assert (Hable' : aggregable (SHEETS_FOLDER w1) = true).
  { unfold aggregable. simpl. rewrite Hids.
    destruct (map _ (sheetIds (SHEETS_FOLDER w))) as [|s0 l0] eqn:E'.
    - apply map_eq_nil in E'. rewrite E' in Hsa_in. destruct Hsa_in.
    - rewrite <- E'. apply forallb_forall. intros s2 Hs2.
      apply in_map_iff in Hs2. destruct Hs2 as [s1 [<- Hs1]].
      rewrite readable_corrected by auto.
      apply aggregable_spec in Hable. destruct Hable as [_ Hr].
      rewrite forallb_forall in Hr. now apply Hr. }
  destruct (ledger_of_aggregable sheet_sort w1 Hable')
    as [rs' [S' [_ [Hp' [_ [Hagg1 Hrun]]]]]].
  simpl in Hp'. rewrite Hids in Hp'.
  destruct (sumPoints_corrected b a (sheetIds (SHEETS_FOLDER w))
              Hnbb Hlow Hne) as [Hold Hnew].
  { now apply forallb_forall. }
  { exact Hdis. }
  rewrite Hsa, Hsb in Hnew. simpl in Hnew.
  assert (Hfix : exists p,
             fixEmail sheet_sort w =
             (with_SHEET
                (with_memberSheet w1
                   (sheet_sort
                      (writeRows (map (ledgerRow rs' (runMax rs')) (keys (names rs')))
                         (clearLedger (memberSheet w1))))) p,
              Returned tt)).
  { unfold fixEmail. rewrite Ha, Hb, Ea, Eb. simpl.
    unfold andThen. rewrite Hwalk. fold w1. rewrite Hrun.
    eexists. reflexivity. }
  destruct Hfix as [p Hfix]. rewrite Hfix. simpl.
  exists (map (ledgerRow rs' (runMax rs')) (keys (names rs'))),
         (ledgerRow rs' (runMax rs') b).
  split; [reflexivity|]. split; [exact Hagg1|]. split; [reflexivity|].
  split; [|split].
  - rewrite rowsOf_ledger, filter_once; [reflexivity | apply (keys_once _ S') |].
    rewrite (same_keys _ S'). apply get_Some_keys. rewrite Hp', Hnew. eauto.
  - simpl. unfold totalIn. now rewrite Hp', Hnew.
  - rewrite rowsOf_ledger, filter_none; [reflexivity|].
    rewrite (same_keys _ S'). apply get_None_keys. now rewrite Hp', Hold.
Qed.

Lemma merge_on_rename_witness :
  toLowerCase (getValue (SHEET aliceWorld) OLD_EMAIL_CELL) = "alice@x.com" /\
  toLowerCase (getValue (SHEET aliceWorld) NEW_EMAIL_CELL) = "alice2@x.com" /\
  forallb hasBothTabs (sheetIds (SHEETS_FOLDER aliceWorld)) = true /\
  aggregate (SHEETS_FOLDER aliceWorld) =
  Returned [{| cellA := "Alice Ray"; cellB := Some 4; cellC := "alice2@x.com";
               background := ACTIVE_MEMBER_COLOR |};
            {| cellA := "Alice Ray"; cellB := Some 2; cellC := "alice@x.com";
               background := DEFAULT_MEMBER_COLOR |}] /\
  (forall s, In s (sheetIds (SHEETS_FOLDER aliceWorld)) ->
             ~ (In "alice@x.com" (map email (recordsOf s)) /\
                In "alice2@x.com" (map email (recordsOf s)))) /\
  exists rows r,
    snd (fixEmail sortByColumnA aliceWorld) = Returned tt /\
    aggregate (SHEETS_FOLDER (fst (fixEmail sortByColumnA aliceWorld))) = Returned rows /\
    memberSheet (fst (fixEmail sortByColumnA aliceWorld)) =
    sortByColumnA (writeRows rows (clearLedger (memberSheet aliceWorld))) /\
    rowsOf "alice2@x.com" rows = [r] /\
    cellB r = Some (2 + 4) /\
    rowsOf "alice@x.com" rows = [].
Proof.
  assert (Hdis : forall s, In s (sheetIds (SHEETS_FOLDER aliceWorld)) ->
                           ~ (In "alice@x.com" (map email (recordsOf s)) /\
                              In "alice2@x.com" (map email (recordsOf s)))).
  { intros s [<-|[<-|[<-|[]]]] [H1 H2]; vm_compute in H1, H2;
      intuition discriminate. }
  split; [reflexivity|]. split; [reflexivity|]. split; [reflexivity|].
  split; [reflexivity|]. split; [exact Hdis|].
  exact (merge_on_rename sortByColumnA aliceWorld "alice@x.com" "alice2@x.com" 2 4
           _ {| cellA := "Alice Ray"; cellB := Some 2; cellC := "alice@x.com";
                background := DEFAULT_MEMBER_COLOR |}
           {| cellA := "Alice Ray"; cellB := Some 4; cellC := "alice2@x.com";
              background := ACTIVE_MEMBER_COLOR |}
           eq_refl eq_refl eq_refl eq_refl
           (or_intror (or_introl eq_refl)) eq_refl eq_refl
           (or_introl eq_refl) eq_refl eq_refl Hdis).
Defined.

(** ** Deleting a member *)

Module DeleteFacts.

Section Loop.

Context {R : Type}.
Variable blank : R.
Variables nameOf emailOf : R -> string.
Hypothesis blank_name : nameOf blank = "".

Lemma length_deleteRow index (tab : list R) :
  (length (deleteRow index tab) <= length tab)%nat.
Proof.
  unfold deleteRow. rewrite length_app, length_firstn, length_skipn. lia.
Qed.

(** The loop ends within the fuel [deleteNameInSheet] gives it. *)
Lemma deleteLoop_ends fuel : forall index delEmail delName (tab : list R),
  (length tab + 2 - index < fuel)%nat ->
  exists tab', deleteLoop blank nameOf emailOf fuel index delEmail delName tab = Some tab'.
Proof.
  induction fuel as [|fuel IH]; intros index delEmail delName tab Hlt; simpl; [lia|].
  destruct (toLowerCase (nameOf (rowAt blank tab index)) =? "")%string eqn:E; [eauto|].
  assert (Hin : (index - 2 < length tab)%nat).
  { destruct (Nat.lt_ge_cases (index - 2) (length tab)) as [H|H]; [exact H|].
    unfold rowAt in E. rewrite nth_overflow, blank_name in E by exact H.
    discriminate. }
  apply IH.
  destruct (_ && _)%bool; [pose proof (length_deleteRow index tab)|]; lia.
Qed.

Lemma In_deleteRow index (tab : list R) r :
  In r tab -> r <> rowAt blank tab index -> In r (deleteRow index tab).
Proof.
  unfold rowAt, deleteRow. generalize (index - 2)%nat as k. clear index.
  induction tab as [|x tab IH]; intros k Hin Hne; [destruct Hin|].
  destruct k as [|k]; simpl in *.
  - destruct Hin as [->|Hin]; [congruence | exact Hin].
  - destruct Hin as [->|Hin]; [now left | right; now apply IH].
Qed.

(** A row that does not match both fields is never deleted. *)
Lemma deleteLoop_keeps fuel : forall index delEmail delName (tab tab' : list R) r,
  deleteLoop blank nameOf emailOf fuel index delEmail delName tab = Some tab' ->
  In r tab ->
  ~ (toLowerCase (nameOf r) = delName /\ toLowerCase (emailOf r) = delEmail) ->
  In r tab'.
Proof.
  induction fuel as [|fuel IH]; intros index delEmail delName tab tab' r; simpl;
    [discriminate|].
  destruct (toLowerCase (nameOf (rowAt blank tab index)) =? "")%string;
    [intros [= <-]; tauto|].
  intros Hloop Hin Hnot.
  destruct ((toLowerCase (nameOf (rowAt blank tab index)) =? delName)%string
            && (toLowerCase (emailOf (rowAt blank tab index)) =? delEmail)%string)%bool
    eqn:E.
  - apply andb_true_iff in E. destruct E as [E1 E2].
    apply String.eqb_eq in E1, E2.
    apply (IH _ _ _ _ _ r Hloop); [|exact Hnot].
    apply In_deleteRow; [exact Hin|]. intros ->. tauto.
  - apply (IH _ _ _ _ _ r Hloop); assumption.
Qed.

End Loop.

Lemma deleteNameInSheet_returns delEmail delName sheet :
  hasBothTabs sheet = true ->
  snd (deleteNameInSheet delEmail delName sheet) = Returned tt.
Proof.
  unfold hasBothTabs, deleteNameInSheet.
  destruct (tabFormResponses1 sheet) as [form|]; [|discriminate].
  destruct (tabResponses sheet) as [resp|]; [|discriminate]. intros _.
  destruct (deleteLoop_ends blank_form formB formC eq_refl
              (S (length form)) 2 delEmail delName form) as [form' ->]; [lia|].
  destruct (deleteLoop_ends blank_response colA colB eq_refl
              (S (length resp)) 2 delEmail delName resp) as [resp' ->]; [lia|].
  reflexivity.
Qed.

(** The records that match on one field only stay in the source. *)
Lemma deleteNameInSheet_keeps delEmail delName sheet resp resp' r :
  tabResponses sheet = Some resp ->
  tabResponses (fst (deleteNameInSheet delEmail delName sheet)) = Some resp' ->
  In r resp ->
  ~ (toLowerCase (colA r) = delName /\ toLowerCase (colB r) = delEmail) ->
  In r resp'.
Proof.
  unfold deleteNameInSheet. intros Hresp. rewrite Hresp.
  destruct (tabFormResponses1 sheet) as [form|];
    [|cbn [fst]; rewrite Hresp; intros [= <-]; tauto].
  destruct (deleteLoop blank_form formB formC (S (length form)) 2 delEmail delName form)
    as [form'|]; [|cbn [fst]; rewrite Hresp; intros [= <-]; tauto].
  destruct (deleteLoop blank_response colA colB (S (length resp)) 2
              delEmail delName resp) as [resp1|] eqn:E;
    cbn [fst with_tabs tabResponses]; intros [= <-]; [|tauto].
  eapply deleteLoop_keeps; eauto.
Qed.

End DeleteFacts.

Import DeleteFacts.

(** C2. Deleting a member.  With two records of Bob in rows 3 and 4 of the
    list of the raffle, [deleteName] deletes row 3, moves on to row 4, which
    is blank by then, and stops: the second record, which has moved up to row
    3, is still in both tabs, and the ledger aggregated afterwards still
    credits Bob with its points. *)
Theorem delete_misses_adjacent_record :
  snd (deleteName sortByColumnA bobWorld) = Returned tt /\
  map tabResponses (sheetIds (SHEETS_FOLDER (fst (deleteName sortByColumnA bobWorld)))) =
  [Some [signIn "Ann Lee" "ann@x.com" None (Some 1);
         signIn "Bob Smith" "bob@x.com" (Some 1) None]] /\
  map tabFormResponses1
    (sheetIds (SHEETS_FOLDER (fst (deleteName sortByColumnA bobWorld)))) =
  [Some [{| formB := "Ann Lee"; formC := "ann@x.com" |};
         {| formB := "Bob Smith"; formC := "bob@x.com" |}]] /\
  aggregate (SHEETS_FOLDER (fst (deleteName sortByColumnA bobWorld))) =
  Returned [{| cellA := "Ann Lee"; cellB := Some 1; cellC := "ann@x.com";
               background := DEFAULT_MEMBER_COLOR |};
            {| cellA := "Bob Smith"; cellB := Some 2; cellC := "bob@x.com";
               background := DEFAULT_MEMBER_COLOR |}].
Proof. repeat split; reflexivity. Qed.

(** [deleteRow] takes the whole row of the sheet: with the record of row 2
    goes cell F2, and the record that moves up brings its own column F.  The
    namesake with another email is still on the list, but the event has lost
    its default points and the run that follows cannot add up its points. *)
Lemma delete_of_row_2_takes_F2 :
  map tabResponses
    (sheetIds (SHEETS_FOLDER (fst (deleteName sortByColumnA tombolaWorld)))) =
  [Some [signIn "Bob Smith" "robert@y.org" None None]] /\
  snd (deleteName sortByColumnA tombolaWorld) = OutOfModel.
Proof. split; reflexivity. Qed.

(** * Further properties *)

(** ** When a run completes, and what a gap in a list does *)









(** updateMemberPoints (lines 207-264).  On a folder without any
    spreadsheet [responseSet] is still [null] when line 264 reads
    [responseSet.names]: the run throws, and the ledger sheet has been
    cleared by then. *)
Theorem empty_folder_throws :
  forall sheet_sort w,
    sheetIds (SHEETS_FOLDER w) = [] ->
    updateMemberPoints sheet_sort w =
    (with_memberSheet w (clearLedger (memberSheet w)), Threw TypeError).
Proof.
  intros sheet_sort w H. unfold updateMemberPoints, aggregate.
  now rewrite H.
Qed.

Lemma orElse_None {A B : Type} (f : B -> option A) l :
  fold_left (fun acc s => orElse acc (f s)) l None = None <->
  forall s, In s l -> f s = None.
Proof.
  induction l as [|s l IH]; simpl; [tauto|].
  destruct (f s) as [x|] eqn:E; simpl.
  - rewrite orElse_Some. split; [discriminate|].
    intros H. specialize (H s (or_introl eq_refl)). congruence.
  - rewrite IH. split.
    + intros H s' [<-|Hs']; [exact E | now apply H].
    + intros H s' Hs'. apply H. now right.
Qed.

(** updateMemberPoints (lines 235-280).  The ledger a run writes has one row
    for each normalized email that a record of some source carries, and no
    other row: no email comes twice, whatever the number of events and of
    spellings. *)
Theorem one_row_per_email :
  forall sheet_sort w,
    aggregable (SHEETS_FOLDER w) = true ->
    exists rows,
      writesLedger sheet_sort w rows /\
      NoDup (map cellC rows) /\
      forall e,
        In e (map cellC rows) <->
        exists s, In s (sheetIds (SHEETS_FOLDER w)) /\ In e (map email (recordsOf s)).
Proof.
  intros sheet_sort w H.
  destruct (ledger_of_aggregable sheet_sort w H) as [rs [S [Hn [_ [_ Hw]]]]].
  eexists. split; [exact Hw|].
  assert (Hk : map cellC (map (ledgerRow rs (runMax rs)) (keys (names rs))) =
               keys (names rs)).
  { rewrite map_map. simpl. apply map_id. }
  rewrite Hk. split; [apply (keys_once _ S)|].
  intros e. rewrite <- get_Some_keys, Hn. split.
  - intros [n Hname]. apply firstName_record in Hname.
    destruct Hname as [s [rec [Hs [Hr [He _]]]]].
    exists s. split; [exact Hs|]. apply in_map_iff. eauto.
  - intros [s [Hs He]].
    destruct (firstName (popOrder (sheetIds (SHEETS_FOLDER w))) e) as [n|] eqn:E;
      [eauto|].
    unfold firstName in E. rewrite orElse_None in E.
    specialize (E s). unfold popOrder in E. rewrite <- in_rev in E.
    apply E in Hs. apply sourceName_None in Hs. contradiction.
Qed.

Lemma responsesLoop_gap dp pre r post :
  colB r = "" ->
  forall n p,
    responsesLoop dp (pre ++ r :: post) n p = responsesLoop dp pre n p.
Proof.
  intros Hr. induction pre as [|x pre IH]; intros n p; simpl.
  - now rewrite Hr.
  - destruct (toLowerCase (colB x) =? "")%string; [reflexivity|].
    destruct dp; [apply IH | reflexivity].
Qed.

(** getResponsesFromEvent (lines 347-364).  The first row with a blank email
    ends the list: that row and every row below it are read as if they were
    not there, even rows that carry a name, an email and points. *)
Theorem blank_email_ends_the_list :
  forall pre r post,
    colB r = "" ->
    getResponsesFromEvent (Some (pre ++ r :: post)) = getResponsesFromEvent (Some pre).
Proof.
  intros pre r post Hr. unfold getResponsesFromEvent.
  destruct pre as [|x pre].
  - simpl. now rewrite Hr.
  - change (F2 ((x :: pre) ++ r :: post)) with (F2 (x :: pre)).
    now apply responsesLoop_gap.
Qed.

Lemma empty_folder_throws_witness :
  sheetIds (SHEETS_FOLDER emptyWorld) = [] /\
  updateMemberPoints sortByColumnA emptyWorld =
  (with_memberSheet emptyWorld (clearLedger (memberSheet emptyWorld)), Threw TypeError).
Proof.
  split; [reflexivity|].
  apply (empty_folder_throws sortByColumnA emptyWorld). reflexivity.
Defined.

Lemma one_row_per_email_witness :
  aggregable (SHEETS_FOLDER annWorld) = true /\
  exists rows,
    writesLedger sortByColumnA annWorld rows /\
    NoDup (map cellC rows) /\
    forall e,
      In e (map cellC rows) <->
      exists s, In s (sheetIds (SHEETS_FOLDER annWorld)) /\
                In e (map email (recordsOf s)).
Proof.
  split; [reflexivity|].
  apply (one_row_per_email sortByColumnA annWorld). reflexivity.
Defined.

Lemma blank_email_ends_the_list_witness :
  colB (signIn "Zed Orr" "" (Some 5) None) = "" /\
  getResponsesFromEvent
    (Some ([signIn "Ann Lee" "ann@x.com" None (Some 2)]
             ++ signIn "Zed Orr" "" (Some 5) None
             :: [signIn "Bob Smith" "bob@x.com" (Some 1) None])) =
  getResponsesFromEvent (Some [signIn "Ann Lee" "ann@x.com" None (Some 2)]).
Proof.
  split; [reflexivity|].
  apply (blank_email_ends_the_list
           [signIn "Ann Lee" "ann@x.com" None (Some 2)]
           (signIn "Zed Orr" "" (Some 5) None)
           [signIn "Bob Smith" "bob@x.com" (Some 1) None]).
  reflexivity.
Defined.

(** ** What a run leaves below the new ledger *)

Lemma insertRow_Permutation r sorted : Permutation (r :: sorted) (insertRow r sorted).
Proof.
  induction sorted as [|x sorted IH]; simpl; [apply Permutation_refl|].
  destruct (rowBefore r x); [apply Permutation_refl|].
  eapply perm_trans; [apply perm_swap|]. now apply perm_skip.
Qed.

Lemma sortByColumnA_Permutation rows : Permutation rows (sortByColumnA rows).
Proof.
  induction rows as [|r rows IH]; simpl; [apply perm_nil|].
  eapply perm_trans; [apply perm_skip, IH | apply insertRow_Permutation].
Qed.

Lemma nth_error_clearLedger sheet i r :
  nth_error sheet i = Some r ->
  nth_error (clearLedger sheet) i = Some (if (i <? 998)%nat then clearAB r else r).
Proof.
  intros H. unfold clearLedger.
  assert (Hlen : (i < length sheet)%nat) by (apply nth_error_Some; congruence).
  destruct (i <? 998)%nat eqn:E.
  - apply Nat.ltb_lt in E as Hlt.
    rewrite nth_error_app1 by (rewrite length_map, length_firstn; lia).
    now rewrite nth_error_map, nth_error_firstn, E, H.
  - apply Nat.ltb_ge in E.
    rewrite nth_error_app2 by (rewrite length_map, length_firstn; lia).
    rewrite length_map, length_firstn, nth_error_skipn.
    replace (998 + (i - Nat.min 998 (length sheet)))%nat with i by lia.
    exact H.
Qed.

(** updateMemberPoints (lines 215, 278-280, 321).  Line 215 clears columns A
    and B of rows 3 to 1000 only.  So a row of the earlier ledger that lies
    below the rows of the new one is still in the sheet after the run: with
    its email in column C and a blank name and total when it lies within row
    1000, untouched when it lies beyond.  The sort only moves it. *)
Theorem old_rows_remain :
  forall sheet_sort w rows i r,
    (forall l, Permutation l (sheet_sort l)) ->
    aggregate (SHEETS_FOLDER w) = Returned rows ->
    nth_error (memberSheet w) i = Some r ->
    (length rows <= i)%nat ->
    In (if (i <? 998)%nat then clearAB r else r)
       (memberSheet (fst (updateMemberPoints sheet_sort w))).
Proof.
  intros sheet_sort w rows i r Hsort Hagg Hr Hi.
  unfold updateMemberPoints. rewrite Hagg. simpl.
  apply (Permutation_in _ (Hsort _)). unfold writeRows.
  apply in_or_app. right.
  apply nth_error_In with (n := (i - length rows)%nat).
  rewrite nth_error_skipn.
  replace (length rows + (i - length rows))%nat with i by lia.
  now apply nth_error_clearLedger.
Qed.

Lemma old_rows_remain_witness :
  (forall l, Permutation l (sortByColumnA l)) /\
  aggregate (SHEETS_FOLDER shrunkWorld) =
  Returned [{| cellA := "ANN B. LEE"; cellB := Some 6; cellC := "ann@x.com";
               background := ACTIVE_MEMBER_COLOR |}] /\
  nth_error (memberSheet shrunkWorld) 2 =
  Some {| cellA := "Cid Roy"; cellB := Some 15; cellC := "cid@x.com";
          background := MOST_INVOLVED_MEMBER_COLOR |} /\
  (1 <= 2)%nat /\
  In {| cellA := ""; cellB := None; cellC := "cid@x.com"; background := WHITE |}
     (memberSheet (fst (updateMemberPoints sortByColumnA shrunkWorld))).
Proof.
  split; [exact sortByColumnA_Permutation|]. split; [reflexivity|].
  split; [reflexivity|]. split; [lia|].
  exact (old_rows_remain sortByColumnA shrunkWorld _ 2 _
           sortByColumnA_Permutation eq_refl eq_refl (le_S 1 1 (le_n 1))).
Defined.

(** ** The ledger after an email was corrected *)

Module RenameFacts.

Section Other.

Variables new old : string.
Hypothesis new_nonblank : new <> "".
Hypothesis new_lower : toLowerCase new = new.
Hypothesis new_old : new <> old.

Local Notation "'rename'" := (correctedRecord new old).
Local Notation "'corrected' s" := (fst (replaceEmailInSheet new old s))
  (at level 10, s at level 9).

Lemma colA_rename r : colA (rename r) = colA r.
Proof. unfold correctedRecord. now destruct (email r =? old)%string. Qed.

Lemma rename_other r : email r <> old -> rename r = r.
Proof.
  intros H. unfold correctedRecord. apply String.eqb_neq in H. now rewrite H.
Qed.

Lemma lastRecord_rename_other recs e :
  e <> old -> e <> new ->
  lastRecord (map rename recs) e = lastRecord recs e.
Proof.
  intros Ho Hn. unfold lastRecord. rewrite <- map_rev, find_map.
  rewrite (find_ext_in _ (fun r => (email r =? e)%string)).
  - destruct (find _ (rev recs)) as [r|] eqn:E; simpl; [|reflexivity].
    apply find_some in E. destruct E as [_ E]. apply String.eqb_eq in E.
    rewrite rename_other; congruence.
  - intros r _. rewrite email_rename by exact new_lower.
    destruct (email r =? old)%string eqn:E; [|reflexivity].
    apply String.eqb_eq in E.
    transitivity false; [now apply String.eqb_neq | symmetry].
    apply String.eqb_neq. congruence.
Qed.

Lemma lastRecord_rename_either recs :
  lastRecord (map rename recs) new = option_map rename (lastOfEither recs old new).
Proof.
  unfold lastRecord, lastOfEither. rewrite <- map_rev, find_map. f_equal.
  apply find_ext_in. intros r _. rewrite email_rename by exact new_lower.
  destruct (email r =? old)%string; simpl; [apply String.eqb_refl | reflexivity].
Qed.

Lemma sourceName_corrected_other sheet e :
  hasBothTabs sheet = true -> e <> old -> e <> new ->
  sourceName (corrected sheet) e = sourceName sheet e.
Proof.
  intros H Ho Hn. unfold sourceName.
  now rewrite recordsOf_corrected, lastRecord_rename_other.
Qed.

Lemma sourcePoints_corrected_other sheet e :
  hasBothTabs sheet = true -> e <> old -> e <> new ->
  sourcePoints (corrected sheet) e = sourcePoints sheet e.
Proof.
  intros H Ho Hn. unfold sourcePoints.
  rewrite recordsOf_corrected, lastRecord_rename_other by assumption.
  destruct (lastRecord (recordsOf sheet) e); simpl; [|reflexivity].
  f_equal. unfold recordPoints. now rewrite defaultPointsOf_corrected.
Qed.

Lemma sourcePoints_corrected_either sheet :
  hasBothTabs sheet = true ->
  sourcePoints (corrected sheet) new = eitherPoints sheet old new.
Proof.
  intros H. unfold sourcePoints, eitherPoints.
  rewrite recordsOf_corrected, lastRecord_rename_either by assumption.
  destruct (lastOfEither (recordsOf sheet) old new); simpl; [|reflexivity].
  now rewrite recordPoints_corrected.
Qed.

Lemma sourceName_corrected_old sheet :
  hasBothTabs sheet = true -> sourceName (corrected sheet) old = None.
Proof.
  intros H. unfold sourceName.
  now rewrite recordsOf_corrected, lastRecord_rename_old.
Qed.

(** A source without the new email gives, for the new email, the name it
    gave for the old one. *)
Lemma sourceName_corrected_new sheet :
  hasBothTabs sheet = true ->
  ~ In new (map email (recordsOf sheet)) ->
  sourceName (corrected sheet) new = sourceName sheet old.
Proof.
  intros H Hn. unfold sourceName.
  rewrite recordsOf_corrected, lastRecord_rename_new by assumption.
  destruct (lastRecord (recordsOf sheet) old); simpl; [|reflexivity].
  now rewrite colA_rename.
Qed.

Lemma sourcePoints_corrected_fresh sheet :
  hasBothTabs sheet = true ->
  ~ In new (map email (recordsOf sheet)) ->
  sourcePoints (corrected sheet) new = sourcePoints sheet old.
Proof.
  intros H Hn. unfold sourcePoints.
  rewrite recordsOf_corrected, lastRecord_rename_new by assumption.
  destruct (lastRecord (recordsOf sheet) old); simpl; [|reflexivity].
  now rewrite recordPoints_corrected.
Qed.

End Other.

(** The lookups of the response set after the sources were mapped by [f]. *)
Lemma firstName_map f g ids e :
  (forall s, In s ids -> sourceName (f s) e = g s) ->
  firstName (popOrder (map f ids)) e =
  fold_left (fun acc s => orElse acc (g s)) (popOrder ids) None.
Proof.
  intros H. unfold firstName, popOrder. rewrite <- map_rev, fold_left_map.
  apply fold_left_ext_in. intros c s Hs. f_equal. apply H. now apply in_rev.
Qed.

Lemma sumPoints_map f g ids e :
  (forall s, In s ids -> sourcePoints (f s) e = g s) ->
  sumPoints (popOrder (map f ids)) e =
  fold_left (fun acc s => addPoints acc (g s)) (popOrder ids) None.
Proof.
  intros H. unfold sumPoints, popOrder. rewrite <- map_rev, fold_left_map.
  apply fold_left_ext_in. intros c s Hs. f_equal. apply H. now apply in_rev.
Qed.

Lemma addPoints_total {B : Type} (g : B -> option Z) l t :
  fold_left (fun acc s => addPoints acc (g s)) l None = Some t ->
  t = sumZ (map (fun s => Number (g s)) l).
Proof.
  induction l as [|s l IH]; simpl; [discriminate|].
  destruct (g s) as [x|]; simpl.
  - rewrite addPoints_Some. now intros [= <-].
  - intros H. rewrite (IH H). lia.
Qed.

(** The correction run from the panel, on a folder it can walk through. *)
Lemma fixEmail_runs sheet_sort w a b :
  toLowerCase (getValue (SHEET w) OLD_EMAIL_CELL) = a ->
  toLowerCase (getValue (SHEET w) NEW_EMAIL_CELL) = b ->
  a <> "" -> b <> "" ->
  forallb hasBothTabs (sheetIds (SHEETS_FOLDER w)) = true ->
  aggregable (SHEETS_FOLDER w) = true ->
  exists rs' folder' p,
    sheetIds folder' =
    map (fun s => fst (replaceEmailInSheet b a s)) (sheetIds (SHEETS_FOLDER w)) /\
    synced rs' /\
    (forall e, get (names rs') e = firstName (popOrder (sheetIds folder')) e) /\
    (forall e, get (points rs') e = sumPoints (popOrder (sheetIds folder')) e) /\
    aggregate folder' = Returned (map (ledgerRow rs' (runMax rs')) (keys (names rs'))) /\
    fixEmail sheet_sort w =
    (with_SHEET
       (with_memberSheet (with_SHEETS_FOLDER w folder')
          (sheet_sort
             (writeRows (map (ledgerRow rs' (runMax rs')) (keys (names rs')))
                (clearLedger (memberSheet w))))) p,
     Returned tt).
Proof.
  intros Ha Hb Hnba Hnbb Htabs Hable.
  apply String.eqb_neq in Hnba as Ea. apply String.eqb_neq in Hnbb as Eb.
  rewrite forallb_forall in Htabs.
  destruct (inAllSheets_all (replaceEmailInSheet b a) w) as [folder' [Hwalk Hids]].
  { intros s Hs. apply replaceEmailInSheet_returns. now apply Htabs. }
  set (w1 := with_SHEETS_FOLDER w folder').
  assert (Hable' : aggregable (SHEETS_FOLDER w1) = true).
  { apply aggregable_spec in Hable. destruct Hable as [Hne Hr].
    unfold aggregable. simpl. rewrite Hids.
    destruct (map _ (sheetIds (SHEETS_FOLDER w))) as [|s0 l0] eqn:E'.
    - apply map_eq_nil in E'. contradiction.
    - rewrite <- E'. apply forallb_forall. intros s2 Hs2.
      apply in_map_iff in Hs2. destruct Hs2 as [s1 [<- Hs1]].
      rewrite readable_corrected by auto.
      rewrite forallb_forall in Hr. now apply Hr. }
  destruct (ledger_of_aggregable sheet_sort w1 Hable')
    as [rs' [S' [Hn' [Hp' [_ [Hagg1 Hrun]]]]]].
  exists rs', folder'. simpl in Hn', Hp', Hagg1.
  assert (Hfix : exists p,
             fixEmail sheet_sort w =
             (with_SHEET
                (with_memberSheet w1
                   (sheet_sort
                      (writeRows (map (ledgerRow rs' (runMax rs')) (keys (names rs')))
                         (clearLedger (memberSheet w1))))) p,
              Returned tt)).
  { unfold fixEmail. rewrite Ha, Hb, Ea, Eb. simpl.
    unfold andThen. rewrite Hwalk. fold w1. rewrite Hrun.
    eexists. reflexivity. }
  destruct Hfix as [p Hfix]. exists p.
  repeat (split; [assumption|]). exact Hfix.
Qed.

End RenameFacts.

Import RenameFacts.

Lemma rowsOf_ledger_get rs max e :
  synced rs ->
  rowsOf e (map (ledgerRow rs max) (keys (names rs))) =
  match get (names rs) e with
  | Some _ => [ledgerRow rs max e]
  | None => []
  end.
Proof.
  intros S. rewrite rowsOf_ledger.
  destruct (get (names rs) e) as [n|] eqn:E.
  - rewrite filter_once; [reflexivity | apply (keys_once _ S) |].
    apply get_Some_keys. eauto.
  - rewrite filter_none; [reflexivity|]. now apply get_None_keys.
Qed.

(** fixEmail (lines 375-421) with replaceEmailInSheet and updateMemberPoints.
    The correction of [a] into [b] returns and leaves in the ledger sheet,
    written over the cleared sheet and sorted, rows of which none is for [a];
    the row of [b] totals, over the sources, the points of the last record
    that carried [a] or [b] there, so that in an event where both emails
    signed in only the later of the two records counts; every other email
    keeps the name and the total it had. *)
Theorem correction_totals :
  forall sheet_sort w a b rows0,
    toLowerCase (getValue (SHEET w) OLD_EMAIL_CELL) = a ->
    toLowerCase (getValue (SHEET w) NEW_EMAIL_CELL) = b ->
    a <> "" -> b <> "" -> a <> b ->
    forallb hasBothTabs (sheetIds (SHEETS_FOLDER w)) = true ->
    aggregate (SHEETS_FOLDER w) = Returned rows0 ->
    exists rows,
      snd (fixEmail sheet_sort w) = Returned tt /\
      aggregate (SHEETS_FOLDER (fst (fixEmail sheet_sort w))) = Returned rows /\
      memberSheet (fst (fixEmail sheet_sort w)) =
      sheet_sort (writeRows rows (clearLedger (memberSheet w))) /\
      rowsOf a rows = [] /\
      (forall r, In r rows -> cellC r = b ->
                 cellB r = Some (sumZ (map (fun s => Number (eitherPoints s a b))
                                         (sheetIds (SHEETS_FOLDER w))))) /\
      (forall e, e <> a -> e <> b ->
                 map nameAndTotal (rowsOf e rows) = map nameAndTotal (rowsOf e rows0)).
Proof.
  intros sheet_sort w a b rows0 Ha Hb Hnba Hnbb Hab Htabs Hagg.
  pose proof (aggregate_Returned _ _ Hagg) as Hable.
  destruct (ledger_of_aggregable sheet_sort w Hable) as [rs [S [Hn [Hp [_ [Hagg' _]]]]]].
  rewrite Hagg in Hagg'. injection Hagg' as ->.
  destruct (fixEmail_runs sheet_sort w a b Ha Hb Hnba Hnbb Htabs Hable)
    as [rs' [folder' [p [Hids [S' [Hn' [Hp' [Hagg1 Hfix]]]]]]]].
  assert (Hlow : toLowerCase b = b) by (rewrite <- Hb; apply toLowerCase_idem).
  assert (Hba : b <> a) by congruence.
  rewrite forallb_forall in Htabs.
  rewrite Hfix. simpl.
  eexists. split; [reflexivity|]. split; [exact Hagg1|]. split; [reflexivity|].
  split; [|split].
  - rewrite rowsOf_ledger_get by exact S'.
    rewrite Hn', Hids.
    rewrite (firstName_map _ (fun _ => None)).
    + replace (fold_left _ _ None) with (@None string); [reflexivity|].
      symmetry. apply orElse_None. reflexivity.
    + intros s Hs. apply sourceName_corrected_old; auto.
  - intros r Hr Hc. apply in_map_iff in Hr. destruct Hr as [e [<- He]].
    simpl in Hc. subst e. simpl. f_equal.
    rewrite (same_keys _ S') in He. apply get_Some_keys in He.
    destruct He as [t Ht]. unfold totalIn. rewrite Ht. simpl.
    rewrite Hp', Hids in Ht.
    rewrite (sumPoints_map _ (fun s => eitherPoints s a b)) in Ht.
    + apply addPoints_total in Ht. rewrite Ht.
      apply sumZ_Permutation, Permutation_map.
      unfold popOrder. apply Permutation_sym, Permutation_rev.
    + intros s Hs. apply sourcePoints_corrected_either; auto.
  - intros e Hea Heb.
    assert (Hname : get (names rs') e = get (names rs) e).
    { rewrite Hn', Hn, Hids. apply firstName_map.
      intros s Hs. apply sourceName_corrected_other; auto. }
    assert (Hpts : get (points rs') e = get (points rs) e).
    { rewrite Hp', Hp, Hids. apply sumPoints_map.
      intros s Hs. apply sourcePoints_corrected_other; auto. }
    rewrite !rowsOf_ledger_get by assumption. rewrite Hname.
    destruct (get (names rs) e) as [n|] eqn:E; [|reflexivity].
    unfold nameAndTotal. simpl. unfold nameIn, totalIn. now rewrite Hname, E, Hpts.
Qed.

Lemma correction_totals_witness :
  aggregate (SHEETS_FOLDER bothWorld) =
  Returned [{| cellA := "Bob Smith"; cellB := Some 4; cellC := "bob@x.com";
               background := ACTIVE_MEMBER_COLOR |};
            {| cellA := "Alice Ray"; cellB := Some 2; cellC := "alice@x.com";
               background := DEFAULT_MEMBER_COLOR |};
            {| cellA := "Alice Ray"; cellB := Some 3; cellC := "alice2@x.com";
               background := ACTIVE_MEMBER_COLOR |}] /\
  exists rows,
    snd (fixEmail sortByColumnA bothWorld) = Returned tt /\
    aggregate (SHEETS_FOLDER (fst (fixEmail sortByColumnA bothWorld))) = Returned rows /\
    memberSheet (fst (fixEmail sortByColumnA bothWorld)) =
    sortByColumnA (writeRows rows (clearLedger (memberSheet bothWorld))) /\
    rowsOf "alice@x.com" rows = [] /\
    (forall r, In r rows -> cellC r = "alice2@x.com" -> cellB r = Some 3) /\
    (forall e, e <> "alice@x.com" -> e <> "alice2@x.com" ->
               map nameAndTotal (rowsOf e rows) =
               map nameAndTotal
                 (rowsOf e
                    [{| cellA := "Bob Smith"; cellB := Some 4; cellC := "bob@x.com";
                        background := ACTIVE_MEMBER_COLOR |};
                     {| cellA := "Alice Ray"; cellB := Some 2; cellC := "alice@x.com";
                        background := DEFAULT_MEMBER_COLOR |};
                     {| cellA := "Alice Ray"; cellB := Some 3; cellC := "alice2@x.com";
                        background := ACTIVE_MEMBER_COLOR |}])).
Proof.
  split; [reflexivity|].
  apply (correction_totals sortByColumnA bothWorld "alice@x.com" "alice2@x.com");
    try reflexivity; discriminate.
Defined.

(** ** A correction into an email no source has *)

Module RelabelFacts.

Section Moved.

Variables rs rs' : response_set.
Variables a b : string.
Hypothesis S : synced rs.
Hypothesis S' : synced rs'.
Hypothesis a_b : a <> b.
Hypothesis names_old : get (names rs') a = None.
Hypothesis names_new : get (names rs) b = None.
Hypothesis names_moved : get (names rs') b = get (names rs) a.
Hypothesis points_moved : get (points rs') b = get (points rs) a.
Hypothesis names_other :
  forall e, e <> a -> e <> b -> get (names rs') e = get (names rs) e.
Hypothesis points_other :
  forall e, e <> a -> e <> b -> get (points rs') e = get (points rs) e.

Local Notation "'moved'" := (fun e : string => if (e =? a)%string then b else e).

Lemma moved_names e :
  In e (keys (names rs)) -> get (names rs') (moved e) = get (names rs) e.
Proof.
  intros He. cbv beta.
  destruct (String.eqb_spec e a) as [->|Hn]; [exact names_moved|].
  apply names_other; [exact Hn|].
  intros ->. apply get_None_keys in names_new. contradiction.
Qed.

Lemma moved_points e :
  In e (keys (names rs)) -> get (points rs') (moved e) = get (points rs) e.
Proof.
  intros He. cbv beta.
  destruct (String.eqb_spec e a) as [->|Hn]; [exact points_moved|].
  apply points_other; [exact Hn|].
  intros ->. apply get_None_keys in names_new. contradiction.
Qed.

Lemma moved_keys e' :
  In e' (keys (names rs')) <-> In e' (map moved (keys (names rs))).
Proof.
  rewrite in_map_iff. split.
  - intros He'.
    assert (Ha : e' <> a).
    { intros ->. apply get_None_keys in names_old. contradiction. }
    destruct (String.eqb_spec e' b) as [->|Hb].
    + exists a. rewrite String.eqb_refl. split; [reflexivity|].
      apply get_Some_keys. rewrite <- names_moved. now apply get_Some_keys.
    + exists e'. destruct (String.eqb_spec e' a); [contradiction|].
      split; [reflexivity|].
      apply get_Some_keys. rewrite <- names_other by assumption.
      now apply get_Some_keys.
  - intros [e [<- He]]. apply get_Some_keys. rewrite moved_names by exact He.
    now apply get_Some_keys.
Qed.

Lemma moved_NoDup : NoDup (map moved (keys (names rs))).
Proof.
  apply NoDup_map_NoDup_ForallPairs; [|apply (keys_once _ S)].
  intros x y Hx Hy.
  assert (Hb : forall e, In e (keys (names rs)) -> e <> b).
  { intros e He ->. apply get_None_keys in names_new. contradiction. }
  destruct (String.eqb_spec x a), (String.eqb_spec y a); intros E; subst;
    try reflexivity.
  - now apply Hb in Hy.
  - now apply Hb in Hx.
Qed.

Lemma moved_Permutation :
  Permutation (keys (names rs')) (map moved (keys (names rs))).
Proof.
  apply NoDup_Permutation;
    [apply (keys_once _ S') | apply moved_NoDup | apply moved_keys].
Qed.

Lemma moved_total e :
  In e (keys (names rs)) -> totalIn rs' (moved e) = totalIn rs e.
Proof. intros He. unfold totalIn. now rewrite moved_points. Qed.

Lemma moved_max : runMax rs' = runMax rs.
Proof.
  destruct (runMax_bounds rs) as [H0 [Hle Hr]].
  destruct (runMax_bounds rs') as [H0' [Hle' Hr']].
  assert (H1 : runMax rs' <= runMax rs).
  { destruct Hr' as [Hz|[e' [He' Ht]]]; [lia|].
    apply moved_keys, in_map_iff in He'. destruct He' as [e [<- He]].
    rewrite <- Ht, moved_total by exact He. now apply Hle. }
  assert (H2 : runMax rs <= runMax rs').
  { destruct Hr as [Hz|[e [He Ht]]]; [lia|].
    rewrite <- Ht, <- moved_total by exact He.
    apply Hle', moved_keys.
    exact (in_map moved _ _ He). }
  lia.
Qed.

Lemma moved_row e :
  In e (keys (names rs)) ->
  ledgerRow rs' (runMax rs') (moved e) = relabel a b (ledgerRow rs (runMax rs) e).
Proof.
  intros He. unfold ledgerRow, relabel, nameIn. cbn [cellC cellA cellB background].
  rewrite moved_names, moved_total, moved_max by exact He.
  destruct (e =? a)%string; reflexivity.
Qed.

Lemma moved_rows :
  Permutation (map (ledgerRow rs' (runMax rs')) (keys (names rs')))
              (map (relabel a b) (map (ledgerRow rs (runMax rs)) (keys (names rs)))).
Proof.
  rewrite moved_Permutation, !map_map.
  erewrite map_ext_in; [reflexivity|].
  intros e He. now apply moved_row.
Qed.

End Moved.

End RelabelFacts.

Import RelabelFacts.

Lemma hasBothTabs_corrected new old sheet :
  hasBothTabs sheet = true ->
  hasBothTabs (fst (replaceEmailInSheet new old sheet)) = true.
Proof.
  unfold hasBothTabs, replaceEmailInSheet.
  destruct (tabFormResponses1 sheet); [|discriminate].
  now destruct (tabResponses sheet).
Qed.

(** The correction into an email no source has, with the folder it leaves. *)
Lemma fixEmail_moves sheet_sort w a b rows0 :
  toLowerCase (getValue (SHEET w) OLD_EMAIL_CELL) = a ->
  toLowerCase (getValue (SHEET w) NEW_EMAIL_CELL) = b ->
  a <> "" -> b <> "" -> a <> b ->
  forallb hasBothTabs (sheetIds (SHEETS_FOLDER w)) = true ->
  aggregate (SHEETS_FOLDER w) = Returned rows0 ->
  (forall s, In s (sheetIds (SHEETS_FOLDER w)) ->
             ~ In b (map email (recordsOf s))) ->
  exists rows,
    snd (fixEmail sheet_sort w) = Returned tt /\
    aggregate (SHEETS_FOLDER (fst (fixEmail sheet_sort w))) = Returned rows /\
    memberSheet (fst (fixEmail sheet_sort w)) =
    sheet_sort (writeRows rows (clearLedger (memberSheet w))) /\
    Permutation rows (map (relabel a b) rows0) /\
    sheetIds (SHEETS_FOLDER (fst (fixEmail sheet_sort w))) =
    map (fun s => fst (replaceEmailInSheet b a s)) (sheetIds (SHEETS_FOLDER w)) /\
    ~ In b (map cellC rows0).
Proof.
  intros Ha Hb Hnba Hnbb Hab Htabs Hagg Hfresh.
  pose proof (aggregate_Returned _ _ Hagg) as Hable.
  destruct (ledger_of_aggregable sheet_sort w Hable) as [rs [S [Hn [Hp [_ [Hagg' _]]]]]].
  rewrite Hagg in Hagg'. injection Hagg' as ->.
  destruct (fixEmail_runs sheet_sort w a b Ha Hb Hnba Hnbb Htabs Hable)
    as [rs' [folder' [p [Hids [S' [Hn' [Hp' [Hagg1 Hfix]]]]]]]].
  assert (Hlow : toLowerCase b = b) by (rewrite <- Hb; apply toLowerCase_idem).
  assert (Hba : b <> a) by congruence.
  rewrite forallb_forall in Htabs.
  assert (Hnew : get (names rs) b = None).
  { rewrite Hn. unfold firstName. apply orElse_None.
    intros s Hs. apply sourceName_None, Hfresh. now apply in_rev. }
  rewrite Hfix. simpl.
  eexists. split; [reflexivity|]. split; [exact Hagg1|]. split; [reflexivity|].
  split; [|split; [exact Hids|]].
  - apply moved_rows; try assumption.
    + rewrite Hn', Hids. rewrite (firstName_map _ (fun _ => None)).
      * apply orElse_None. reflexivity.
      * intros s Hs. apply sourceName_corrected_old; auto.
    + rewrite Hn', Hn, Hids. apply firstName_map.
      intros s Hs. apply sourceName_corrected_new; auto.
    + rewrite Hp', Hp, Hids. apply sumPoints_map.
      intros s Hs. apply sourcePoints_corrected_fresh; auto.
    + intros e Hea Heb. rewrite Hn', Hn, Hids. apply firstName_map.
      intros s Hs. apply sourceName_corrected_other; auto.
    + intros e Hea Heb. rewrite Hp', Hp, Hids. apply sumPoints_map.
      intros s Hs. apply sourcePoints_corrected_other; auto.
  - rewrite map_map. simpl. rewrite map_id. now apply get_None_keys.
Qed.

(** fixEmail (lines 375-421) with replaceEmailInSheet and updateMemberPoints.
    When no source has the new email yet, the correction only moves the
    member: the rows it writes into the ledger sheet, over the cleared sheet
    and sorted, are the rows of the ledger before it, with the same names,
    totals and colours, where the row of the old email now carries the new
    one. *)
Theorem correction_moves_the_row :
  forall sheet_sort w a b rows0,
    toLowerCase (getValue (SHEET w) OLD_EMAIL_CELL) = a ->
    toLowerCase (getValue (SHEET w) NEW_EMAIL_CELL) = b ->
    a <> "" -> b <> "" -> a <> b ->
    forallb hasBothTabs (sheetIds (SHEETS_FOLDER w)) = true ->
    aggregate (SHEETS_FOLDER w) = Returned rows0 ->
    (forall s, In s (sheetIds (SHEETS_FOLDER w)) ->
               ~ In b (map email (recordsOf s))) ->
    exists rows,
      snd (fixEmail sheet_sort w) = Returned tt /\
      aggregate (SHEETS_FOLDER (fst (fixEmail sheet_sort w))) = Returned rows /\
      memberSheet (fst (fixEmail sheet_sort w)) =
      sheet_sort (writeRows rows (clearLedger (memberSheet w))) /\
      Permutation rows (map (relabel a b) rows0).
Proof.
  intros sheet_sort w a b rows0 Ha Hb Hnba Hnbb Hab Htabs Hagg Hfresh.
  destruct (fixEmail_moves sheet_sort w a b rows0 Ha Hb Hnba Hnbb Hab Htabs Hagg Hfresh)
    as [rows [Hret [Hagg1 [Hsheet [Hperm _]]]]].
  exists rows. auto.
Qed.

Lemma correction_moves_the_row_witness :
  (forall s, In s (sheetIds (SHEETS_FOLDER movedWorld)) ->
             ~ In "ann.lee@y.org" (map email (recordsOf s))) /\
  exists rows,
    snd (fixEmail sortByColumnA movedWorld) = Returned tt /\
    aggregate (SHEETS_FOLDER (fst (fixEmail sortByColumnA movedWorld))) = Returned rows /\
    memberSheet (fst (fixEmail sortByColumnA movedWorld)) =
    sortByColumnA (writeRows rows (clearLedger (memberSheet movedWorld))) /\
    Permutation rows
      [{| cellA := "Bob Smith"; cellB := Some 4; cellC := "bob@x.com";
          background := ACTIVE_MEMBER_COLOR |};
       {| cellA := "ANN B. LEE"; cellB := Some 6; cellC := "ann.lee@y.org";
          background := ACTIVE_MEMBER_COLOR |}].
Proof.
  assert (Hfresh : forall s, In s (sheetIds (SHEETS_FOLDER movedWorld)) ->
                             ~ In "ann.lee@y.org" (map email (recordsOf s))).
  { intros s Hs. simpl in Hs.
    destruct Hs as [<-|[<-|[<-|[]]]]; simpl; intros [H|[]]; discriminate H. }
  split; [exact Hfresh|].
  exact (correction_moves_the_row sortByColumnA movedWorld
           "ann@x.com" "ann.lee@y.org" _ eq_refl eq_refl
           ltac:(discriminate) ltac:(discriminate) ltac:(discriminate)
           eq_refl eq_refl Hfresh).
Defined.

(** ** A walk that meets a file without its tabs *)





(** ** The ledger after a name was corrected *)

(** The walk and the run that follows it, as the three corrections share
    them, on a folder the walk goes through. *)
Lemma walk_runs sheet_sort f c1 c2 w :
  (forall s, In s (sheetIds (SHEETS_FOLDER w)) -> snd (f s) = Returned tt) ->
  (forall s, In s (sheetIds (SHEETS_FOLDER w)) -> readable (fst (f s)) = readable s) ->
  aggregable (SHEETS_FOLDER w) = true ->
  exists rs' folder',
    sheetIds folder' = map (fun s => fst (f s)) (sheetIds (SHEETS_FOLDER w)) /\
    synced rs' /\
    (forall e, get (names rs') e = firstName (popOrder (sheetIds folder')) e) /\
    (forall e, get (points rs') e = sumPoints (popOrder (sheetIds folder')) e) /\
    aggregate folder' = Returned (map (ledgerRow rs' (runMax rs')) (keys (names rs'))) /\
    (inAllSheets f >>> updateMemberPoints sheet_sort >>>
     onPanel (setValue c1 "") >>> onPanel (setValue c2 "")) w =
    ({| SHEET := setValue c2 "" (setValue c1 "" (SHEET w));
        SHEETS_FOLDER := folder';
        memberSheet :=
          sheet_sort (writeRows (map (ledgerRow rs' (runMax rs')) (keys (names rs')))
                        (clearLedger (memberSheet w))) |},
     Returned tt).
Proof.
  intros Hret Hread Hable.
  destruct (inAllSheets_all f w Hret) as [folder' [Hwalk Hids]].
  set (w1 := with_SHEETS_FOLDER w folder').
  assert (Hable' : aggregable (SHEETS_FOLDER w1) = true).
  { apply aggregable_spec in Hable. destruct Hable as [Hne Hr].
    unfold aggregable. simpl. rewrite Hids.
    destruct (map _ (sheetIds (SHEETS_FOLDER w))) as [|s0 l0] eqn:E'.
    - apply map_eq_nil in E'. contradiction.
    - rewrite <- E'. apply forallb_forall. intros s2 Hs2.
      apply in_map_iff in Hs2. destruct Hs2 as [s1 [<- Hs1]].
      rewrite Hread by exact Hs1.
      rewrite forallb_forall in Hr. now apply Hr. }
  destruct (ledger_of_aggregable sheet_sort w1 Hable')
    as [rs' [S' [Hn' [Hp' [_ [Hagg1 Hrun]]]]]].
  exists rs', folder'. simpl in Hn', Hp', Hagg1.
  repeat (split; [assumption|]).
  unfold andThen. rewrite Hwalk. fold w1. rewrite Hrun. reflexivity.
Qed.

Module NameFacts.

Lemma Forall2_same {A : Type} (R : A -> A -> Prop) l :
  (forall x, R x x) -> Forall2 R l l.
Proof. intros H. induction l; constructor; auto. Qed.

Lemma sameButName_refl r : sameButName r r.
Proof. now repeat split. Qed.

Section Renamed.

Variables new old : string.
Hypothesis new_nonblank : new <> "".

Local Notation "'renamed' s" := (fst (replaceNameInSheet new old s)) (at level 10, s at level 9).
Local Notation "'lower'" := (toLowerCase old).

Lemma replaceLoop_sameButName rows :
  Forall2 sameButName rows (replaceLoop colA setColA new lower rows).
Proof.
  induction rows as [|r rows IH]; simpl; [constructor|].
  destruct (toLowerCase (colA r) =? "")%string.
  - apply Forall2_same, sameButName_refl.
  - constructor; [|exact IH].
    destruct (toLowerCase (colA r) =? lower)%string;
      [now repeat split | apply sameButName_refl].
Qed.

Lemma records_sameButName rows rows' :
  Forall2 sameButName rows rows' ->
  Forall2 sameButName (records rows) (records rows').
Proof.
  induction 1 as [|r r' rows rows' [Hb Hr] _ IH]; simpl; [constructor|].
  rewrite Hb. destruct (colB r =? "")%string; constructor; [|exact IH].
  now split.
Qed.

Lemma F2_sameButName rows rows' :
  Forall2 sameButName rows rows' -> F2 rows' = F2 rows.
Proof. intros [|r r' ? ? [_ [_ Hf]] _]; simpl; [reflexivity | exact Hf]. Qed.

Lemma lastRecord_sameButName recs recs' e :
  Forall2 sameButName recs recs' ->
  match lastRecord recs e, lastRecord recs' e with
  | Some r, Some r' => sameButName r r'
  | None, None => True
  | _, _ => False
  end.
Proof.
  induction 1 as [|r r' recs recs' Hr _ IH]; [exact I|].
  rewrite !lastRecord_cons.
  destruct (lastRecord recs e), (lastRecord recs' e); try contradiction;
    [exact IH|].
  unfold email. destruct Hr as [Hb Hr]. rewrite Hb.
  destruct (toLowerCase (colB r) =? e)%string; [now split | exact I].
Qed.

Lemma replaceNameInSheet_returns sheet :
  hasBothTabs sheet = true ->
  snd (replaceNameInSheet new old sheet) = Returned tt.
Proof.
  unfold hasBothTabs, replaceNameInSheet.
  destruct (tabFormResponses1 sheet); [|discriminate].
  now destruct (tabResponses sheet).
Qed.

Lemma tabResponses_renamed sheet :
  hasBothTabs sheet = true ->
  exists rows,
    tabResponses sheet = Some rows /\
    tabResponses (renamed sheet) = Some (replaceLoop colA setColA new lower rows).
Proof.
  unfold hasBothTabs, replaceNameInSheet.
  destruct (tabFormResponses1 sheet); [|discriminate].
  destruct (tabResponses sheet) as [rows|]; [|discriminate].
  intros _. exists rows. split; reflexivity.
Qed.

Lemma recordsOf_renamed sheet :
  hasBothTabs sheet = true ->
  Forall2 sameButName (recordsOf sheet) (recordsOf (renamed sheet)).
Proof.
  intros H. destruct (tabResponses_renamed sheet H) as [rows [E1 E2]].
  unfold recordsOf. rewrite E1, E2.
  apply records_sameButName, replaceLoop_sameButName.
Qed.

Lemma defaultPointsOf_renamed sheet :
  hasBothTabs sheet = true ->
  defaultPointsOf (renamed sheet) = defaultPointsOf sheet.
Proof.
  intros H. destruct (tabResponses_renamed sheet H) as [rows [E1 E2]].
  unfold defaultPointsOf. rewrite E1, E2.
  now rewrite (F2_sameButName _ _ (replaceLoop_sameButName rows)).
Qed.

Lemma readable_renamed sheet :
  hasBothTabs sheet = true -> readable (renamed sheet) = readable sheet.
Proof.
  intros H. destruct (tabResponses_renamed sheet H) as [rows [E1 E2]].
  unfold readable. rewrite E1, E2.
  rewrite (F2_sameButName _ _ (replaceLoop_sameButName rows)).
  pose proof (records_sameButName _ _ (replaceLoop_sameButName rows)) as HR.
  destruct HR; reflexivity.
Qed.

Lemma sourcePoints_renamed sheet e :
  hasBothTabs sheet = true ->
  sourcePoints (renamed sheet) e = sourcePoints sheet e.
Proof.
  intros H. unfold sourcePoints.
  pose proof (lastRecord_sameButName _ _ e (recordsOf_renamed sheet H)) as HL.
  destruct (lastRecord (recordsOf sheet) e) as [r|],
           (lastRecord (recordsOf (renamed sheet)) e) as [r'|];
    try contradiction; [|reflexivity].
  simpl. unfold recordPoints. rewrite defaultPointsOf_renamed by exact H.
  destruct HL as [_ [Hd _]]. now rewrite Hd.
Qed.

Lemma colB_renamedRecord r : colB (renamedRecord new lower r) = colB r.
Proof.
  unfold renamedRecord. now destruct (toLowerCase (colA r) =? lower)%string.
Qed.

(** With a name on every record the loop reaches all of them. *)
Lemma records_renamed rows :
  (forall r, In r (records rows) -> colA r <> "") ->
  records (replaceLoop colA setColA new lower rows) =
  map (renamedRecord new lower) (records rows).
Proof.
  induction rows as [|r rows IH]; simpl; [reflexivity|].
  rewrite toLowerCase_blank.
  destruct (colB r =? "")%string eqn:Eb.
  - intros _. destruct (colA r =? "")%string; simpl; [now rewrite Eb|].
    destruct (toLowerCase (colA r) =? lower)%string; simpl; now rewrite Eb.
  - intros Hn.
    assert (Ea : (colA r =? "")%string = false).
    { apply String.eqb_neq, Hn. now left. }
    rewrite Ea.
    change (if (toLowerCase (colA r) =? lower)%string then setColA new r else r)
      with (renamedRecord new lower r).
    cbn [records]. rewrite colB_renamedRecord, Eb.
    rewrite IH; [reflexivity | intros r0 H0; apply Hn; now right].
Qed.

Lemma recordsOf_allNamed sheet :
  hasBothTabs sheet = true -> allNamed sheet ->
  recordsOf (renamed sheet) = map (renamedRecord new lower) (recordsOf sheet).
Proof.
  intros H Hn. destruct (tabResponses_renamed sheet H) as [rows [E1 E2]].
  unfold allNamed, recordsOf in *. rewrite E1 in *. rewrite E2.
  now apply records_renamed.
Qed.

Lemma email_renamedRecord r : email (renamedRecord new lower r) = email r.
Proof.
  unfold renamedRecord. now destruct (toLowerCase (colA r) =? lower)%string.
Qed.

Lemma colA_renamedRecord r :
  colA (renamedRecord new lower r) = renamedName new lower (colA r).
Proof.
  unfold renamedRecord, renamedName.
  now destruct (toLowerCase (colA r) =? lower)%string.
Qed.

Lemma sourceName_renamed sheet e :
  hasBothTabs sheet = true -> allNamed sheet ->
  sourceName (renamed sheet) e = option_map (renamedName new lower) (sourceName sheet e).
Proof.
  intros H Hn. unfold sourceName, lastRecord.
  rewrite recordsOf_allNamed, <- map_rev, find_map by assumption.
  rewrite (find_ext_in _ (fun r => (email r =? e)%string))
    by (intros r _; now rewrite email_renamedRecord).
  destruct (find _ _); simpl; [|reflexivity].
  now rewrite colA_renamedRecord.
Qed.

End Renamed.

Lemma orElse_map {A B S : Type} (h : A -> B) (g : S -> option A) l :
  forall init,
    fold_left (fun acc s => orElse acc (option_map h (g s))) l (option_map h init) =
    option_map h (fold_left (fun acc s => orElse acc (g s)) l init).
Proof.
  induction l as [|s l IH]; intros init; simpl; [reflexivity|].
  rewrite <- IH. f_equal. now destruct init, (g s).
Qed.

(** The rename run from the panel, on a folder it can walk through. *)
Lemma fixName_runs sheet_sort w old new :
  getValue (SHEET w) OLD_NAME_CELL = old ->
  getValue (SHEET w) NEW_NAME_CELL = new ->
  old <> "" -> new <> "" ->
  forallb hasBothTabs (sheetIds (SHEETS_FOLDER w)) = true ->
  aggregable (SHEETS_FOLDER w) = true ->
  exists rs' folder',
    sheetIds folder' =
    map (fun s => fst (replaceNameInSheet new old s)) (sheetIds (SHEETS_FOLDER w)) /\
    synced rs' /\
    (forall e, get (names rs') e = firstName (popOrder (sheetIds folder')) e) /\
    (forall e, get (points rs') e = sumPoints (popOrder (sheetIds (SHEETS_FOLDER w))) e) /\
    aggregate folder' = Returned (map (ledgerRow rs' (runMax rs')) (keys (names rs'))) /\
    fixName sheet_sort w =
    ({| SHEET := setValue NEW_NAME_CELL "" (setValue OLD_NAME_CELL "" (SHEET w));
        SHEETS_FOLDER := folder';
        memberSheet :=
          sheet_sort (writeRows (map (ledgerRow rs' (runMax rs')) (keys (names rs')))
                        (clearLedger (memberSheet w))) |},
     Returned tt).
Proof.
  intros Ho Hn Hnbo Hnbn Htabs Hable.
  rewrite forallb_forall in Htabs.
  destruct (walk_runs sheet_sort (replaceNameInSheet new old)
              OLD_NAME_CELL NEW_NAME_CELL w)
    as [rs' [folder' [Hids [S' [Hn' [Hp' [Hagg Hrun]]]]]]].
  - intros s Hs. apply replaceNameInSheet_returns. now apply Htabs.
  - intros s Hs. apply readable_renamed. now apply Htabs.
  - exact Hable.
  - exists rs', folder'.
    split; [exact Hids|]. split; [exact S'|]. split; [exact Hn'|].
    split; [|split; [exact Hagg|]].
    + intros e. rewrite Hp', Hids. apply sumPoints_map.
      intros s Hs. apply sourcePoints_renamed. now apply Htabs.
    + unfold fixName. rewrite Ho, Hn.
      apply String.eqb_neq in Hnbo, Hnbn. rewrite Hnbo, Hnbn. simpl.
      exact Hrun.
Qed.

End NameFacts.

Import NameFacts.

(** fixName (lines 480-527) with replaceNameInSheet (lines 530-579) and
    updateMemberPoints.  A rename changes names only: the ledger written after
    it has, up to the order of the rows, the emails, the totals and the
    colours of the ledger before it. *)
Theorem rename_keeps_totals :
  forall sheet_sort w rows0,
    getValue (SHEET w) OLD_NAME_CELL <> "" ->
    getValue (SHEET w) NEW_NAME_CELL <> "" ->
    forallb hasBothTabs (sheetIds (SHEETS_FOLDER w)) = true ->
    aggregate (SHEETS_FOLDER w) = Returned rows0 ->
    exists rows,
      snd (fixName sheet_sort w) = Returned tt /\
      aggregate (SHEETS_FOLDER (fst (fixName sheet_sort w))) = Returned rows /\
      memberSheet (fst (fixName sheet_sort w)) =
      sheet_sort (writeRows rows (clearLedger (memberSheet w))) /\
      Permutation (map withoutName rows) (map withoutName rows0).
Proof.
  intros sheet_sort w rows0 Hnbo Hnbn Htabs Hagg.
  pose proof (aggregate_Returned _ _ Hagg) as Hable.
  destruct (ledger_of_aggregable sheet_sort w Hable) as [rs [S [_ [Hp [_ [Hagg' _]]]]]].
  rewrite Hagg in Hagg'. injection Hagg' as ->.
  destruct (fixName_runs sheet_sort w _ _ eq_refl eq_refl Hnbo Hnbn Htabs Hable)
    as [rs' [folder' [_ [S' [_ [Hp' [Hagg1 Hfix]]]]]]].
  rewrite Hfix. simpl.
  eexists. split; [reflexivity|]. split; [exact Hagg1|]. split; [reflexivity|].
  assert (Hsame : forall e, get (points rs') e = get (points rs) e)
    by (intros e; now rewrite Hp', Hp).
  rewrite !map_map.
  rewrite (keys_Permutation rs' rs S' S Hsame).
  rewrite (runMax_same rs' rs S' S Hsame).
  erewrite map_ext; [reflexivity|].
  intros e. unfold withoutName. simpl.
  now rewrite (same_total rs' rs Hsame).
Qed.

Lemma rename_keeps_totals_witness :
  aggregate (SHEETS_FOLDER gapWorld) =
  Returned [{| cellA := "Ann Lee"; cellB := Some 5; cellC := "ann@x.com";
               background := ACTIVE_MEMBER_COLOR |};
            {| cellA := ""; cellB := Some 2; cellC := "cid@x.com";
               background := DEFAULT_MEMBER_COLOR |}] /\
  exists rows,
    snd (fixName sortByColumnA gapWorld) = Returned tt /\
    aggregate (SHEETS_FOLDER (fst (fixName sortByColumnA gapWorld))) = Returned rows /\
    memberSheet (fst (fixName sortByColumnA gapWorld)) =
    sortByColumnA (writeRows rows (clearLedger (memberSheet gapWorld))) /\
    Permutation (map withoutName rows)
      [("ann@x.com", Some 5, ACTIVE_MEMBER_COLOR);
       ("cid@x.com", Some 2, DEFAULT_MEMBER_COLOR)].
Proof.
  split; [reflexivity|].
  exact (rename_keeps_totals sortByColumnA gapWorld _
           ltac:(discriminate) ltac:(discriminate) eq_refl eq_refl).
Defined.

(** fixName (lines 480-527) with replaceNameInSheet (lines 530-579) and
    updateMemberPoints.  When every record carries a name, the rows the
    rename writes into the ledger sheet, over the cleared sheet and sorted,
    are the rows of the ledger before it where each name that equals the old
    name, letter case apart, is replaced by the new name as it was typed. *)
Theorem rename_changes_names :
  forall sheet_sort w old new rows0,
    getValue (SHEET w) OLD_NAME_CELL = old ->
    getValue (SHEET w) NEW_NAME_CELL = new ->
    old <> "" -> new <> "" ->
    forallb hasBothTabs (sheetIds (SHEETS_FOLDER w)) = true ->
    (forall s, In s (sheetIds (SHEETS_FOLDER w)) -> allNamed s) ->
    aggregate (SHEETS_FOLDER w) = Returned rows0 ->
    exists rows,
      snd (fixName sheet_sort w) = Returned tt /\
      aggregate (SHEETS_FOLDER (fst (fixName sheet_sort w))) = Returned rows /\
      memberSheet (fst (fixName sheet_sort w)) =
      sheet_sort (writeRows rows (clearLedger (memberSheet w))) /\
      Permutation rows (map (renamedRow new (toLowerCase old)) rows0).
Proof.
  intros sheet_sort w old new rows0 Ho Hn Hnbo Hnbn Htabs Hnamed Hagg.
  pose proof (aggregate_Returned _ _ Hagg) as Hable.
  destruct (ledger_of_aggregable sheet_sort w Hable) as [rs [S [Hnm [Hp [_ [Hagg' _]]]]]].
  rewrite Hagg in Hagg'. injection Hagg' as ->.
  destruct (fixName_runs sheet_sort w old new Ho Hn Hnbo Hnbn Htabs Hable)
    as [rs' [folder' [Hids [S' [Hnm' [Hp' [Hagg1 Hfix]]]]]]].
  rewrite forallb_forall in Htabs.
  rewrite Hfix. simpl.
  eexists. split; [reflexivity|]. split; [exact Hagg1|]. split; [reflexivity|].
  assert (Hsame : forall e, get (points rs') e = get (points rs) e)
    by (intros e; now rewrite Hp', Hp).
  assert (Hname : forall e, get (names rs') e =
                            option_map (renamedName new (toLowerCase old))
                                       (get (names rs) e)).
  { intros e. rewrite Hnm', Hnm, Hids.
    rewrite (firstName_map _ (fun s => option_map (renamedName new (toLowerCase old))
                                                  (sourceName s e))).
    - apply (orElse_map _ (fun s => sourceName s e) _ None).
    - intros s Hs. apply sourceName_renamed; auto. }
  rewrite map_map.
  rewrite (keys_Permutation rs' rs S' S Hsame).
  rewrite (runMax_same rs' rs S' S Hsame).
  erewrite map_ext_in; [reflexivity|].
  intros e He. unfold ledgerRow, renamedRow. simpl.
  rewrite (same_total rs' rs Hsame). f_equal.
  unfold nameIn. rewrite Hname.
  apply get_Some_keys in He. destruct He as [n ->]. reflexivity.
Qed.

Lemma rename_changes_names_witness :
  aggregate (SHEETS_FOLDER nameWorld) =
  Returned [{| cellA := "Bob Smith"; cellB := Some 4; cellC := "bob@x.com";
               background := ACTIVE_MEMBER_COLOR |};
            {| cellA := "Ann Lee"; cellB := Some 6; cellC := "ann@x.com";
               background := ACTIVE_MEMBER_COLOR |}] /\
  (forall s, In s (sheetIds (SHEETS_FOLDER nameWorld)) -> allNamed s) /\
  exists rows,
    snd (fixName sortByColumnA nameWorld) = Returned tt /\
    aggregate (SHEETS_FOLDER (fst (fixName sortByColumnA nameWorld))) = Returned rows /\
    memberSheet (fst (fixName sortByColumnA nameWorld)) =
    sortByColumnA (writeRows rows (clearLedger (memberSheet nameWorld))) /\
    Permutation rows
      [{| cellA := "Bob Smith"; cellB := Some 4; cellC := "bob@x.com";
          background := ACTIVE_MEMBER_COLOR |};
       {| cellA := "Ann B. Lee"; cellB := Some 6; cellC := "ann@x.com";
          background := ACTIVE_MEMBER_COLOR |}].
Proof.
  assert (Hnamed : forall s, In s (sheetIds (SHEETS_FOLDER nameWorld)) -> allNamed s).
  { intros s Hs. simpl in Hs.
    destruct Hs as [<-|[<-|[<-|[]]]]; intros r [<-|[]]; discriminate. }
  split; [reflexivity|]. split; [exact Hnamed|].
  exact (rename_changes_names sortByColumnA nameWorld "ANN LEE" "Ann B. Lee" _
           eq_refl eq_refl ltac:(discriminate) ltac:(discriminate)
           eq_refl Hnamed eq_refl).
Defined.

(** ** What a deletion removes *)

Module SkipFacts.

Section Loop.

Context {R : Type}.
Variable blank : R.
Variables nameOf emailOf : R -> string.
Hypothesis blank_name : nameOf blank = "".
Variables delEmail delName : string.

Local Notation "'loop'" := (deleteLoop blank nameOf emailOf).
Local Notation "'skip'" := (skipDelete nameOf emailOf delEmail delName).

Lemma rowAt_middle (pre : list R) r rest :
  rowAt blank (pre ++ r :: rest) (length pre + 2) = r.
Proof.
  unfold rowAt. replace (length pre + 2 - 2)%nat with (length pre) by lia.
  apply nth_middle.
Qed.

Lemma rowAt_end (pre : list R) :
  rowAt blank pre (length pre + 2) = blank.
Proof. unfold rowAt. apply nth_overflow. lia. Qed.

Lemma deleteRow_middle (pre : list R) r rest :
  deleteRow (length pre + 2) (pre ++ r :: rest) = pre ++ rest.
Proof.
  unfold deleteRow. replace (length pre + 2 - 2)%nat with (length pre) by lia.
  rewrite firstn_app, firstn_all, Nat.sub_diag. simpl. rewrite app_nil_r.
  f_equal. induction pre as [|x pre IH]; [reflexivity | exact IH].
Qed.

(** The loop by row number and the loop over the list leave the same rows. *)
Lemma deleteLoop_skipDelete fuel : forall (pre rest : list R),
  (length rest < fuel)%nat ->
  loop fuel (length pre + 2)%nat delEmail delName (pre ++ rest) = Some (pre ++ skip rest).
Proof.
  induction fuel as [|fuel IH]; intros pre rest Hlt; [lia|].
  destruct rest as [|r rest].
  - simpl. rewrite app_nil_r, rowAt_end, blank_name. reflexivity.
  - cbn [deleteLoop]. rewrite rowAt_middle, deleteRow_middle, toLowerCase_blank.
    cbn [skipDelete]. unfold matchesBoth.
    destruct (nameOf r =? "")%string; [reflexivity|].
    simpl in Hlt.
    destruct ((toLowerCase (nameOf r) =? delName)%string
              && (toLowerCase (emailOf r) =? delEmail)%string)%bool.
    + destruct rest as [|r' rest'].
      * clear IH. destruct fuel as [|fuel]; [simpl in Hlt; lia|].
        cbn [deleteLoop]. unfold rowAt.
        rewrite nth_overflow by (rewrite length_app; simpl; lia).
        rewrite blank_name. reflexivity.
      * specialize (IH (pre ++ [r']) rest' ltac:(simpl in Hlt; lia)).
        rewrite length_app, <- app_assoc in IH. simpl in IH.
        replace (S (length pre + 2)) with (length pre + 1 + 2)%nat by lia.
        rewrite IH, <- app_assoc. reflexivity.
    + specialize (IH (pre ++ [r]) rest ltac:(lia)).
      rewrite length_app, <- app_assoc in IH. simpl in IH.
      replace (S (length pre + 2)) with (length pre + 1 + 2)%nat by lia.
      rewrite IH, <- app_assoc. reflexivity.
Qed.

Lemma deleteLoop_from_row_2 (tab : list R) :
  loop (S (length tab)) 2%nat delEmail delName tab = Some (skip tab).
Proof. apply (deleteLoop_skipDelete (S (length tab)) [] tab). lia. Qed.

Local Notation "'hit'" := (matchesBoth nameOf emailOf delEmail delName).

Lemma skipDelete_spaced n : forall tab : list R,
  (length tab <= n)%nat ->
  (forall r, In r tab -> nameOf r <> "") ->
  twoInARow hit tab = false ->
  skip tab = filter (fun r => negb (hit r)) tab.
Proof.
  induction n as [|n IH]; intros tab Hlen Hnamed Hspaced.
  - destruct tab; [reflexivity | simpl in Hlen; lia].
  - destruct tab as [|r rest]; [reflexivity|].
    cbn [skipDelete filter].
    assert (En : (nameOf r =? "")%string = false).
    { apply String.eqb_neq, Hnamed. now left. }
    rewrite En. simpl in Hlen, Hspaced.
    apply orb_false_elim in Hspaced. destruct Hspaced as [Hpair Hrest].
    destruct (hit r) eqn:Eh; simpl.
    + destruct rest as [|r' rest']; [reflexivity|].
      simpl in Hpair. cbn [filter]. rewrite Hpair. simpl.
      f_equal. apply IH.
      * simpl in Hlen. lia.
      * intros r0 H0. apply Hnamed. right. now right.
      * simpl in Hrest. apply orb_false_elim in Hrest. tauto.
    + f_equal. apply IH; [lia | | exact Hrest].
      intros r0 H0. apply Hnamed. now right.
Qed.

End Loop.

Lemma deleteNameInSheet_skipDelete delEmail delName sheet form resp :
  tabFormResponses1 sheet = Some form ->
  tabResponses sheet = Some resp ->
  deleteNameInSheet delEmail delName sheet =
  (with_tabs sheet (Some (skipDelete formB formC delEmail delName form))
                   (Some (skipDelete colA colB delEmail delName resp)),
   Returned tt).
Proof.
  intros Hf Hr. unfold deleteNameInSheet. rewrite Hf, Hr.
  rewrite (deleteLoop_from_row_2 blank_form formB formC eq_refl).
  rewrite (deleteLoop_from_row_2 blank_response colA colB eq_refl).
  reflexivity.
Qed.

End SkipFacts.

Import SkipFacts.

Lemma skipDelete_app {R : Type} (nameOf emailOf : R -> string) delEmail delName pre l :
  (forall x, In x pre ->
             nameOf x <> "" /\ matchesBoth nameOf emailOf delEmail delName x = false) ->
  skipDelete nameOf emailOf delEmail delName (pre ++ l) =
  pre ++ skipDelete nameOf emailOf delEmail delName l.
Proof.
  induction pre as [|x pre IH]; intros H; [reflexivity|].
  destruct (H x (or_introl eq_refl)) as [Hn Hm].
  simpl. apply String.eqb_neq in Hn. rewrite Hn, Hm.
  f_equal. apply IH. intros y Hy. apply H. now right.
Qed.

(** deleteNameInSheet (lines 637-688).  On a list where every row carries a
    name and no two rows in a row match the name and the email to delete, the
    loop over the tab "Responses" removes exactly the matching rows, in
    whatever letter case they were typed. *)
Theorem deletion_complete_when_spaced :
  forall delEmail delName sheet form resp,
    tabFormResponses1 sheet = Some form ->
    tabResponses sheet = Some resp ->
    (forall r, In r resp -> colA r <> "") ->
    twoInARow (matchesBoth colA colB delEmail delName) resp = false ->
    tabResponses (fst (deleteNameInSheet delEmail delName sheet)) =
    Some (filter (fun r => negb (matchesBoth colA colB delEmail delName r)) resp).
Proof.
  intros delEmail delName sheet form resp Hf Hr Hnamed Hspaced.
  rewrite (deleteNameInSheet_skipDelete _ _ _ _ _ Hf Hr). simpl. f_equal.
  now apply (skipDelete_spaced colA colB delEmail delName (length resp)).
Qed.

Lemma deletion_complete_when_spaced_witness :
  tabResponses (fst (deleteNameInSheet "bob@x.com" "bob smith" spacedSheet)) =
  Some [signIn "Ann Lee" "ann@x.com" None (Some 1);
        signIn "Ann Lee" "ann@x.com" (Some 2) None].
Proof.
  refine (deletion_complete_when_spaced "bob@x.com" "bob smith" spacedSheet
            _ _ eq_refl eq_refl _ eq_refl).
  intros r Hr. simpl in Hr.
  destruct Hr as [<-|[<-|[<-|[<-|[]]]]]; discriminate.
Defined.

(** deleteNameInSheet (lines 637-688).  After [deleteRow(index)] the loop
    still adds one to [index]: the row below the deleted one moves up into its
    place and is never examined.  It stays on the list, even when it matches
    the name and the email to delete too. *)
Theorem deletion_passes_over_the_next_row :
  forall delEmail delName sheet form pre r r' rest,
    tabFormResponses1 sheet = Some form ->
    tabResponses sheet = Some (pre ++ r :: r' :: rest) ->
    (forall x, In x pre ->
               colA x <> "" /\ matchesBoth colA colB delEmail delName x = false) ->
    colA r <> "" ->
    matchesBoth colA colB delEmail delName r = true ->
    tabResponses (fst (deleteNameInSheet delEmail delName sheet)) =
    Some (pre ++ r' :: skipDelete colA colB delEmail delName rest).
Proof.
  intros delEmail delName sheet form pre r r' rest Hf Hr Hpre Hn Hm.
  rewrite (deleteNameInSheet_skipDelete _ _ _ _ _ Hf Hr).
  cbn [fst with_tabs tabResponses].
  rewrite skipDelete_app by exact Hpre.
  cbn [skipDelete]. apply String.eqb_neq in Hn. now rewrite Hn, Hm.
Qed.

Lemma deletion_passes_over_the_next_row_witness :
  tabResponses (fst (deleteNameInSheet "bob@x.com" "bob smith" raffleSheet)) =
  Some [signIn "Ann Lee" "ann@x.com" None (Some 1);
        signIn "Bob Smith" "bob@x.com" (Some 1) None].
Proof.
  refine (deletion_passes_over_the_next_row "bob@x.com" "bob smith" raffleSheet
            _ [signIn "Ann Lee" "ann@x.com" None (Some 1)] _ _ []
            eq_refl eq_refl _ _ eq_refl).
  - intros x [<-|[]]. split; [discriminate | reflexivity].
  - discriminate.
Defined.

(** deleteNameInSheet (lines 637-688).  [deleteRow] takes the whole row out
    of the sheet: when the record of row 2 is deleted, cell F2 goes with it,
    and the event's default points are from then on what column F of the row
    below held. *)
Theorem deletion_of_row_2_moves_F2 :
  forall delEmail delName sheet form r r' rest,
    tabFormResponses1 sheet = Some form ->
    tabResponses sheet = Some (r :: r' :: rest) ->
    colA r <> "" ->
    matchesBoth colA colB delEmail delName r = true ->
    defaultPointsOf (fst (deleteNameInSheet delEmail delName sheet)) = Number (colF r').
Proof.
  intros delEmail delName sheet form r r' rest Hf Hr Hn Hm.
  rewrite (deleteNameInSheet_skipDelete _ _ _ _ _ Hf Hr).
  unfold defaultPointsOf. cbn [fst with_tabs tabResponses skipDelete].
  apply String.eqb_neq in Hn. now rewrite Hn, Hm.
Qed.

Lemma deletion_of_row_2_moves_F2_witness :
  defaultPointsOf tombolaSheet = 1 /\
  defaultPointsOf (fst (deleteNameInSheet "bob@x.com" "bob smith" tombolaSheet)) = 0.
Proof.
  split; [reflexivity|].
  refine (deletion_of_row_2_moves_F2 "bob@x.com" "bob smith" tombolaSheet
            _ _ _ [] eq_refl eq_refl _ eq_refl).
  discriminate.
Defined.

(** ** What a deletion spares *)

Lemma forEachSheet_In f sheets s :
  In s sheets ->
  exists s', In s' (fst (forEachSheet f sheets)) /\ (s' = s \/ s' = fst (f s)).
Proof.
  induction sheets as [|x rest IH]; intros Hin; [contradiction|].
  simpl. destruct (f x) as [x' r] eqn:Ex.
  assert (Hx : x' = fst (f x)) by now rewrite Ex.
  destruct Hin as [->|Hin].
  - exists x'. split; [|now right].
    destruct r; [destruct (forEachSheet f rest)| |]; now left.
  - destruct r as [u| |].
    + destruct (IH Hin) as [s' [Hs' Hor]].
      destruct (forEachSheet f rest) as [rest' r']. simpl in *.
      exists s'. split; [now right | exact Hor].
    + exists s. split; [now right | now left].
    + exists s. split; [now right | now left].
Qed.

Lemma forEachSubfolder_In f subs s :
  In s (concat subs) ->
  exists s', In s' (concat (fst (forEachSubfolder f subs))) /\
             (s' = s \/ s' = fst (f s)).
Proof.
  induction subs as [|sheets rest IH]; intros Hin; [contradiction|].
  simpl in Hin. apply in_app_or in Hin.
  simpl. pose proof (forEachSheet_In f sheets s) as Hhere.
  destruct (forEachSheet f sheets) as [sheets' r]. simpl in Hhere.
  destruct Hin as [Hin|Hin].
  - destruct (Hhere Hin) as [s' [Hs' Hor]]. exists s'. split; [|exact Hor].
    destruct r; [destruct (forEachSubfolder f rest)| |]; simpl;
      apply in_or_app; now left.
  - destruct r as [u| |].
    + destruct (IH Hin) as [s' [Hs' Hor]].
      destruct (forEachSubfolder f rest) as [rest' r']. simpl in *.
      exists s'. split; [apply in_or_app; now right | exact Hor].
    + exists s. split; [simpl; apply in_or_app; now right | now left].
    + exists s. split; [simpl; apply in_or_app; now right | now left].
Qed.

Lemma inAllSheets_In f w s :
  In s (sheetIds (SHEETS_FOLDER w)) ->
  exists s', In s' (sheetIds (SHEETS_FOLDER (fst (inAllSheets f w)))) /\
             (s' = s \/ s' = fst (f s)).
Proof.
  unfold inAllSheets, sheetIds. intros Hin. apply in_app_or in Hin.
  pose proof (forEachSheet_In f (files (SHEETS_FOLDER w)) s) as Hfiles.
  pose proof (forEachSubfolder_In f (subfolders (SHEETS_FOLDER w)) s) as Hsubs.
  destruct (forEachSheet f (files (SHEETS_FOLDER w))) as [files' r].
  simpl in Hfiles.
  destruct Hin as [Hin|Hin].
  - destruct (Hfiles Hin) as [s' [Hs' Hor]]. exists s'. split; [|exact Hor].
    destruct r; [destruct (forEachSubfolder f _)| |]; simpl;
      apply in_or_app; now left.
  - destruct r as [u| |].
    + destruct (forEachSubfolder f _) as [subs' r']. simpl in *.
      destruct (Hsubs Hin) as [s' [Hs' Hor]].
      exists s'. split; [apply in_or_app; now right | exact Hor].
    + exists s. split; [simpl; apply in_or_app; now right | now left].
    + exists s. split; [simpl; apply in_or_app; now right | now left].
Qed.

(** The run and the two resets that follow a walk leave the folder alone. *)
Lemma folder_after_walk sheet_sort f g1 g2 w :
  SHEETS_FOLDER (fst ((inAllSheets f >>> updateMemberPoints sheet_sort >>>
                       onPanel g1 >>> onPanel g2) w)) =
  SHEETS_FOLDER (fst (inAllSheets f w)).
Proof.
  unfold andThen. destruct (inAllSheets f w) as [w1 r].
  destruct r as [u| |]; [|reflexivity|reflexivity].
  unfold updateMemberPoints.
  destruct (aggregate (SHEETS_FOLDER w1)); reflexivity.
Qed.

Lemma deleteNameInSheet_tab delEmail delName sheet resp :
  tabResponses sheet = Some resp ->
  fileName (fst (deleteNameInSheet delEmail delName sheet)) = fileName sheet /\
  exists resp', tabResponses (fst (deleteNameInSheet delEmail delName sheet)) = Some resp'.
Proof.
  intros Hr. unfold deleteNameInSheet. rewrite Hr.
  destruct (tabFormResponses1 sheet) as [form|]; [|simpl; eauto].
  destruct (deleteLoop blank_form formB formC (S (length form)) 2 delEmail delName form)
    as [form'|]; [|simpl; eauto].
  destruct (deleteLoop blank_response colA colB (S (length resp)) 2 delEmail delName resp)
    as [resp'|]; simpl; eauto.
Qed.

(** deleteName (lines 587-633) with deleteNameInSheet (lines 637-688).
    However the script ends, a record that differs from the two fields of the
    panel in its name or in its email, letter case apart, is still on the
    list of its event afterwards. *)
Theorem deletion_spares_the_others :
  forall sheet_sort w s resp r,
    In s (sheetIds (SHEETS_FOLDER w)) ->
    tabResponses s = Some resp ->
    In r resp ->
    ~ (toLowerCase (colA r) = toLowerCase (getValue (SHEET w) DEL_NAME_CELL) /\
       toLowerCase (colB r) = toLowerCase (getValue (SHEET w) DEL_EMAIL_CELL)) ->
    exists s' resp',
      In s' (sheetIds (SHEETS_FOLDER (fst (deleteName sheet_sort w)))) /\
      fileName s' = fileName s /\
      tabResponses s' = Some resp' /\
      In r resp'.
Proof.
  intros sheet_sort w s resp r Hs Hresp Hr Hnot.
  unfold deleteName.
  destruct (_ || _)%bool; [exists s, resp; simpl; auto|].
  rewrite folder_after_walk.
  destruct (inAllSheets_In
              (deleteNameInSheet (toLowerCase (getValue (SHEET w) DEL_EMAIL_CELL))
                                 (toLowerCase (getValue (SHEET w) DEL_NAME_CELL)))
              w s Hs) as [s' [Hs' [->| ->]]].
  - exists s, resp. auto.
  - destruct (deleteNameInSheet_tab (toLowerCase (getValue (SHEET w) DEL_EMAIL_CELL))
                (toLowerCase (getValue (SHEET w) DEL_NAME_CELL)) s resp Hresp)
      as [Hname [resp' Hresp']].
    eexists _, resp'. split; [exact Hs'|]. split; [exact Hname|].
    split; [exact Hresp'|].
    exact (deleteNameInSheet_keeps _ _ s resp resp' r Hresp Hresp' Hr Hnot).
Qed.

Lemma deletion_spares_the_others_witness :
  exists s' resp',
    In s' (sheetIds (SHEETS_FOLDER (fst (deleteName sortByColumnA tombolaWorld)))) /\
    fileName s' = "Tombola Member Sheet" /\
    tabResponses s' = Some resp' /\
    In (signIn "Bob Smith" "robert@y.org" None None) resp'.
Proof.
  refine (deletion_spares_the_others sortByColumnA tombolaWorld tombolaSheet
            _ (signIn "Bob Smith" "robert@y.org" None None)
            (or_introl eq_refl) eq_refl (or_intror (or_introl eq_refl)) _).
  intros [_ H]. discriminate H.
Defined.

(** ** The report of a lookup *)

Module ReportFacts.

Lemma append_assoc (a b c : string) : ((a ++ b) ++ c = a ++ (b ++ c))%string.
Proof. induction a as [|x a IH]; simpl; [reflexivity | now rewrite IH]. Qed.

Lemma append_blank_r (a : string) : (a ++ "")%string = a.
Proof. induction a as [|x a IH]; simpl; [reflexivity | now rewrite IH]. Qed.

Lemma append_blank (a b : string) : (a ++ b)%string = ""%string -> a = ""%string /\ b = ""%string.
Proof. destruct a; simpl; [auto | discriminate]. Qed.

Lemma nameLoop_full user file cell rows :
  nameLoop user file cell rows =
  option_map (fun r => (eventLabel file (Number (colD r) + Number cell),
                        Number (colD r) + Number cell))
    (find (isNamed user) (namedRows rows)).
Proof.
  induction rows as [|r rows IH]; simpl; [reflexivity|].
  rewrite toLowerCase_blank.
  destruct (colA r =? "")%string; simpl; [reflexivity|].
  unfold isNamed at 1.
  destruct (user =? toLowerCase (colA r))%string; [|exact IH].
  simpl. unfold eventLabel.
  now destruct (Number (colD r) + Number cell =? 1).
Qed.

Lemma getNameFromSheet_full user sheet :
  tabResponses sheet <> None ->
  getNameFromSheet user sheet =
  Returned (option_map (fun r => (eventLabel (fileName sheet) (recordPoints sheet r),
                                  recordPoints sheet r))
              (firstMatch user sheet)).
Proof.
  unfold getNameFromSheet, firstMatch, namedRowsOf, recordPoints, defaultPointsOf.
  destruct (tabResponses sheet) as [rows|]; [|congruence].
  intros _. rewrite nameLoop_full.
  destruct (find _ _); simpl; [|reflexivity].
  now rewrite Z.add_comm.
Qed.

Lemma attendedPoints_cons user s rest :
  attendedPoints user (s :: rest) =
  match firstMatch user s with
  | Some r => recordPoints s r :: attendedPoints user rest
  | None => attendedPoints user rest
  end.
Proof. unfold attendedPoints. simpl. now destruct (firstMatch user s). Qed.

Lemma attendedPoints_app user l1 l2 :
  attendedPoints user (l1 ++ l2) = attendedPoints user l1 ++ attendedPoints user l2.
Proof. unfold attendedPoints. apply flat_map_app. Qed.

Lemma findInFiles_full user sheets :
  (forall s, In s sheets -> tabResponses s <> None) ->
  forall acc,
    findInFiles user sheets acc =
    Returned {| events := (events acc ++ linesOf (fileLine user) sheets)%string;
                memberPoints := memberPoints acc + sumZ (attendedPoints user sheets);
                numEvents := (numEvents acc + length (attendedPoints user sheets))%nat |}.
Proof.
  induction sheets as [|sheet rest IH]; intros Hall acc.
  - simpl. rewrite append_blank_r, Z.add_0_r, Nat.add_0_r. now destruct acc.
  - rewrite attendedPoints_cons. simpl.
    rewrite (getNameFromSheet_full user sheet (Hall sheet (or_introl eq_refl))).
    assert (Hall' : forall s, In s rest -> tabResponses s <> None)
      by (intros s' Hs'; apply Hall; now right).
    assert (Hline : fileLine user sheet =
                    match firstMatch user sheet with
                    | Some r => ((eventLabel (fileName sheet) (recordPoints sheet r) ++ ","
                                    ++ String_of (recordPoints sheet r)) ++ newline)%string
                    | None => ""%string
                    end) by reflexivity.
    destruct (firstMatch user sheet) as [r|]; simpl; rewrite (IH Hall'); simpl;
      rewrite Hline.
    + rewrite append_assoc. do 2 f_equal; lia.
    + reflexivity.
Qed.

Lemma findInSubfolder_full user sheets :
  (forall s, In s sheets -> tabResponses s <> None) ->
  forall acc,
    findInSubfolder user sheets acc =
    Returned {| events := (events acc ++ linesOf (subfolderLine user) sheets)%string;
                memberPoints := memberPoints acc + sumZ (attendedPoints user sheets);
                numEvents := (numEvents acc + length (attendedPoints user sheets))%nat |}.
Proof.
  induction sheets as [|sheet rest IH]; intros Hall acc.
  - simpl. rewrite append_blank_r, Z.add_0_r, Nat.add_0_r. now destruct acc.
  - rewrite attendedPoints_cons. simpl.
    rewrite (getNameFromSheet_full user sheet (Hall sheet (or_introl eq_refl))).
    assert (Hall' : forall s, In s rest -> tabResponses s <> None)
      by (intros s' Hs'; apply Hall; now right).
    assert (Hline : subfolderLine user sheet =
                    match firstMatch user sheet with
                    | Some r => (eventLabel (fileName sheet) (recordPoints sheet r) ++ newline)%string
                    | None => ""%string
                    end) by reflexivity.
    destruct (firstMatch user sheet) as [r|]; simpl; rewrite (IH Hall'); simpl;
      rewrite Hline.
    + rewrite append_assoc. do 2 f_equal; lia.
    + reflexivity.
Qed.

Lemma linesOf_app line l1 l2 :
  linesOf line (l1 ++ l2) = (linesOf line l1 ++ linesOf line l2)%string.
Proof.
  induction l1 as [|s l1 IH]; simpl; [reflexivity|].
  now rewrite IH, append_assoc.
Qed.

Lemma findInSubfolders_full user subs :
  (forall s, In s (concat subs) -> tabResponses s <> None) ->
  forall acc,
    findInSubfolders user subs acc =
    Returned {| events := (events acc ++ linesOf (subfolderLine user) (concat subs))%string;
                memberPoints := memberPoints acc + sumZ (attendedPoints user (concat subs));
                numEvents :=
                  (numEvents acc + length (attendedPoints user (concat subs)))%nat |}.
Proof.
  induction subs as [|sheets rest IH]; intros Hall acc; simpl.
  - rewrite append_blank_r, Z.add_0_r, Nat.add_0_r. now destruct acc.
  - rewrite findInSubfolder_full
      by (intros s Hs; apply Hall; simpl; apply in_or_app; now left).
    simpl. rewrite IH by (intros s Hs; apply Hall; simpl; apply in_or_app; now right).
    simpl. rewrite linesOf_app, attendedPoints_app, sumZ_app, length_app, append_assoc.
    do 2 f_equal; lia.
Qed.

Lemma findScan_full user folder :
  (forall s, In s (sheetIds folder) -> tabResponses s <> None) ->
  findScan user folder =
  Returned {| events := breakdown user folder;
              memberPoints := sumZ (attendedPoints user (sheetIds folder));
              numEvents := length (attendedPoints user (sheetIds folder)) |}.
Proof.
  intros Hall. unfold findScan, sheetIds in *.
  rewrite findInFiles_full by (intros s Hs; apply Hall, in_or_app; now left).
  simpl. rewrite findInSubfolders_full by (intros s Hs; apply Hall, in_or_app; now right).
  simpl. unfold breakdown.
  rewrite attendedPoints_app, sumZ_app, length_app. reflexivity.
Qed.

Lemma linesOf_blank line sheets :
  linesOf line sheets = ""%string <-> forall s, In s sheets -> line s = ""%string.
Proof.
  induction sheets as [|s rest IH]; simpl; [tauto|]. split.
  - intros H. apply append_blank in H. destruct H as [H1 H2].
    intros s' [<-|Hs']; [exact H1 | now apply IH].
  - intros H. rewrite (H s) by now left. simpl. apply IH.
    intros s' Hs'. apply H. now right.
Qed.

Lemma attendedPoints_nil user sheets :
  attendedPoints user sheets = [] <->
  forall s, In s sheets -> firstMatch user s = None.
Proof.
  induction sheets as [|s rest IH]; [simpl; tauto|].
  rewrite attendedPoints_cons. split.
  - destruct (firstMatch user s) eqn:E; [discriminate|].
    intros H s' [<-|Hs']; [exact E | now apply IH].
  - intros H. rewrite (H s) by now left. apply IH.
    intros s' Hs'. apply H. now right.
Qed.

Lemma fileLine_blank user s : fileLine user s = ""%string <-> firstMatch user s = None.
Proof.
  unfold fileLine. destruct (firstMatch user s); split; try reflexivity;
    try discriminate.
  intros H. apply append_blank in H. destruct H as [_ H]. discriminate H.
Qed.

Lemma subfolderLine_blank user s :
  subfolderLine user s = ""%string <-> firstMatch user s = None.
Proof.
  unfold subfolderLine. destruct (firstMatch user s); split; try reflexivity;
    try discriminate.
  intros H. apply append_blank in H. destruct H as [_ H]. discriminate H.
Qed.

Lemma breakdown_blank user folder :
  breakdown user folder = ""%string <-> attendedPoints user (sheetIds folder) = [].
Proof.
  unfold breakdown, sheetIds. rewrite attendedPoints_nil. split.
  - intros H. apply append_blank in H. destruct H as [H1 H2].
    intros s Hs. apply in_app_or in Hs. destruct Hs as [Hs|Hs].
    + apply fileLine_blank. now apply (proj1 (linesOf_blank _ _) H1).
    + apply subfolderLine_blank. now apply (proj1 (linesOf_blank _ _) H2).
  - intros H.
    rewrite (proj2 (linesOf_blank (fileLine user) (files folder)))
      by (intros s Hs; apply fileLine_blank, H, in_or_app; now left).
    apply linesOf_blank.
    intros s Hs. apply subfolderLine_blank, H, in_or_app. now right.
Qed.

Lemma reportSize_spec n :
  (if (n <=? 20)%nat then 12
   else if ((n <=? 30) && (20 <? n))%nat then 10
   else if ((n <=? 40) && (30 <? n))%nat then 8
   else 7) = reportSize n.
Proof.
  unfold reportSize.
  destruct (Nat.leb_spec n 20); [reflexivity|].
  replace (20 <? n)%nat with true by (symmetry; apply Nat.ltb_lt; lia).
  rewrite andb_true_r.
  destruct (Nat.leb_spec n 30); [reflexivity|].
  replace (30 <? n)%nat with true by (symmetry; apply Nat.ltb_lt; lia).
  now rewrite andb_true_r.
Qed.

End ReportFacts.

Import ReportFacts.

(** C9 (amended). Lookup.  Over sources that all have the tab "Responses",
    the lookup of a normalized name counts one entry for each source where a
    record before the first blank name carries that name, with the points
    ([defaultPoints + bonusPoints]) of the first such record of the source,
    and its total is the sum of those points.  Its breakdown text has one
    line for each such source, in the order of the walk, made of the label of
    the event with those points; no line for the other sources.  A name found
    in no source gives no entry, total 0 and an empty breakdown text. *)
Theorem lookup_by_source :
  forall user folder,
    (forall s, In s (sheetIds folder) -> tabResponses s <> None) ->
    exists f,
      findScan user folder = Returned f /\
      numEvents f = length (attendedPoints user (sheetIds folder)) /\
      memberPoints f = sumZ (attendedPoints user (sheetIds folder)) /\
      events f = breakdown user folder /\
      (attendedPoints user (sheetIds folder) = [] -> events f = "").
Proof.
  intros user folder Hall.
  rewrite (findScan_full user folder Hall).
  eexists. split; [reflexivity|]. cbn [events memberPoints numEvents].
  split; [reflexivity|]. split; [reflexivity|]. split; [reflexivity|].
  intros Hnone. now apply breakdown_blank.
Qed.

Lemma lookup_by_source_witness :
  (forall s, In s (sheetIds carolFolder) -> tabResponses s <> None) /\
  (exists f,
     findScan "carol lee" carolFolder = Returned f /\
     numEvents f = 2%nat /\
     memberPoints f = 1 + 2 /\
     events f = ("Fair - 2 Member Points" ++ newline
                   ++ "Bingo - 1 Member Point" ++ newline)%string) /\
  (exists f,
     findScan "zed none" carolFolder = Returned f /\
     numEvents f = 0%nat /\
     memberPoints f = 0 /\
     events f = "").
Proof.
  assert (Hall : forall s, In s (sheetIds carolFolder) -> tabResponses s <> None).
  { intros s [<-|[<-|[<-|[]]]]; discriminate. }
  split; [exact Hall|]. split.
  - destruct (lookup_by_source "carol lee" carolFolder Hall)
      as [f [Hf [H1 [H2 [H3 _]]]]].
    exists f. split; [exact Hf|]. split; [exact H1|]. split; [exact H2 | exact H3].
  - destruct (lookup_by_source "zed none" carolFolder Hall)
      as [f [Hf [H1 [H2 [_ H3]]]]].
    exists f. split; [exact Hf|]. split; [exact H1|]. split; [exact H2|].
    exact (H3 eq_refl).
Defined.

(** findUser (lines 696-795) with getNameFromSheet (lines 798-843).  For a
    name in the lookup field and a folder whose files all have the tab
    "Responses", the script puts the report into the events cell and blanks
    the lookup field.  The report lists one line for each event that has the
    name on its list, with the points of the first such record; the line of
    an event of the folder itself ends with a comma and the points once more,
    the line of an event of a subfolder does not; the heading always says
    "Member Points"; the font size goes by the number of events listed. *)
Theorem lookup_report :
  forall w user,
    toLowerCase (getValue (SHEET w) FIND_USER_CELL) = user ->
    user <> "" ->
    (forall s, In s (sheetIds (SHEETS_FOLDER w)) -> tabResponses s <> None) ->
    findUser w =
    (with_SHEET w
       (setValue FIND_USER_CELL ""
          (setFontSize USER_EVENTS_CELL
             (reportSize (length (attendedPoints user (sheetIds (SHEETS_FOLDER w)))))
             (setValue USER_EVENTS_CELL (reportText user (SHEETS_FOLDER w))
                (setValue USER_EVENTS_CELL "" (SHEET w))))),
     Returned tt).
Proof.
  intros w user Hu Hnb Hall. unfold findUser. rewrite Hu.
  apply String.eqb_neq in Hnb. rewrite Hnb. cbn [with_SHEET SHEETS_FOLDER SHEET].
  rewrite (findScan_full user (SHEETS_FOLDER w) Hall).
  cbn [events memberPoints numEvents]. rewrite reportSize_spec.
  unfold with_SHEET. cbn [SHEETS_FOLDER memberSheet SHEET].
  do 4 f_equal. unfold reportText.
  destruct (attendedPoints user (sheetIds (SHEETS_FOLDER w))) as [|p l] eqn:E.
  - apply breakdown_blank in E. now rewrite E.
  - destruct (breakdown user (SHEETS_FOLDER w) =? "")%string eqn:Eb; [|reflexivity].
    apply String.eqb_eq, breakdown_blank in Eb. congruence.
Qed.

Lemma lookup_report_witness :
  getValue (SHEET (fst (findUser lookupWorld))) USER_EVENTS_CELL =
  ("Attendance Records For CAROL LEE (4 Member Points)" ++ newline ++ newline
     ++ "Quiz - 1 Member Point,1" ++ newline
     ++ "Fair - 2 Member Points" ++ newline
     ++ "Bingo - 1 Member Point" ++ newline)%string /\
  fontSize (getCell (SHEET (fst (findUser lookupWorld))) USER_EVENTS_CELL) = 12 /\
  getValue (SHEET (fst (findUser lookupWorld))) FIND_USER_CELL = "".
Proof.
  assert (Hall : forall s, In s (sheetIds (SHEETS_FOLDER lookupWorld)) ->
                           tabResponses s <> None).
  { intros s Hs. simpl in Hs. destruct Hs as [<-|[<-|[<-|[<-|[]]]]]; discriminate. }
  rewrite (lookup_report lookupWorld "carol lee" eq_refl ltac:(discriminate) Hall).
  split; [reflexivity|]. split; reflexivity.
Defined.

Lemma findInFiles_stops user pre bad post acc :
  (forall s, In s pre -> tabResponses s <> None) ->
  tabResponses bad = None ->
  findInFiles user (pre ++ bad :: post) acc = Threw TypeError.
Proof.
  revert acc. induction pre as [|s pre IH]; intros acc Hpre Hbad; simpl.
  - unfold getNameFromSheet. now rewrite Hbad.
  - rewrite (getNameFromSheet_full user s (Hpre s (or_introl eq_refl))). simpl.
    destruct (firstMatch user s); simpl; apply IH; auto;
      intros s' Hs'; apply Hpre; now right.
Qed.

(** findUser (lines 696-795) with getNameFromSheet (lines 798-843).  When a
    file of the folder has no tab "Responses" the lookup throws there: the
    events cell, blanked at line 713, has lost the report it showed, no new
    report is written, and the name stays in the lookup field. *)
Theorem lookup_stops_at_a_torn_file :
  forall w pre bad post,
    toLowerCase (getValue (SHEET w) FIND_USER_CELL) <> "" ->
    files (SHEETS_FOLDER w) = pre ++ bad :: post ->
    (forall s, In s pre -> tabResponses s <> None) ->
    tabResponses bad = None ->
    findUser w = (with_SHEET w (setValue USER_EVENTS_CELL "" (SHEET w)), Threw TypeError).
Proof.
  intros w pre bad post Hnb Hfiles Hpre Hbad. unfold findUser.
  apply String.eqb_neq in Hnb. rewrite Hnb.
  unfold findScan. cbn [with_SHEET SHEETS_FOLDER]. rewrite Hfiles.
  now rewrite (findInFiles_stops _ pre bad post _ Hpre Hbad).
Qed.

Lemma lookup_stops_at_a_torn_file_witness :
  findUser tornLookupWorld =
  (with_SHEET tornLookupWorld
     [("M3", {| value := ""; fontColor := "#000000"; fontSize := 10 |});
      ("Q4", {| value := "Carol Lee"; fontColor := "#000000"; fontSize := 10 |})],
   Threw TypeError).
Proof.
  refine (lookup_stops_at_a_torn_file tornLookupWorld [quizSheet] brokenSheet [hikeSheet]
            _ eq_refl _ eq_refl).
  - discriminate.
  - intros s [<-|[]]. discriminate.
Defined.

(** findUser (lines 696-795).  On a blank lookup field the script writes its
    request for a name into the lookup field itself.  Run once more as the
    panel stands, it looks that sentence up as if it were a member's name:
    on a folder where nobody signed in under it, the events cell then reports
    that there is no attendance record for it, and the lookup field is blank
    again. *)
Theorem blank_lookup_run_twice :
  forall w,
    getValue (SHEET w) FIND_USER_CELL = "" ->
    (forall s, In s (sheetIds (SHEETS_FOLDER w)) -> tabResponses s <> None) ->
    attendedPoints (toLowerCase NO_NAME) (sheetIds (SHEETS_FOLDER w)) = [] ->
    getValue (SHEET (fst (findUser w))) FIND_USER_CELL = NO_NAME /\
    getValue (SHEET (fst (findUser (fst (findUser w))))) USER_EVENTS_CELL =
    ("No Attendance Record Found For " ++ toUpperCase NO_NAME)%string /\
    getValue (SHEET (fst (findUser (fst (findUser w))))) FIND_USER_CELL = "".
Proof.
  intros w Hblank Hall Hnone.
  assert (Hfirst : findUser w = onPanel (setValue FIND_USER_CELL NO_NAME) w).
  { unfold findUser. rewrite toLowerCase_blank, Hblank. reflexivity. }
  assert (Hcell : getValue (SHEET (fst (findUser w))) FIND_USER_CELL = NO_NAME).
  { rewrite Hfirst. unfold onPanel, getValue, setValue. simpl.
    rewrite getCell_set, String.eqb_refl. reflexivity. }
  split; [exact Hcell|].
  rewrite (lookup_report (fst (findUser w)) (toLowerCase NO_NAME)).
  - unfold reportText. rewrite Hfirst. cbn [fst onPanel with_SHEET SHEETS_FOLDER SHEET].
    rewrite Hnone. unfold getValue, setValue, setFontSize.
    rewrite !getCell_set. simpl. split; reflexivity.
  - now rewrite Hcell.
  - discriminate.
  - rewrite Hfirst. exact Hall.
Qed.

Lemma blank_lookup_run_twice_witness :
  getValue (SHEET (fst (findUser blankLookupWorld))) FIND_USER_CELL =
  "Please enter a member's full name" /\
  getValue (SHEET (fst (findUser (fst (findUser blankLookupWorld))))) USER_EVENTS_CELL =
  "No Attendance Record Found For PLEASE ENTER A MEMBER'S FULL NAME" /\
  getValue (SHEET (fst (findUser (fst (findUser blankLookupWorld))))) FIND_USER_CELL = "".
Proof.
  refine (blank_lookup_run_twice blankLookupWorld eq_refl _ eq_refl).
  intros s Hs. simpl in Hs. destruct Hs as [<-|[<-|[]]]; discriminate.
Defined.

(** ** A correction taken back *)

Lemma relabel_back a b r :
  cellC r <> b -> relabel b a (relabel a b r) = r.
Proof.
  intros Hb. unfold relabel.
  destruct (cellC r =? a)%string eqn:Ea; simpl.
  - rewrite String.eqb_refl. apply String.eqb_eq in Ea. destruct r. simpl in *.
    now subst.
  - apply String.eqb_neq in Hb. now rewrite Hb.
Qed.

(** fixEmail (lines 375-421) with replaceEmailInSheet and updateMemberPoints.
    A correction into an email that no source had can be taken back: once
    the panel is filled in the other way round, a second run returns and
    writes into the ledger sheet, over the sheet the first run left, cleared,
    the rows of the ledger of before the first one, up to their order, and
    sorts them. *)
Theorem correction_taken_back :
  forall sheet_sort w a b rows0 panel,
    toLowerCase (getValue (SHEET w) OLD_EMAIL_CELL) = a ->
    toLowerCase (getValue (SHEET w) NEW_EMAIL_CELL) = b ->
    a <> "" -> b <> "" -> a <> b ->
    forallb hasBothTabs (sheetIds (SHEETS_FOLDER w)) = true ->
    aggregate (SHEETS_FOLDER w) = Returned rows0 ->
    (forall s, In s (sheetIds (SHEETS_FOLDER w)) ->
               ~ In b (map email (recordsOf s))) ->
    toLowerCase (getValue panel OLD_EMAIL_CELL) = b ->
    toLowerCase (getValue panel NEW_EMAIL_CELL) = a ->
    exists rows,
      snd (fixEmail sheet_sort (with_SHEET (fst (fixEmail sheet_sort w)) panel)) =
      Returned tt /\
      aggregate
        (SHEETS_FOLDER
           (fst (fixEmail sheet_sort (with_SHEET (fst (fixEmail sheet_sort w)) panel)))) =
      Returned rows /\
      memberSheet
        (fst (fixEmail sheet_sort (with_SHEET (fst (fixEmail sheet_sort w)) panel))) =
      sheet_sort
        (writeRows rows (clearLedger (memberSheet (fst (fixEmail sheet_sort w))))) /\
      Permutation rows rows0.
Proof.
  intros sheet_sort w a b rows0 panel Ha Hb Hnba Hnbb Hab Htabs Hagg Hfresh Hpa Hpb.
  destruct (fixEmail_moves sheet_sort w a b rows0 Ha Hb Hnba Hnbb Hab Htabs Hagg Hfresh)
    as [rows1 [_ [Hagg1 [_ [Hperm1 [Hids Hnot]]]]]].
  assert (Hlow : toLowerCase b = b) by (rewrite <- Hb; apply toLowerCase_idem).
  rewrite forallb_forall in Htabs.
  set (w1 := with_SHEET (fst (fixEmail sheet_sort w)) panel).
  assert (Hf1 : SHEETS_FOLDER w1 = SHEETS_FOLDER (fst (fixEmail sheet_sort w)))
    by reflexivity.
  destruct (fixEmail_moves sheet_sort w1 b a rows1)
    as [rows2 [Hret [Hagg2 [Hsheet2 [Hperm2 _]]]]];
    try assumption; try congruence.
  - rewrite Hf1, Hids. apply forallb_forall. intros s' Hs'.
    apply in_map_iff in Hs'. destruct Hs' as [s [<- Hs]].
    apply hasBothTabs_corrected. now apply Htabs.
  - rewrite Hf1, Hids. intros s' Hs'.
    apply in_map_iff in Hs'. destruct Hs' as [s [<- Hs]].
    apply sourceName_None. apply sourceName_corrected_old; auto.
  - exists rows2. split; [exact Hret|]. split; [exact Hagg2|].
    split; [exact Hsheet2|].
    rewrite Hperm2, Hperm1, map_map.
    erewrite map_ext_in; [rewrite map_id; reflexivity|].
    intros r Hr. apply relabel_back. intros Hc. apply Hnot.
    rewrite <- Hc. now apply in_map.
Qed.

Lemma correction_taken_back_witness :
  exists rows,
    snd (fixEmail sortByColumnA
           (with_SHEET (fst (fixEmail sortByColumnA movedWorld)) undoPanel)) =
    Returned tt /\
    aggregate
      (SHEETS_FOLDER
         (fst (fixEmail sortByColumnA
                 (with_SHEET (fst (fixEmail sortByColumnA movedWorld)) undoPanel)))) =
    Returned rows /\
    memberSheet
      (fst (fixEmail sortByColumnA
              (with_SHEET (fst (fixEmail sortByColumnA movedWorld)) undoPanel))) =
    sortByColumnA
      (writeRows rows
         (clearLedger (memberSheet (fst (fixEmail sortByColumnA movedWorld))))) /\
    Permutation rows
      [{| cellA := "Bob Smith"; cellB := Some 4; cellC := "bob@x.com";
          background := ACTIVE_MEMBER_COLOR |};
       {| cellA := "ANN B. LEE"; cellB := Some 6; cellC := "ann@x.com";
          background := ACTIVE_MEMBER_COLOR |}].
Proof.
  refine (correction_taken_back sortByColumnA movedWorld
            "ann@x.com" "ann.lee@y.org" _ undoPanel eq_refl eq_refl
            _ _ _ eq_refl eq_refl _ eq_refl eq_refl); try discriminate.
  intros s Hs. simpl in Hs.
  destruct Hs as [<-|[<-|[<-|[]]]]; simpl; intros [H|[]]; discriminate H.
Defined.

(** ** Creating the form and the sheet of an event *)

Module CreationFacts.

Lemma filesOf_moveTo {A : Type} month (file : A) folders :
  filesOf month (moveTo month file folders) = filesOf month folders ++ [file].
Proof.
  unfold filesOf. induction folders as [|[name content] rest IH]; simpl.
  - now rewrite String.eqb_refl.
  - destruct (name =? month)%string eqn:E; simpl; rewrite E; [reflexivity | exact IH].
Qed.

Lemma filesOf_moveTo_other {A : Type} month other (file : A) folders :
  other <> month ->
  filesOf other (moveTo month file folders) = filesOf other folders.
Proof.
  intros Hne. unfold filesOf.
  induction folders as [|[name content] rest IH]; simpl.
  - apply String.eqb_neq in Hne. rewrite String.eqb_sym in Hne. now rewrite Hne.
  - destruct (name =? month)%string eqn:E; simpl.
    + apply String.eqb_eq in E. subst name.
      apply String.eqb_neq in Hne. rewrite String.eqb_sym in Hne. now rewrite Hne.
    + destruct (name =? other)%string; [reflexivity | exact IH].
Qed.

Lemma moveTo_keeps {A : Type} month other (file f : A) folders :
  In f (filesOf other folders) -> In f (filesOf other (moveTo month file folders)).
Proof.
  intros H. destruct (string_dec other month) as [->|Hne].
  - rewrite filesOf_moveTo. apply in_or_app. now left.
  - now rewrite filesOf_moveTo_other.
Qed.

Lemma truthy_text name : name <> "" -> truthy (Text name) = true.
Proof. intros H. simpl. apply String.eqb_neq in H. now rewrite H. Qed.

(** The run on a panel that passes the three checks and finds its sheet
    template: what the script has done when it comes to the form template. *)
Lemma createNewForm_sheet st name month sheetFile formFile withResponses :
  C4 st = Text name -> name <> "" ->
  (truthy (C8 st) || isString (C8 st))%bool = true ->
  C11 st = Text month -> month <> "" ->
  templatesFor (C6 st) (fileMapOf (templateFiles st)) = (Some sheetFile, formFile) ->
  driveKind sheetFile = SpreadsheetFile withResponses ->
  createNewForm st =
  let newSheet := {| sheetName := (name ++ " Member Sheet")%string;
                     sheetTemplate := sheetFile |} in
  let st1 := with_sheetFolders st (moveTo month newSheet (sheetFolders st)) in
  match formFile with
  | None => (st1, Threw TypeError)
  | Some file =>
      match driveKind file, questionItem (C8 st) (C9 st) with
      | FormFile, Returned item =>
          if withResponses
          then (resetForm
                  (with_formFolders st1
                     (moveTo month
                        {| formName := (name ++ " Sign-In Form")%string;
                           formTitle := (name ++ " Sign-In Form")%string;
                           formTemplate := file;
                           destination := newSheet;
                           addedItem := item |}
                        (formFolders st1))),
                Returned tt)
          else (st, OutOfModel)
      | _, _ => (st, OutOfModel)
      end
  end.
Proof.
  intros Hname Hnb Hq Hmonth Hm Ht Hk. unfold createNewForm.
  rewrite Hname, (truthy_text name Hnb). cbn [negb].
  replace (negb (truthy (C8 st)) && negb (isString (C8 st)))%bool with false
    by (destruct (truthy (C8 st)), (isString (C8 st)); simpl in *; congruence).
  rewrite Ht, Hk, Hmonth. apply String.eqb_neq in Hm. rewrite Hm. reflexivity.
Qed.

(** The run on a panel without a text for the name of the event. *)
Lemma createNewForm_no_name st :
  (forall name, C4 st = Text name -> name = "") ->
  createNewForm st =
  (with_B3 st (if truthy (C4 st) then "Please enter a valid event name"
               else "Please fill in the event name"),
   Returned tt).
Proof.
  intros H. unfold createNewForm.
  destruct (C4 st) as [name|n|b|] eqn:E.
  - rewrite (H name eq_refl). reflexivity.
  - simpl. now destruct (n =? 0).
  - simpl. now destruct b.
  - reflexivity.
Qed.

End CreationFacts.

Import CreationFacts.

(** createNewForm (lines 84-95).  Unless cell C4 holds a text that is not
    blank, the script only writes a message into B3: that the event name is
    to be filled in for a blank cell, the number 0 or an unticked checkbox,
    that a valid event name is to be entered for any other number, a ticked
    checkbox or a date.  Nothing is created and the form is not reset. *)
Theorem creation_needs_a_text_name :
  forall st,
    (forall name, C4 st = Text name -> name = "") ->
    createNewForm st =
    (with_B3 st (if truthy (C4 st) then "Please enter a valid event name"
                 else "Please fill in the event name"),
     Returned tt).
Proof.
  intros st H. unfold createNewForm.
  destruct (C4 st) as [name|n|b|] eqn:E.
  - rewrite (H name eq_refl). reflexivity.
  - simpl. now destruct (n =? 0).
  - simpl. now destruct b.
  - reflexivity.
Qed.

Lemma creation_needs_a_text_name_witness :
  createNewForm numberStudio =
  (with_B3 numberStudio "Please enter a valid event name", Returned tt).
Proof.
  refine (creation_needs_a_text_name numberStudio _).
  intros name H. discriminate H.
Defined.

(** createNewForm (lines 98-106).  The check of the custom question looks at
    the type of the cell only when the cell is falsy: for an event with a
    name it turns down the number 0 and the unticked checkbox, and nothing
    else; any other number, a ticked checkbox or a date goes through. *)
Theorem creation_question_check :
  forall st name,
    C4 st = Text name -> name <> "" ->
    (createNewForm st = (with_B3 st "Please enter a valid question", Returned tt) <->
     C8 st = Num 0 \/ C8 st = Flag false).
Proof.
  intros st name Hname Hnb. unfold createNewForm.
  rewrite Hname, (truthy_text name Hnb). cbn [negb]. split.
  - destruct (negb (truthy (C8 st)) && negb (isString (C8 st)))%bool eqn:E.
    + intros _. destruct (C8 st) as [q|n|b|]; simpl in E;
        rewrite ?andb_false_r, ?andb_true_r in E; try discriminate.
      * left. f_equal. apply Z.eqb_eq. now destruct (n =? 0).
      * right. now destruct b.
    + destruct (templatesFor _ _) as [[sheetFile|] formFile]; [|discriminate].
      destruct (driveKind sheetFile) as [withResponses| |]; try discriminate.
      destruct (C11 st) as [month| | |]; try discriminate.
      destruct (month =? "")%string; [discriminate|].
      destruct formFile as [file|]; [|discriminate].
      destruct (driveKind file); try discriminate.
      destruct (questionItem _ _); try discriminate.
      destruct withResponses; [|discriminate].
      intros H. apply (f_equal (fun out => B3 (fst out))) in H. discriminate H.
  - intros [H|H]; rewrite H; reflexivity.
Qed.

Lemma creation_question_check_witness :
  createNewForm checkboxStudio =
  (with_B3 checkboxStudio "Please enter a valid question", Returned tt).
Proof.
  refine (proj2 (creation_question_check checkboxStudio "Spring Gala" eq_refl _)
            (or_intror eq_refl)).
  discriminate.
Defined.

(** createNewForm (lines 119-160).  Without a defined form template, because
    the event type is none of the three or the file is not in the Templates
    folder, the script throws a TypeError and leaves B3 and the form as they
    were.  If the sheet template is undefined too, it throws before anything
    is copied; otherwise the sheet of the event has been copied, moved to its
    month and named by then, and stays there without a form. *)
Theorem creation_throws_without_template :
  forall st name month,
    C4 st = Text name -> name <> "" ->
    (truthy (C8 st) || isString (C8 st))%bool = true ->
    C11 st = Text month -> month <> "" ->
    snd (templatesFor (C6 st) (fileMapOf (templateFiles st))) = None ->
    (forall file, fst (templatesFor (C6 st) (fileMapOf (templateFiles st))) = Some file ->
                  exists withResponses, driveKind file = SpreadsheetFile withResponses) ->
    createNewForm st =
    (match fst (templatesFor (C6 st) (fileMapOf (templateFiles st))) with
     | None => st
     | Some file =>
         with_sheetFolders st
           (moveTo month {| sheetName := (name ++ " Member Sheet")%string;
                            sheetTemplate := file |}
              (sheetFolders st))
     end,
     Threw TypeError).
Proof.
  intros st name month Hname Hnb Hq Hmonth Hm Hform Hkind.
  destruct (templatesFor (C6 st) (fileMapOf (templateFiles st)))
    as [[sheetFile|] formFile] eqn:Et; simpl in Hform; subst formFile.
  - destruct (Hkind sheetFile eq_refl) as [withResponses Hk].
    now rewrite (createNewForm_sheet st name month sheetFile None withResponses).
  - unfold createNewForm. rewrite Hname, (truthy_text name Hnb). cbn [negb].
    replace (negb (truthy (C8 st)) && negb (isString (C8 st)))%bool with false
      by (destruct (truthy (C8 st)), (isString (C8 st)); simpl in *; congruence).
    now rewrite Et.
Qed.

Lemma creation_throws_without_template_witness :
  createNewForm socialStudio = (socialStudio, Threw TypeError) /\
  createNewForm noFormStudio =
  (with_sheetFolders noFormStudio
     [("February", []);
      ("March", [{| sheetName := "Spring Gala Member Sheet";
                    sheetTemplate := {| driveName := SHEET_TEMPLATE_NAME;
                                        driveKind := SpreadsheetFile true |} |}])],
   Threw TypeError).
Proof.
  split.
  - refine (creation_throws_without_template socialStudio "Spring Gala" "March"
              eq_refl _ eq_refl eq_refl _ eq_refl _); discriminate.
  - refine (creation_throws_without_template noFormStudio "Spring Gala" "March"
              eq_refl _ eq_refl eq_refl _ eq_refl _); try discriminate.
    intros file H. injection H as <-. exists true. reflexivity.
Defined.

(** createNewForm (lines 136-200).  With its two templates at hand the
    script adds one sheet and one form to the month named in C11, in the
    subfolder of that name when there is one: the sheet is named after the
    event, the form sends its responses to that sheet and carries the custom
    question when one was asked for.  It then blanks C4 to C9, but for the
    event type, which goes back to "Standard", and leaves the month as it
    is. *)
Theorem creation_adds_sheet_and_form :
  forall st name month sheetFile formFile item,
    C4 st = Text name -> name <> "" ->
    (truthy (C8 st) || isString (C8 st))%bool = true ->
    C11 st = Text month -> month <> "" ->
    templatesFor (C6 st) (fileMapOf (templateFiles st)) = (Some sheetFile, Some formFile) ->
    driveKind sheetFile = SpreadsheetFile true ->
    driveKind formFile = FormFile ->
    questionItem (C8 st) (C9 st) = Returned item ->
    let newSheet := {| sheetName := (name ++ " Member Sheet")%string;
                       sheetTemplate := sheetFile |} in
    let newForm := {| formName := (name ++ " Sign-In Form")%string;
                      formTitle := (name ++ " Sign-In Form")%string;
                      formTemplate := formFile;
                      destination := newSheet;
                      addedItem := item |} in
    let st' := fst (createNewForm st) in
    snd (createNewForm st) = Returned tt /\
    filesOf month (sheetFolders st') = filesOf month (sheetFolders st) ++ [newSheet] /\
    filesOf month (formFolders st') = filesOf month (formFolders st) ++ [newForm] /\
    (forall other, other <> month ->
                   filesOf other (sheetFolders st') = filesOf other (sheetFolders st) /\
                   filesOf other (formFolders st') = filesOf other (formFolders st)) /\
    [C4 st'; C5 st'; C6 st'; C7 st'; C8 st'; C9 st'] =
    [Text ""; Text ""; Text "Standard"; Text ""; Text ""; Text ""] /\
    C10 st' = C10 st /\ C11 st' = C11 st /\ B3 st' = "".
Proof.
  intros st name month sheetFile formFile item Hname Hnb Hq Hmonth Hm Ht Hks Hkf Hitem.
  cbv zeta.
  rewrite (createNewForm_sheet st name month sheetFile (Some formFile) true)
    by assumption.
  cbv zeta. rewrite Hkf, Hitem. cbn [fst snd resetForm with_formFolders with_sheetFolders
    sheetFolders formFolders C4 C5 C6 C7 C8 C9 C10 C11 B3].
  split; [reflexivity|].
  split; [apply filesOf_moveTo|]. split; [apply filesOf_moveTo|].
  split; [|repeat split; reflexivity].
  intros other Hne. split; now apply filesOf_moveTo_other.
Qed.

Lemma creation_adds_sheet_and_form_witness :
  snd (createNewForm galaStudio) = Returned tt /\
  filesOf "March" (sheetFolders (fst (createNewForm galaStudio))) =
  [{| sheetName := "Spring Gala Member Sheet";
      sheetTemplate := {| driveName := SHEET_TEMPLATE_NAME;
                          driveKind := SpreadsheetFile true |} |}] /\
  filesOf "March" (formFolders (fst (createNewForm galaStudio))) =
  [{| formName := "Spring Gala Sign-In Form";
      formTitle := "Spring Gala Sign-In Form";
      formTemplate := {| driveName := FORM_TEMPLATE_NAME; driveKind := FormFile |};
      destination :=
        {| sheetName := "Spring Gala Member Sheet";
           sheetTemplate := {| driveName := SHEET_TEMPLATE_NAME;
                               driveKind := SpreadsheetFile true |} |};
      addedItem := Some ("T-shirt size?", true) |}] /\
  C11 (fst (createNewForm galaStudio)) = Text "March".
Proof.
  destruct (creation_adds_sheet_and_form galaStudio "Spring Gala" "March" _ _ _
              eq_refl ltac:(discriminate) eq_refl eq_refl ltac:(discriminate)
              eq_refl eq_refl eq_refl eq_refl)
    as [H1 [H2 [H3 [_ [_ [_ [H4 _]]]]]]].
  split; [exact H1|]. split; [exact H2|]. split; [exact H3 | exact H4].
Defined.

(** createNewForm (lines 66-204).  A run that returned is not repeated by
    running the script once more as the panel stands: the second run writes a
    message into B3 and creates nothing. *)
Theorem creation_is_not_repeated :
  forall st,
    snd (createNewForm st) = Returned tt ->
    let st1 := fst (createNewForm st) in
    snd (createNewForm st1) = Returned tt /\
    sheetFolders (fst (createNewForm st1)) = sheetFolders st1 /\
    formFolders (fst (createNewForm st1)) = formFolders st1 /\
    B3 (fst (createNewForm st1)) <> "".
Proof.
  intros st Hret st1.
  assert (Hcases :
            (C4 st1 = Text "" \/ (C4 st1 = C4 st /\ C8 st1 = C8 st))
            /\ (C4 st1 = C4 st ->
                (forall name, C4 st = Text name -> name = "") \/
                (exists name, C4 st = Text name /\ name <> "" /\
                   (negb (truthy (C8 st)) && negb (isString (C8 st)))%bool = true))).
  { subst st1. revert Hret. unfold createNewForm.
    destruct (C4 st) as [name|n|b|] eqn:E4.
    - simpl. destruct (name =? "")%string eqn:En; simpl.
      + intros _. split; [right; simpl; auto|]. intros _. left.
        intros name' [= <-]. now apply String.eqb_eq.
      + apply String.eqb_neq in En.
        destruct (negb (truthy (C8 st)) && negb (isString (C8 st)))%bool eqn:Eq.
        * intros _. split; [right; simpl; auto|]. intros _. right. eauto.
        * destruct (templatesFor _ _) as [[sheetFile|] formFile]; [|discriminate].
          destruct (driveKind sheetFile) as [withResponses| |]; try discriminate.
          destruct (C11 st) as [month| | |]; try discriminate.
          destruct (month =? "")%string; [discriminate|].
          destruct formFile as [file|]; [|discriminate].
          destruct (driveKind file); try discriminate.
          destruct (questionItem _ _); try discriminate.
          destruct withResponses; [|discriminate].
          intros _. simpl. split; [now left|].
          intros [= Hn]. subst name. now destruct En.
    - intros _. split.
      + right. destruct (negb (truthy (Num n))); simpl; auto.
      + intros _. left. intros name H. discriminate H.
    - intros _. split.
      + right. destruct (negb (truthy (Flag b))); simpl; auto.
      + intros _. left. intros name H. discriminate H.
    - intros _. split; [right; simpl; auto|].
      intros _. left. intros name H. discriminate H. }
  destruct Hcases as [[Hblank|[H4 H8]] Hwhy].
  - rewrite (createNewForm_no_name st1)
      by (intros name H; rewrite Hblank in H; now injection H as <-).
    rewrite Hblank. simpl. repeat split; discriminate.
  - destruct (Hwhy H4) as [Hno|[name [Hname [Hnb Hq]]]].
    + rewrite (createNewForm_no_name st1)
        by (intros name H; rewrite H4 in H; now apply Hno).
      simpl. repeat split. now destruct (truthy (C4 st1)).
    + unfold createNewForm. rewrite H4, H8, Hname, (truthy_text name Hnb), Hq.
      simpl. repeat split; discriminate.
Qed.

Lemma creation_is_not_repeated_witness :
  snd (createNewForm (fst (createNewForm galaStudio))) = Returned tt /\
  sheetFolders (fst (createNewForm (fst (createNewForm galaStudio)))) =
  sheetFolders (fst (createNewForm galaStudio)) /\
  formFolders (fst (createNewForm (fst (createNewForm galaStudio)))) =
  formFolders (fst (createNewForm galaStudio)) /\
  B3 (fst (createNewForm (fst (createNewForm galaStudio)))) <> "".
Proof. exact (creation_is_not_repeated galaStudio eq_refl). Defined.

(** createNewForm (lines 136-179).  Whatever the script does, it takes no
    sheet and no form out of its month: a file that was in a subfolder of
    "Sheets" or of "Forms" is still there afterwards. *)
Theorem creation_keeps_the_files :
  forall st month,
    (forall sheet, In sheet (filesOf month (sheetFolders st)) ->
                   In sheet (filesOf month (sheetFolders (fst (createNewForm st))))) /\
    (forall form, In form (filesOf month (formFolders st)) ->
                  In form (filesOf month (formFolders (fst (createNewForm st))))).
Proof.
  intros st month. unfold createNewForm.
  destruct (negb (truthy (C4 st))); [simpl; auto|].
  destruct (C4 st) as [name| | |]; try (simpl; auto; fail).
  destruct (negb (truthy (C8 st)) && negb (isString (C8 st)))%bool; [simpl; auto|].
  destruct (templatesFor _ _) as [[sheetFile|] formFile]; [|simpl; auto].
  destruct (driveKind sheetFile) as [withResponses| |]; try (simpl; auto; fail).
  destruct (C11 st) as [m| | |]; try (simpl; auto; fail).
  destruct (m =? "")%string; [simpl; auto|].
  destruct formFile as [file|].
  - destruct (driveKind file); try (simpl; auto; fail).
    destruct (questionItem _ _); try (simpl; auto; fail).
    destruct withResponses; [|simpl; auto].
    simpl. split; intros f Hf; now apply moveTo_keeps.
  - simpl. split; [|auto]. intros f Hf. now apply moveTo_keeps.
Qed.

Lemma creation_keeps_the_files_witness :
  In {| sheetName := "Bake Sale Member Sheet";
        sheetTemplate := {| driveName := FUND_SHEET_TEMPLATE_NAME;
                            driveKind := SpreadsheetFile true |} |}
     (filesOf "March" (sheetFolders (fst (createNewForm marchStudio)))).
Proof.
  apply (proj1 (creation_keeps_the_files marchStudio "March")).
  left. reflexivity.
Defined.

(** ** The name of an event, from its sheet to the report *)

Module LabelFacts.

Ltac overlap_step t :=
  let c := fresh "c" in
  destruct t as [|c t];
  [ vm_compute; intros H; discriminate H
  | cbn [prefix append];
    destruct (ascii_dec _ c); [subst c | intros H; discriminate H] ].

(** The text " Member Sheet" does not overlap with itself. *)
Lemma no_overlap t :
  prefix " Member Sheet" (t ++ " Member Sheet") = true ->
  t = ""%string \/ prefix " Member Sheet" t = true.
Proof.
  destruct t as [|c t]; [now left|]. intros H. right. revert H.
  cbn [prefix append]. destruct (ascii_dec _ c); [subst c | intros H; discriminate H].
  do 12 (overlap_step t).
  intros _. destruct t; reflexivity.
Qed.

Lemma split0_named name :
  occursIn " Member Sheet" name = false ->
  split0 " Member Sheet" (name ++ " Member Sheet") = name.
Proof.
  induction name as [|c t IH]; [reflexivity|].
  intros H. cbn [occursIn] in H. apply orb_false_elim in H. destruct H as [Hp Ho].
  cbn [append split0].
  destruct (prefix " Member Sheet" (String c (t ++ " Member Sheet"))) eqn:E.
  - apply (no_overlap (String c t)) in E. destruct E as [E|E]; congruence.
  - now rewrite IH.
Qed.

End LabelFacts.

Import LabelFacts.

(** getNameFromSheet (lines 824-838) with line 157 of createNewForm.  The
    sheet of an event is named after the event, followed by " Member Sheet";
    the label [getNameFromSheet] makes for the report starts with the name of
    the event again, whenever that name does not hold " Member Sheet"
    itself. *)
Theorem label_shows_the_event_name :
  forall user sheet name r,
    fileName sheet = (name ++ " Member Sheet")%string ->
    occursIn " Member Sheet" name = false ->
    tabResponses sheet <> None ->
    firstMatch user sheet = Some r ->
    getNameFromSheet user sheet =
    Returned
      (Some ((name ++ " - " ++ String_of (recordPoints sheet r)
                ++ (if (recordPoints sheet r =? 1)%Z then " Member Point"
                    else " Member Points"))%string,
             recordPoints sheet r)).
Proof.
  intros user sheet name r Hname Hfree Htab Hfirst.
  rewrite (getNameFromSheet_full user sheet Htab), Hfirst. simpl.
  unfold eventLabel. now rewrite Hname, split0_named.
Qed.

Lemma label_shows_the_event_name_witness :
  getNameFromSheet "carol lee" fairSheet =
  Returned (Some ("Fair - 2 Member Points", 2)).
Proof.
  refine (label_shows_the_event_name "carol lee" fairSheet "Fair"
            (signIn "carol lee" "carol@x.com" (Some 1) None)
            eq_refl eq_refl _ eq_refl).
  discriminate.
Defined.

(** ** A row without a name *)

Lemma nameLoop_hidden user file cell pre r post :
  colA r = "" ->
  (forall x, In x pre -> isNamed user x = false) ->
  nameLoop user file cell (pre ++ r :: post) = None.
Proof.
  intros Hr Hpre. induction pre as [|x pre IH]; simpl.
  - now rewrite Hr.
  - destruct (toLowerCase (colA x) =? "")%string; [reflexivity|].
    pose proof (Hpre x (or_introl eq_refl)) as Hx. unfold isNamed in Hx.
    rewrite Hx. apply IH. intros y Hy. apply Hpre. now right.
Qed.

Lemma records_through pre r post :
  (forall x, In x pre -> colB x <> "") ->
  colB r <> "" ->
  records (pre ++ r :: post) = pre ++ r :: records post.
Proof.
  intros Hpre Hr. induction pre as [|x pre IH]; simpl.
  - apply String.eqb_neq in Hr. now rewrite Hr.
  - pose proof (Hpre x (or_introl eq_refl)) as Hx.
    apply String.eqb_neq in Hx. rewrite Hx. f_equal.
    apply IH. intros y Hy. apply Hpre. now right.
Qed.

(** getNameFromSheet (lines 806-839) against getResponsesFromEvent (lines
    347-364).  The lookup stops at the first row without a name, the
    aggregation at the first row without an email.  So a row that has an
    email but no name hides the rows below it from the lookup, which finds
    nothing in the event for a member who signed in below that row, while the
    aggregation still reads those rows as records. *)
Theorem nameless_row_hides_the_rest :
  forall user sheet pre r post,
    tabResponses sheet = Some (pre ++ r :: post) ->
    colA r = "" ->
    (forall x, In x pre -> isNamed user x = false) ->
    (forall x, In x pre -> colB x <> "") ->
    colB r <> "" ->
    getNameFromSheet user sheet = Returned None /\
    recordsOf sheet = pre ++ r :: records post.
Proof.
  intros user sheet pre r post Htab Hr Hpre Hmail Hrmail.
  unfold getNameFromSheet, recordsOf. rewrite Htab. split.
  - now rewrite nameLoop_hidden.
  - now apply records_through.
Qed.

Lemma nameless_row_hides_the_rest_witness :
  getNameFromSheet "ann lee" gapSheet = Returned None /\
  recordsOf gapSheet =
  [signIn "" "cid@x.com" None (Some 2); signIn "Ann Lee" "ann@x.com" (Some 1) None].
Proof.
  refine (nameless_row_hides_the_rest "ann lee" gapSheet []
            (signIn "" "cid@x.com" None (Some 2))
            [signIn "Ann Lee" "ann@x.com" (Some 1) None]
            eq_refl eq_refl _ _ _).
  - intros x [].
  - intros x [].
  - discriminate.
Defined.

(** ** The error cells of the corrections *)

Lemma panel_after_walk sheet_sort f c1 c2 w :
  let out := (inAllSheets f >>> updateMemberPoints sheet_sort >>>
              onPanel (setValue c1 "") >>> onPanel (setValue c2 "")) w in
  SHEET (fst out) = SHEET w \/
  SHEET (fst out) = setValue c2 "" (setValue c1 "" (SHEET w)).
Proof.
  cbv zeta. unfold andThen.
  assert (Hwalk : SHEET (fst (inAllSheets f w)) = SHEET w).
  { unfold inAllSheets.
    destruct (forEachSheet f _) as [files' r]; destruct r;
      [destruct (forEachSubfolder f _)| |]; reflexivity. }
  destruct (inAllSheets f w) as [w1 r]. simpl in Hwalk.
  destruct r as [u| |]; [|now left|now left].
  unfold updateMemberPoints.
  destruct (aggregate (SHEETS_FOLDER w1)); simpl; rewrite Hwalk; auto.
Qed.

Lemma getCell_after_reset p c1 c2 a1 :
  a1 <> c1 -> a1 <> c2 ->
  getCell (setValue c2 "" (setValue c1 "" p)) a1 = getCell p a1.
Proof.
  intros H1 H2. unfold setValue. rewrite !getCell_set.
  destruct (String.eqb_spec c2 a1); [congruence|].
  destruct (String.eqb_spec c1 a1); [congruence | reflexivity].
Qed.

(** fixEmail (lines 375-421), fixName (lines 480-527) and deleteName (lines
    587-633).  The scripts write into their error cell and never clear it:
    run with its two fields filled in, each of them leaves the error cell as
    it was, however the run ends, so that the message of an earlier run
    stays on the panel. *)
Theorem error_message_stays :
  forall sheet_sort w,
    (getValue (SHEET w) OLD_EMAIL_CELL <> "" ->
     getValue (SHEET w) NEW_EMAIL_CELL <> "" ->
     getCell (SHEET (fst (fixEmail sheet_sort w))) EMAIL_ERROR_CELL =
     getCell (SHEET w) EMAIL_ERROR_CELL) /\
    (getValue (SHEET w) OLD_NAME_CELL <> "" ->
     getValue (SHEET w) NEW_NAME_CELL <> "" ->
     getCell (SHEET (fst (fixName sheet_sort w))) NAME_ERROR_CELL =
     getCell (SHEET w) NAME_ERROR_CELL) /\
    (getValue (SHEET w) DEL_NAME_CELL <> "" ->
     getValue (SHEET w) DEL_EMAIL_CELL <> "" ->
     getCell (SHEET (fst (deleteName sheet_sort w))) DEL_ERROR_CELL =
     getCell (SHEET w) DEL_ERROR_CELL).
Proof.
  intros sheet_sort w. split; [|split]; intros H1 H2.
  - unfold fixEmail. rewrite !toLowerCase_blank.
    apply String.eqb_neq in H1, H2. rewrite H1, H2. cbn [orb].
    destruct (panel_after_walk sheet_sort
                (replaceEmailInSheet
                   (toLowerCase (getValue (SHEET w) NEW_EMAIL_CELL))
                   (toLowerCase (getValue (SHEET w) OLD_EMAIL_CELL)))
                OLD_EMAIL_CELL NEW_EMAIL_CELL w) as [E|E];
      rewrite E; [reflexivity|].
    apply getCell_after_reset; discriminate.
  - unfold fixName.
    apply String.eqb_neq in H1, H2. rewrite H1, H2. cbn [orb].
    destruct (panel_after_walk sheet_sort
                (replaceNameInSheet (getValue (SHEET w) NEW_NAME_CELL)
                                    (getValue (SHEET w) OLD_NAME_CELL))
                OLD_NAME_CELL NEW_NAME_CELL w) as [E|E];
      rewrite E; [reflexivity|].
    apply getCell_after_reset; discriminate.
  - unfold deleteName. rewrite !toLowerCase_blank.
    apply String.eqb_neq in H1, H2. rewrite H1, H2. cbn [orb].
    destruct (panel_after_walk sheet_sort
                (deleteNameInSheet
                   (toLowerCase (getValue (SHEET w) DEL_EMAIL_CELL))
                   (toLowerCase (getValue (SHEET w) DEL_NAME_CELL)))
                DEL_NAME_CELL DEL_EMAIL_CELL w) as [E|E];
      rewrite E; [reflexivity|].
    apply getCell_after_reset; discriminate.
Qed.

Lemma error_message_stays_witness :
  getValue (SHEET nameWorld) NAME_ERROR_CELL = EMPTY_FIELD /\
  snd (fixName sortByColumnA nameWorld) = Returned tt /\
  getCell (SHEET (fst (fixName sortByColumnA nameWorld))) NAME_ERROR_CELL =
  getCell (SHEET nameWorld) NAME_ERROR_CELL.
Proof.
  split; [reflexivity|]. split; [reflexivity|].
  apply (proj1 (proj2 (error_message_stays sortByColumnA nameWorld))); discriminate.
Defined.
